(** * Seccomp syscall-interception supervisor (internal/server/seccomp)

    A shallow embedding of the policy compiler, the frame validation, the
    arch/syscall classifier and the per-syscall emulators, and of the
    conversions and comparisons of the storage utilities
    (internal/server/storage), followed by the properties established
    about them.

    Conventions.  C and Go machine integers are [Z] with the wrap-around
    written out ([to_u32], [to_i32], ...).  Go maps with string keys are
    [gmap string string]; a lookup of a missing key yields the empty string
    ([cfg_get]) or reports absence ([!!]), as in Go.  Everything the
    supervisor asks of the kernel, of /proc, of the cgroup tree or of the
    forked helper is answered by a read-only oracle record ([World]); what
    it does to the outside is logged as a list of [Effect]s. *)

From Stdlib Require Import ZArith Lia Ascii OctalString Sorted.
From stdpp Require Import gmap strings list pretty.

Local Open Scope string_scope.
Local Open Scope Z_scope.

(* ------------------------------------------------------------------ *)
(** ** Machine integers *)

Definition to_u16 (z : Z) : Z := z mod 2 ^ 16.
Definition to_u32 (z : Z) : Z := z mod 2 ^ 32.
Definition to_u64 (z : Z) : Z := z mod 2 ^ 64.
Definition to_i32 (z : Z) : Z := (z + 2 ^ 31) mod 2 ^ 32 - 2 ^ 31.
Definition to_i64 (z : Z) : Z := (z + 2 ^ 63) mod 2 ^ 64 - 2 ^ 63.


(* ------------------------------------------------------------------ *)
(** ** Constants of the C headers (errno.h, sys/stat.h, fcntl.h) *)

Definition EPERM : Z := 1.
Definition EIO : Z := 5.
Definition ENOMEM : Z := 12.
Definition EINVAL : Z := 22.
Definition EFBIG : Z := 27.
Definition ENOANO : Z := 55.
Definition ENOMEDIUM : Z := 123.

Definition S_IFMT : Z := 61440.   (* 0170000 *)
Definition S_IFCHR : Z := 8192.   (* 0020000 *)
Definition S_IFBLK : Z := 24576.  (* 0060000 *)

Definition AT_FDCWD : Z := -100.

(** sys/sysmacros.h, glibc's encoding of a device number. *)
Definition makedev (major minor : Z) : Z :=
  Z.lor (Z.lor (Z.shiftl (Z.land major 4095) 8)
               (Z.shiftl (Z.land major 4294963200) 32))
        (Z.lor (Z.land minor 255)
               (Z.shiftl (Z.land minor 4294967040) 12)).

(** golang.org/x/sys/unix Major and Minor. *)
Definition unix_Major (dev : Z) : Z :=
  to_u32 (Z.lor (Z.shiftr (Z.land dev 1048320) 8)
                (Z.shiftr (Z.land dev 18446726481523507200) 32)).
Definition unix_Minor (dev : Z) : Z :=
  to_u32 (Z.lor (Z.land dev 255)
                (Z.shiftr (Z.land dev 17592184995840) 12)).

(* ------------------------------------------------------------------ *)
(** ** device_allowed *)

(** [dev] is a [dev_t] (unsigned 64 bit), [mode] a [mode_t] (unsigned 32
    bit).  Returns 0 for an allowed character device and [-EPERM]
    otherwise. *)
Definition device_allowed (dev mode : Z) : Z :=
  if Z.land mode S_IFMT =? S_IFCHR then
    if dev =? makedev 0 0 then 0          (* whiteout *)
    else if dev =? makedev 5 1 then 0     (* /dev/console *)
    else if dev =? makedev 1 7 then 0     (* /dev/full *)
    else if dev =? makedev 1 3 then 0     (* /dev/null *)
    else if dev =? makedev 1 8 then 0     (* /dev/random *)
    else if dev =? makedev 5 0 then 0     (* /dev/tty *)
    else if dev =? makedev 1 9 then 0     (* /dev/urandom *)
    else if dev =? makedev 1 5 then 0     (* /dev/zero *)
    else - EPERM
  else - EPERM.

(* ------------------------------------------------------------------ *)
(** ** Kernel structures of the notification frame *)

Record seccomp_notif_sizes := {
  seccomp_notif_sz : Z;       (* __u16 seccomp_notif *)
  seccomp_notif_resp_sz : Z;  (* __u16 seccomp_notif_resp *)
  seccomp_data_sz : Z         (* __u16 seccomp_data *)
}.

Record seccomp_notify_proxy_msg := {
  __reserved : Z;             (* uint64_t *)
  monitor_pid : Z;            (* pid_t *)
  init_pid : Z;               (* pid_t *)
  sizes : seccomp_notif_sizes;
  cookie_len : Z              (* uint64_t *)
}.

Record seccomp_data := {
  nr : Z;                     (* int *)
  data_arch : Z;              (* __u32 *)
  instruction_pointer : Z;    (* __u64 *)
  args : list Z               (* __u64 args[6] *)
}.

Record seccomp_notif := {
  req_id : Z;                 (* __u64 *)
  req_pid : Z;                (* __u32 *)
  req_flags : Z;              (* __u32 *)
  data : seccomp_data
}.

Record seccomp_notif_resp := {
  resp_id : Z;                (* __u64 *)
  resp_val : Z;               (* __s64 *)
  resp_error : Z;             (* __s32 *)
  resp_flags : Z              (* __u32 *)
}.

(** [req->data.args[i]] for a constant index below six. *)
Definition arg (req : seccomp_notif) (i : nat) : Z :=
  default 0 (args (data req) !! i).

Definition resp_zero : seccomp_notif_resp :=
  {| resp_id := 0; resp_val := 0; resp_error := 0; resp_flags := 0 |}.

Definition seccompUserNotifFlagContinue : Z := 1.

Definition seccomp_notify_update_response
    (resp : seccomp_notif_resp) (new_neg_errno flags : Z) : seccomp_notif_resp :=
  {| resp_id := resp_id resp;
     resp_val := resp_val resp;
     resp_error := new_neg_errno;
     resp_flags := Z.lor (resp_flags resp) flags |}.

(* ------------------------------------------------------------------ *)
(** ** Arch / syscall table *)

Record incus_seccomp_data_arch := {
  arch : Z;                   (* int *)
  nr_mknod : Z;
  nr_mknodat : Z;
  nr_setxattr : Z;
  nr_mount : Z;
  nr_bpf : Z;
  nr_sched_setscheduler : Z;
  nr_sysinfo : Z
}.

Definition INCUS_SECCOMP_NOTIFY_MKNOD : Z := 0.
Definition INCUS_SECCOMP_NOTIFY_MKNODAT : Z := 1.
Definition INCUS_SECCOMP_NOTIFY_SETXATTR : Z := 2.
Definition INCUS_SECCOMP_NOTIFY_MOUNT : Z := 3.
Definition INCUS_SECCOMP_NOTIFY_BPF : Z := 4.
Definition INCUS_SECCOMP_NOTIFY_SCHED_SETSCHEDULER : Z := 5.
Definition INCUS_SECCOMP_NOTIFY_SYSINFO : Z := 6.

(** linux/audit.h: the audit architecture identifiers, as the unsigned
    32-bit values the kernel puts into [seccomp_data.arch]. *)
Definition AUDIT_ARCH_X86_64 : Z := 3221225534.      (* 0xC000003E *)
Definition AUDIT_ARCH_I386 : Z := 1073741827.        (* 0x40000003 *)
Definition AUDIT_ARCH_AARCH64 : Z := 3221225655.     (* 0xC00000B7 *)
Definition AUDIT_ARCH_ARM : Z := 1073741864.         (* 0x40000028 *)
Definition AUDIT_ARCH_ARMEB : Z := 40.               (* 0x00000028 *)
Definition AUDIT_ARCH_S390 : Z := 22.                (* 0x00000016 *)
Definition AUDIT_ARCH_S390X : Z := 2147483670.       (* 0x80000016 *)
Definition AUDIT_ARCH_PPC : Z := 20.                 (* 0x00000014 *)
Definition AUDIT_ARCH_PPC64 : Z := 2147483669.       (* 0x80000015 *)
Definition AUDIT_ARCH_PPC64LE : Z := 3221225493.     (* 0xC0000015 *)
Definition AUDIT_ARCH_RISCV64 : Z := 3221225715.     (* 0xC00000F3 *)
Definition AUDIT_ARCH_SPARC : Z := 2.                (* 0x00000002 *)
Definition AUDIT_ARCH_SPARC64 : Z := 2147483691.     (* 0x8000002B *)
Definition AUDIT_ARCH_MIPS : Z := 8.                 (* 0x00000008 *)
Definition AUDIT_ARCH_MIPSEL : Z := 1073741832.      (* 0x40000008 *)
Definition AUDIT_ARCH_MIPS64 : Z := 2147483656.      (* 0x80000008 *)
Definition AUDIT_ARCH_MIPS64N32 : Z := 2684354568.   (* 0xA0000008 *)
Definition AUDIT_ARCH_MIPSEL64 : Z := 3221225480.    (* 0xC0000008 *)
Definition AUDIT_ARCH_MIPSEL64N32 : Z := 3758096392. (* 0xE0000008 *)
Definition AUDIT_ARCH_LOONGARCH64 : Z := 3221225730. (* 0xC0000102 *)

(** One initialiser of the table: the first member is stored into an
    [int], the identifiers above 2^31 wrap to negative values. *)
Definition row (a n0 n1 n2 n3 n4 n5 n6 : Z) : incus_seccomp_data_arch :=
  {| arch := to_i32 a; nr_mknod := n0; nr_mknodat := n1; nr_setxattr := n2;
     nr_mount := n3; nr_bpf := n4; nr_sched_setscheduler := n5;
     nr_sysinfo := n6 |}.

(** The table with every [#ifdef AUDIT_ARCH_*] taken.  Ordered by
    likelihood of usage. *)
Definition seccomp_notify_syscall_table : list incus_seccomp_data_arch :=
  [ row (-1) INCUS_SECCOMP_NOTIFY_MKNOD INCUS_SECCOMP_NOTIFY_MKNODAT
        INCUS_SECCOMP_NOTIFY_SETXATTR INCUS_SECCOMP_NOTIFY_MOUNT
        INCUS_SECCOMP_NOTIFY_BPF INCUS_SECCOMP_NOTIFY_SCHED_SETSCHEDULER
        INCUS_SECCOMP_NOTIFY_SYSINFO;
    row AUDIT_ARCH_X86_64      133 259 188 165 321 144 99;
    row AUDIT_ARCH_I386         14 297 226  21 357 156 116;
    row AUDIT_ARCH_AARCH64    (-1)  33   5  40 280 119 179;
    row AUDIT_ARCH_ARM          14 324 226  21 386 156 116;
    row AUDIT_ARCH_ARMEB        14 324 226  21 386 156 116;
    row AUDIT_ARCH_S390         14 290 224  21 351 156 116;
    row AUDIT_ARCH_S390X        14 290 224  21 351 156 116;
    row AUDIT_ARCH_PPC          14 288 209  21 361 156 116;
    row AUDIT_ARCH_PPC64        14 288 209  21 361 156 116;
    row AUDIT_ARCH_PPC64LE      14 288 209  21 361 156 116;
    row AUDIT_ARCH_RISCV64    (-1)  33   5  40 280 119 179;
    row AUDIT_ARCH_SPARC        14 286 169 167 349 243 214;
    row AUDIT_ARCH_SPARC64      14 286 169 167 349 243 214;
    row AUDIT_ARCH_MIPS         14 290 224  21 (-1) 141 4116;
    row AUDIT_ARCH_MIPSEL       14 290 224  21 (-1) 141 4116;
    row AUDIT_ARCH_MIPS64      131 249 180 160 (-1) 141 5097;
    row AUDIT_ARCH_MIPS64N32   131 253 180 160 (-1) 141 4116;
    row AUDIT_ARCH_MIPSEL64    131 249 180 160 (-1) 141 5097;
    row AUDIT_ARCH_MIPSEL64N32 131 253 180 160 (-1) 141 4116;
    row AUDIT_ARCH_LOONGARCH64 (-1) 33   5  40 280 119 179 ].

(** The slot of a row that the first matching comparison selects, in the
    order of the [if]s of [seccomp_notify_get_syscall]. *)
Definition match_entry (entry : incus_seccomp_data_arch) (n : Z) : Z :=
  if nr_mknod entry =? n then INCUS_SECCOMP_NOTIFY_MKNOD
  else if nr_mknodat entry =? n then INCUS_SECCOMP_NOTIFY_MKNODAT
  else if nr_setxattr entry =? n then INCUS_SECCOMP_NOTIFY_SETXATTR
  else if nr_mount entry =? n then INCUS_SECCOMP_NOTIFY_MOUNT
  else if nr_bpf entry =? n then INCUS_SECCOMP_NOTIFY_BPF
  else if nr_sched_setscheduler entry =? n
       then INCUS_SECCOMP_NOTIFY_SCHED_SETSCHEDULER
  else if nr_sysinfo entry =? n then INCUS_SECCOMP_NOTIFY_SYSINFO
  else - EINVAL.                  (* break; then return -EINVAL *)

(** The [for] loop: rows of another architecture are skipped
    ([continue]); the first row of the request's architecture decides
    ([return] or [break]).  [entry->arch != req->data.arch] compares an
    [int] with a [__u32], so the [int] is converted to unsigned. *)
Fixpoint table_scan (tbl : list incus_seccomp_data_arch) (a n : Z) : Z :=
  match tbl with
  | [] => - EINVAL
  | entry :: rest =>
      if negb (to_u32 (arch entry) =? a) then table_scan rest a n
      else match_entry entry n
  end.

(** Returns the logical syscall (or [-EINVAL]) and the response as the
    function leaves it. *)
Definition seccomp_notify_get_syscall_in
    (tbl : list incus_seccomp_data_arch)
    (req : seccomp_notif) (resp : seccomp_notif_resp) : Z * seccomp_notif_resp :=
  let resp' := {| resp_id := req_id req; resp_val := 0; resp_error := 0;
                  resp_flags := req_flags req |} in
  (table_scan tbl (data_arch (data req)) (nr (data req)), resp').

Definition seccomp_notify_get_syscall :=
  seccomp_notify_get_syscall_in seccomp_notify_syscall_table.

(* ------------------------------------------------------------------ *)
(** ** Strings, errors and configuration maps *)

Definition nl : string := String (Ascii.ascii_of_nat 10) EmptyString.

(** The text of a Go raw string literal, one list element per line, each
    line terminated by a newline. *)
Definition unlines (ls : list string) : string :=
  foldr (fun l acc => l +:+ nl +:+ acc) EmptyString ls.

Definition str_empty (s : string) : bool :=
  match s with EmptyString => true | String _ _ => false end.

(** A Go [error] value. *)
Inductive error := errorString (msg : string).

(** [config[k]]: the empty string when the key is missing. *)
Definition cfg_get (config : gmap string string) (k : string) : string :=
  default EmptyString (config !! k).

(** [v, ok := config[k]]. *)
Definition cfg_lookup (config : gmap string string) (k : string) : string * bool :=
  match config !! k with
  | Some v => (v, true)
  | None => (EmptyString, false)
  end.

(** Functions of the packages shared/util and shared/osarch and of Go's
    path/filepath that the supervisor calls; their sources are not part of
    this development, so every definition below is parametric in them. *)
Class SharedUtil := {
  IsTrue : string -> bool;
  IsFalseOrEmpty : string -> bool;
  ArchitectureName : Z -> string + error;
  filepath_Join : string -> string -> string
}.

(* ------------------------------------------------------------------ *)
(** ** Daemon state and instances *)

(** The fields of [state.State] (through [s.OS]) that the package reads,
    and the answers of the liblxc probe of [lxcSupportSeccompNotify]. *)
Record State := {
  RunningInUserNS : bool;
  LXCFeatures : gmap string bool;
  SeccompListener : bool;
  SeccompListenerContinue : bool;
  SeccompListenerAddfd : bool;
  PidFds : bool;
  PidFdsThread : bool;
  lxc_NewContainer_ok : bool;
  lxc_SetConfigItem_err : option string
}.

Definition lxc_feature (s : State) (k : string) : bool :=
  default false (LXCFeatures s !! k).

(** [idmap.Set], by the two methods used here. *)
Record IdmapSet := {
  ShiftFromNS : Z -> Z -> Z * Z;
  ShiftIntoNS : Z -> Z -> Z * Z
}.

(** The [Instance] interface.  A method that returns an error is an
    [option] or a sum; [DiskIdmap] may succeed with a nil set. *)
Record Instance := {
  Name : string;
  ProjectName : string;
  ExpandedConfig : gmap string string;
  IsPrivileged : bool;
  Architecture : Z;
  RootfsPath : string;
  CurrentIdmap : option IdmapSet;
  DiskIdmap : option (option IdmapSet);
  IdmappedStorage : string -> string -> string;
  InsertSeccompUnixDevice : string -> gmap string string -> Z -> option error
}.

(* ------------------------------------------------------------------ *)
(** ** Policy text *)

Definition seccompHeader : string := unlines [ "2" ].

Definition defaultSeccompPolicy : string := unlines [
  "reject_force_umount  # comment this to allow umount -f;  not recommended";
  "[all]";
  "kexec_load errno 38";
  "open_by_handle_at errno 38";
  "init_module errno 38";
  "finit_module errno 38";
  "delete_module errno 38" ].

(** 8 == SECCOMP_FILTER_FLAG_NEW_LISTENER, 2146435072 == SECCOMP_RET_TRACE *)
Definition seccompNotifyDisallow_trace : string :=
  "seccomp errno 22 [1,2146435072,SCMP_CMP_MASKED_EQ,2146435072]".
Definition seccompNotifyDisallow_listener : string :=
  "seccomp errno 22 [1,8,SCMP_CMP_MASKED_EQ,8]".
Definition seccompNotifyDisallow : string := unlines [
  seccompNotifyDisallow_trace;
  seccompNotifyDisallow_listener ].

Definition seccompNotifyMknod : string := unlines [
  "mknod notify [1,8192,SCMP_CMP_MASKED_EQ,61440]";
  "mknod notify [1,24576,SCMP_CMP_MASKED_EQ,61440]";
  "mknodat notify [2,8192,SCMP_CMP_MASKED_EQ,61440]";
  "mknodat notify [2,24576,SCMP_CMP_MASKED_EQ,61440]" ].

Definition seccompNotifySetxattr : string := unlines [
  "setxattr notify [3,1,SCMP_CMP_EQ]" ].

Definition seccompNotifySchedSetscheduler : string := unlines [
  "sched_setscheduler notify" ].

Definition seccompNotifySysinfo : string := unlines [ "sysinfo notify" ].

Definition seccompBlockNewMountAPI : string := unlines [
  "fsopen errno 38";
  "fsconfig errno 38";
  "fsinfo errno 38";
  "fsmount errno 38";
  "fspick errno 38";
  "open_tree errno 38";
  "move_mount errno 38";
  "openat2 errno 38" ].

Definition seccompNotifyMount : string := unlines [
  "mount notify [3,0,SCMP_CMP_MASKED_EQ,18446744070422410016]" ].

(** 5 == BPF_PROG_LOAD, 8 == BPF_PROG_ATTACH, 9 == BPF_PROG_DETACH *)
Definition seccompNotifyBpf : string := unlines [
  "bpf notify [0,5,SCMP_CMP_EQ]";
  "bpf notify [0,8,SCMP_CMP_EQ]";
  "bpf notify [0,9,SCMP_CMP_EQ]" ].

(** [fmt.Sprintf(compatBlockingPolicy, arch)]: the format has the single
    verb [%s] in its first line. *)
Definition compatBlockingPolicy (arch_name : string) : string := unlines [
  "[" +:+ arch_name +:+ "]";
  "compat_sys_rt_sigaction errno 38";
  "stub_x32_rt_sigreturn errno 38";
  "compat_sys_ioctl errno 38";
  "compat_sys_readv errno 38";
  "compat_sys_writev errno 38";
  "compat_sys_recvfrom errno 38";
  "compat_sys_sendmsg errno 38";
  "compat_sys_recvmsg errno 38";
  "stub_x32_execve errno 38";
  "compat_sys_ptrace errno 38";
  "compat_sys_rt_sigpending errno 38";
  "compat_sys_rt_sigtimedwait errno 38";
  "compat_sys_rt_sigqueueinfo errno 38";
  "compat_sys_sigaltstack errno 38";
  "compat_sys_timer_create errno 38";
  "compat_sys_mq_notify errno 38";
  "compat_sys_kexec_load errno 38";
  "compat_sys_waitid errno 38";
  "compat_sys_set_robust_list errno 38";
  "compat_sys_get_robust_list errno 38";
  "compat_sys_vmsplice errno 38";
  "compat_sys_move_pages errno 38";
  "compat_sys_preadv64 errno 38";
  "compat_sys_pwritev64 errno 38";
  "compat_sys_rt_tgsigqueueinfo errno 38";
  "compat_sys_recvmmsg errno 38";
  "compat_sys_sendmmsg errno 38";
  "compat_sys_process_vm_readv errno 38";
  "compat_sys_process_vm_writev errno 38";
  "compat_sys_setsockopt errno 38";
  "compat_sys_getsockopt errno 38";
  "compat_sys_io_setup errno 38";
  "compat_sys_io_submit errno 38";
  "stub_x32_execveat errno 38" ].

(* ------------------------------------------------------------------ *)
(** ** Capability probes *)

Definition lxcSupportSeccompNotify (s : State) : option error :=
  if negb (SeccompListener s) then
    Some (errorString "Seccomp notify not supported")
  else if negb (lxc_feature s "seccomp_notify") then
    Some (errorString "LXC doesn't support seccomp notify")
  else if negb (lxc_NewContainer_ok s) then
    Some (errorString "Failed to load seccomp notify test container")
  else match lxc_SetConfigItem_err s with
       | Some e =>
           Some (errorString ("LXC doesn't support notify proxy: " +:+ e))
       | None => None
       end.

Definition lxcSupportSeccompNotifyContinue (s : State) : option error :=
  match lxcSupportSeccompNotify s with
  | Some err => Some err
  | None =>
      if negb (SeccompListenerContinue s) then
        Some (errorString "Seccomp notify doesn't support continuing syscalls")
      else None
  end.

Definition lxcSupportSeccompNotifyAddfd (s : State) : option error :=
  match lxcSupportSeccompNotify s with
  | Some err => Some err
  | None =>
      if negb (SeccompListenerContinue s) then
        Some (errorString "Seccomp notify doesn't support continuing syscalls")
      else if negb (SeccompListenerAddfd s) then
        Some (errorString "Seccomp notify doesn't support adding file descriptors")
      else None
  end.

(** The map literal of [InstanceNeedsIntercept]. *)
Definition intercept_keys : list (string * (State -> option error)) :=
  [ ("security.syscalls.intercept.mknod", lxcSupportSeccompNotify);
    ("security.syscalls.intercept.sched_setscheduler", lxcSupportSeccompNotify);
    ("security.syscalls.intercept.setxattr", lxcSupportSeccompNotify);
    ("security.syscalls.intercept.sysinfo", lxcSupportSeccompNotify);
    ("security.syscalls.intercept.mount", lxcSupportSeccompNotifyContinue);
    ("security.syscalls.intercept.bpf", lxcSupportSeccompNotifyAddfd) ].

Section PolicyCompiler.
Context `{SharedUtil}.

(** The body of [for key, check := range keys].  Go leaves the order in
    which a map is ranged over unspecified, so the order is an argument:
    some permutation of [intercept_keys]. *)
Fixpoint intercept_range (s : State) (config : gmap string string)
    (order : list (string * (State -> option error))) (needed : bool)
    : bool * option error :=
  match order with
  | [] => (needed, None)
  | (key, check) :: rest =>
      if IsFalseOrEmpty (cfg_get config key) then
        intercept_range s config rest needed          (* continue *)
      else match check s with
           | Some err => (needed, Some err)
           | None => intercept_range s config rest true
           end
  end.

Definition InstanceNeedsIntercept
    (order : list (string * (State -> option error)))
    (s : State) (c : Instance) : bool * option error :=
  if IsPrivileged c then (false, None)           (* no need if privileged *)
  else if RunningInUserNS s then (false, None)   (* nested: host handles it *)
  else intercept_range s (ExpandedConfig c) order false.

Definition InstanceNeedsPolicy (c : Instance) : bool :=
  let config := ExpandedConfig c in
  if existsb (fun k => bool_decide (is_Some (config !! k)))
       [ "raw.seccomp"; "security.syscalls.allow"; "security.syscalls.deny";
         "security.syscalls.whitelist"; "security.syscalls.blacklist" ]
  then true
  else if existsb (fun k => IsTrue (cfg_get config k))
       [ "security.syscalls.deny_compat";
         "security.syscalls.blacklist_compat";
         "security.syscalls.intercept.mknod";
         "security.syscalls.intercept.sched_setscheduler";
         "security.syscalls.intercept.setxattr";
         "security.syscalls.intercept.sysinfo";
         "security.syscalls.intercept.mount";
         "security.syscalls.intercept.bpf" ]
  then true
  else
    let '(value, ok) := cfg_lookup config "security.syscalls.deny_default" in
    let '(value, ok) :=
      if negb ok then cfg_lookup config "security.syscalls.blacklist_default"
      else (value, ok) in
    if negb ok || IsTrue value then true else false.

(** The notify rules appended when interception is needed. *)
Definition append_intercepts (config : gmap string string) (policy : string)
    : string :=
  let policy := policy +:+ seccompNotifyDisallow in
  let policy :=
    if IsTrue (cfg_get config "security.syscalls.intercept.mknod")
    then policy +:+ seccompNotifyMknod else policy in
  let policy :=
    if IsTrue (cfg_get config "security.syscalls.intercept.sched_setscheduler")
    then policy +:+ seccompNotifySchedSetscheduler else policy in
  let policy :=
    if IsTrue (cfg_get config "security.syscalls.intercept.setxattr")
    then policy +:+ seccompNotifySetxattr else policy in
  let policy :=
    if IsTrue (cfg_get config "security.syscalls.intercept.sysinfo")
    then policy +:+ seccompNotifySysinfo else policy in
  let policy :=
    if IsTrue (cfg_get config "security.syscalls.intercept.mount")
    then (policy +:+ seccompNotifyMount) +:+ seccompBlockNewMountAPI
    else policy in
  let policy :=
    if IsTrue (cfg_get config "security.syscalls.intercept.bpf")
    then policy +:+ seccompNotifyBpf else policy in
  policy.

Definition seccompGetPolicyContent
    (order : list (string * (State -> option error)))
    (s : State) (c : Instance) : string + error :=
  let config := ExpandedConfig c in
  (* Full policy override *)
  let raw := cfg_get config "raw.seccomp" in
  if negb (str_empty raw) then inl raw else
  (* Policy header *)
  let policy := seccompHeader in
  let allowlist := cfg_get config "security.syscalls.allow" in
  let allowlist :=
    if str_empty allowlist then cfg_get config "security.syscalls.whitelist"
    else allowlist in
  let policy :=
    if negb (str_empty allowlist) then
      let policy :=
        if lxc_feature s "seccomp_allow_deny_syntax"
        then policy +:+ unlines [ "allowlist"; "[all]" ]
        else policy +:+ unlines [ "whitelist"; "[all]" ] in
      policy +:+ allowlist
    else
      let policy :=
        if lxc_feature s "seccomp_allow_deny_syntax"
        then policy +:+ unlines [ "denylist"; "[all]" ]
        else policy +:+ unlines [ "blacklist"; "[all]" ] in
      let '(defaultFlag, ok) :=
        cfg_lookup config "security.syscalls.deny_default" in
      let '(defaultFlag, ok) :=
        if negb ok then cfg_lookup config "security.syscalls.blacklist_default"
        else (defaultFlag, ok) in
      if negb ok || IsTrue defaultFlag then policy +:+ defaultSeccompPolicy
      else policy in
  (* Syscall interception *)
  match InstanceNeedsIntercept order s c with
  | (_, Some err) => inr err
  | (ok, None) =>
      let policy := if ok then append_intercepts config policy else policy in
      if negb (str_empty allowlist) then inl policy else
      (* Additional deny entries *)
      let '(compat, ok) := cfg_lookup config "security.syscalls.deny_compat" in
      let compat :=
        if negb ok then cfg_get config "security.syscalls.blacklist_compat"
        else compat in
      let with_compat : string + error :=
        if IsTrue compat then
          match ArchitectureName (Architecture c) with
          | inr err => inr err
          | inl arch_name => inl (policy +:+ compatBlockingPolicy arch_name)
          end
        else inl policy in
      match with_compat with
      | inr err => inr err
      | inl policy =>
          let '(denylist, ok) := cfg_lookup config "security.syscalls.deny" in
          let denylist :=
            if negb ok then cfg_get config "security.syscalls.blacklist"
            else denylist in
          if negb (str_empty denylist) then inl (policy +:+ denylist)
          else inl policy
      end
  end.

End PolicyCompiler.

(* ------------------------------------------------------------------ *)
(** ** Go library functions used by the emulators *)

Definition digit_of (c : ascii) : option Z :=
  let n := Z.of_N (Ascii.N_of_ascii c) in
  if (48 <=? n) && (n <=? 57) then Some (n - 48) else None.

Fixpoint parse_digits (s : string) (acc : Z) : option Z :=
  match s with
  | EmptyString => Some acc
  | String c rest =>
      match digit_of c with
      | Some d => parse_digits rest (acc * 10 + d)
      | None => None
      end
  end.

(** [strconv.ParseInt(s, 10, 64)]: an optional sign, then at least one
    decimal digit, the value within the range of [int64]; [None] is the
    error. *)
Definition ParseInt (s : string) : option Z :=
  match s with
  | EmptyString => None
  | String c rest =>
      let '(neg, body) :=
        if Ascii.eqb c "+"%char then (false, rest)
        else if Ascii.eqb c "-"%char then (true, rest)
        else (false, s) in
      if str_empty body then None
      else match parse_digits body 0 with
           | None => None
           | Some un =>
               if neg then (if un <=? 2 ^ 63 then Some (- un) else None)
               else (if un <? 2 ^ 63 then Some un else None)
           end
  end.

(** [strconv.Atoi] on a platform whose [int] has 64 bits. *)
Definition Atoi (s : string) : option Z := ParseInt s.

(** [fmt.Sprintf("%d", x)]. *)
Definition fmt_d (x : Z) : string := pretty x.

(** [fmt.Sprintf("%#o", x)] for an unsigned [x]. *)
Definition fmt_alt_o (x : Z) : string :=
  match x with
  | Zpos p => "0" +:+ OctalString.Raw.of_pos p EmptyString
  | _ => "0"
  end.

Definition NUL : ascii := Ascii.zero.

(** A zero-initialised buffer of [n] bytes. *)
Fixpoint zeros (n : nat) : string :=
  match n with
  | O => EmptyString
  | S m => String NUL (zeros m)
  end.

Fixpoint str_drop (n : nat) (s : string) : string :=
  match n, s with
  | O, _ => s
  | S m, EmptyString => EmptyString
  | S m, String _ rest => str_drop m rest
  end.

Fixpoint str_take (n : nat) (s : string) : string :=
  match n, s with
  | O, _ => EmptyString
  | S m, EmptyString => EmptyString
  | S m, String c rest => String c (str_take m rest)
  end.

(** [C.GoString(&buf[0])]: the bytes before the first NUL. *)
Fixpoint GoString (buf : string) : string :=
  match buf with
  | EmptyString => EmptyString
  | String c rest =>
      if Ascii.eqb c NUL then EmptyString else String c (GoString rest)
  end.

Definition PathMax : nat := 4096.

(* ------------------------------------------------------------------ *)
(** ** The outside world *)

(** The members of [union bpf_attr] that [handle_bpf_syscall] reads, as
    decoded from the bytes read from the target. *)
Record bpf_attr := {
  prog_type : Z;
  insn_cnt : Z;
  insns : Z;
  license : Z;
  log_size : Z;
  log_buf : Z;
  attach_type : Z;
  target_fd : Z;
  attach_bpf_fd : Z
}.

(** What the cgroup tree and /proc report to [HandleSysinfoSyscall]; a
    [None] is a failed read. *)
Record SysinfoProbe := {
  host_Sysinfo_ok : bool;
  cgroup_NewFileReadWriter_ok : bool;
  init_stat_fields : option (list string);
  GetProcessesUsage : option Z;
  GetMemoryStats : option (list (string * Z));
  GetEffectiveMemoryLimit : option Z;
  GetMemoryUsage : option Z;
  Supports_MemorySwapUsage : bool;
  GetMemorySwapLimit : option Z;
  GetMemorySwapUsage : option Z;
  uptime_seconds : Z
}.

(** A system call returns a value or fails with an errno. *)
Definition sysret := (Z + Z)%type.

(** Answers of the kernel, of /proc and of the forked helper.  [TaskIDs]
    and [FindTGID] stand for the reading and parsing of
    /proc/<pid>/status ([None] is their error); [pread] yields the bytes
    read (no more than asked for), [None] when the call reports an
    errno; [RunCommandSplit] takes the arguments after the executable
    path and yields [None] when the child exits with status zero and its
    error stream otherwise.  The last group are the system calls of
    [handle_bpf_syscall]. *)
Record World := {
  TaskIDs : Z -> option (Z * Z * Z * Z);
  PidFdOpen_ok : Z -> bool;
  pread : Z -> nat -> Z -> option string;
  pwrite_ok : Z -> Z -> bool;
  RunCommandSplit : list string -> option string;
  PidfdSendSignal_ok : Z -> bool;
  PathExists : string -> bool;
  FindTGID : Z -> option Z;
  sysinfo_probe : SysinfoProbe;
  (* handle_bpf_syscall *)
  sizeof_bpf_attr : Z;
  pread_bpf_attr : Z -> Z -> Z -> bpf_attr + Z;
  incus_pidfd_open : Z -> Z -> sysret;
  ioctl_NOTIF_ID_VALID : Z -> Z -> option Z;
  malloc_ok : Z -> bool;
  pread_insns : Z -> Z -> Z -> sysret;
  pread_license : Z -> Z -> option Z;
  bpf_PROG_LOAD : bpf_attr -> sysret;
  ioctl_NOTIF_ADDFD : Z -> Z -> Z -> sysret;
  pidfd_getfd : Z -> Z -> sysret;
  filetable_shared : Z -> Z -> bool;
  process_still_alive : Z -> bool;
  bpf_ATTACH_DETACH : Z -> bpf_attr -> Z -> Z
}.

(** The architecture-independent metrics gathered for an instance. *)
Record Sysinfo := {
  Uptime : Z;
  Totalram : Z;
  Freeram : Z;
  Sharedram : Z;
  Bufferram : Z;
  Totalswap : Z;
  Freeswap : Z;
  Procs : Z;
  Unit : Z
}.

(** What an emulator does to the outside. *)
Inductive Effect :=
| Forksyscall (argv : list string)
| InsertUnixDevice (prefix : string) (dev : gmap string string) (pid : Z)
| PwriteSysinfo (fd : Z) (layout32 : bool) (metrics : Sysinfo) (off : Z)
| Sendmsg (fd : Z) (iov : option (seccomp_notify_proxy_msg * seccomp_notif *
                                    seccomp_notif_resp))
| CloseFd (fd : Z).

(** The value an emulator returns, the response structure as it leaves
    it, and what it did. *)
Record Reply := {
  errno : Z;
  resp_out : seccomp_notif_resp;
  effects : list Effect
}.

(** An emulator returns, or the Go runtime panics. *)
Inductive Outcome :=
| Returned (r : Reply)
| Panicked.

(* ------------------------------------------------------------------ *)
(** ** Frames *)

Record Iovec := {
  ucred_pid : Z;
  memFd : Z;
  procFd : Z;
  notifyFd : Z;
  msg : seccomp_notify_proxy_msg;
  req : seccomp_notif;
  resp : seccomp_notif_resp;
  cookie : string
}.

(** Sizes of the three fixed parts of a frame (LP64). *)
Definition SECCOMP_PROXY_MSG_SIZE : Z := 32.
Definition SECCOMP_NOTIFY_SIZE : Z := 80.
Definition SECCOMP_RESPONSE_SIZE : Z := 24.
Definition SECCOMP_MSG_SIZE_MIN : Z :=
  SECCOMP_PROXY_MSG_SIZE + SECCOMP_NOTIFY_SIZE + SECCOMP_RESPONSE_SIZE.

Definition NewSeccompIovec (ucred : Z) : Iovec :=
  {| ucred_pid := ucred; memFd := -1; procFd := -1; notifyFd := -1;
     msg := {| __reserved := 0; monitor_pid := 0; init_pid := 0;
               sizes := {| seccomp_notif_sz := 0; seccomp_notif_resp_sz := 0;
                           seccomp_data_sz := 0 |};
               cookie_len := 0 |};
     req := {| req_id := 0; req_pid := 0; req_flags := 0;
               data := {| nr := 0; data_arch := 0; instruction_pointer := 0;
                          args := [0; 0; 0; 0; 0; 0] |} |};
     resp := resp_zero;
     cookie := zeros 64 |}.

(** One [recvmsg] on the connection: an error, or the number of bytes
    received with the three descriptors and the content the four iovecs
    then hold. *)
Inductive Received :=
| RecvError
| RecvData (bytes : Z) (fds : Z * Z * Z) (m : seccomp_notify_proxy_msg)
           (rq : seccomp_notif) (rs : seccomp_notif_resp) (ck : string).

Definition ReceiveSeccompIovec (siov : Iovec) (r : Received) : option (Z * Iovec) :=
  match r with
  | RecvError => None
  | RecvData bytes (fd0, fd1, fd2) m rq rs ck =>
      Some (bytes,
            {| ucred_pid := ucred_pid siov;
               procFd := fd0; memFd := fd1; notifyFd := fd2;
               msg := m; req := rq; resp := rs; cookie := ck |})
  end.

(** [expected] is the global [expected_sizes], filled in by
    [seccomp_notify_get_sizes] when the server starts. *)
Definition IsValidSeccompIovec (expected : seccomp_notif_sizes)
    (siov : Iovec) (size : Z) : bool :=
  if size <? SECCOMP_MSG_SIZE_MIN then false
  else if negb (__reserved (msg siov) =? 0) then false
  else if negb (seccomp_notif_sz (sizes (msg siov)) =? seccomp_notif_sz expected)
       then false
  else if negb (seccomp_notif_resp_sz (sizes (msg siov))
                =? seccomp_notif_resp_sz expected) then false
  else if negb (seccomp_data_sz (sizes (msg siov)) =? seccomp_data_sz expected)
       then false
  else true.

Definition PutSeccompIovec (siov : Iovec) : list Effect :=
  (if 0 <=? memFd siov then [CloseFd (memFd siov)] else []) ++
  (if 0 <=? procFd siov then [CloseFd (procFd siov)] else []) ++
  (if 0 <=? notifyFd siov then [CloseFd (notifyFd siov)] else []).


(** [SendSeccompIovec]: the response is updated and the first three
    iovecs are sent. *)
Definition SendSeccompIovec (fd : Z) (siov : Iovec) (resp : seccomp_notif_resp)
    (errno flags : Z) : seccomp_notif_resp * list Effect :=
  let resp := seccomp_notify_update_response resp errno flags in
  (resp, [Sendmsg fd (Some (msg siov, req siov, resp))]).

(** What the receive loop of a connection does with one frame. *)
Inductive Action :=
| GoHandleValid (siov : Iovec)
| GoHandleInvalid (siov : Iovec)
| CloseConnection.

(** The per-connection loop of [NewSeccompServer], run on the sequence of
    results of its [recvmsg] calls.  A failed receive closes the
    connection and ends the loop; a frame is handed to a goroutine and the
    loop goes on to the next receive. *)
Fixpoint receive_loop (expected : seccomp_notif_sizes) (ucred : Z)
    (incoming : list Received) : list Action :=
  match incoming with
  | [] => []
  | r :: rest =>
      let siov := NewSeccompIovec ucred in
      match ReceiveSeccompIovec siov r with
      | None => [CloseConnection]
      | Some (bytes, siov) =>
          (if IsValidSeccompIovec expected siov bytes
           then GoHandleValid siov else GoHandleInvalid siov)
          :: receive_loop expected ucred rest
      end
  end.

(* ------------------------------------------------------------------ *)
(** ** Emulators: common parts *)

(** The descriptor number handed to the helper: 3 when a pidfd could be
    opened, -1 otherwise. *)
Definition MakePidFd (w : World) (s : State) (pid : Z) : Z :=
  if PidFds s then
    if PidFdOpen_ok w pid then 3 else -1
  else -1.

(** [seccomp_notify_update_response(siov.resp, 0, CONTINUE); return 0]. *)
Definition continue_reply (siov : Iovec) : Reply :=
  {| errno := 0;
     resp_out := seccomp_notify_update_response (resp siov) 0
                   seccompUserNotifFlagContinue;
     effects := [] |}.

Definition return_errno (siov : Iovec) (e : Z) : Reply :=
  {| errno := e; resp_out := resp siov; effects := [] |}.

(** The block that recurs in the emulators: continue the system call when
    the listener supports it, fail with [e] otherwise. *)
Definition refuse (s : State) (siov : Iovec) (e : Z) : Reply :=
  if SeccompListenerContinue s then continue_reply siov
  else return_errno siov e.

(** A [pread] of at most [count] bytes into a buffer: the bytes read
    replace the front of the buffer. *)
Definition pread_into (w : World) (fd : Z) (buf : string) (count : nat) (off : Z)
    : option string :=
  match pread w fd count off with
  | None => None
  | Some bytes =>
      let bytes := str_take count bytes in
      Some (bytes +:+ str_drop (String.length bytes) buf)
  end.

(** The return value after a failed helper: the errno it printed, or
    [-EPERM] when that is unreadable or [ENOANO]. *)
Definition forksyscall_errno (stderr : string) : Z :=
  match Atoi stderr with
  | None => - EPERM
  | Some e => if e =? ENOANO then - EPERM else to_i64 (- e)
  end.

(* ------------------------------------------------------------------ *)
(** ** mknod and mknodat *)

(** The arguments of the helper after the executable path. *)
Definition forkmknod_argv (dev : gmap string string)
    (pidFdNr uid gid fsuid fsgid : Z) : list string :=
  [ "forksyscall"; "mknod"; cfg_get dev "pid"; fmt_d pidFdNr;
    cfg_get dev "path"; cfg_get dev "mode_t"; cfg_get dev "dev_t";
    fmt_d uid; fmt_d gid; fmt_d fsuid; fmt_d fsgid ].

Definition CallForkmknod (w : World) (s : State) (c : Instance)
    (dev : gmap string string) (requestPID : Z) : Z * list Effect :=
  match TaskIDs w requestPID with
  | None => (- EPERM, [])
  | Some (uid, gid, fsuid, fsgid) =>
      let pidFdNr := MakePidFd w s requestPID in
      let argv := forkmknod_argv dev pidFdNr uid gid fsuid fsgid in
      match RunCommandSplit w argv with
      | Some stderr => (forksyscall_errno stderr, [Forksyscall argv])
      | None => (0, [Forksyscall argv])
      end
  end.

Record MknodArgs := {
  cMode : Z;    (* C.mode_t *)
  cDev : Z;     (* C.dev_t *)
  cPid : Z;     (* C.pid_t *)
  mknod_path : string
}.

Definition mknod_device (a : MknodArgs) : gmap string string :=
  <["dev_t" := fmt_d (cDev a)]>
  (<["mode_t" := fmt_d (cMode a)]>
  (<["path" := mknod_path a]>
  (<["pid" := fmt_d (cPid a)]>
  (<["minor" := fmt_d (unix_Minor (cDev a))]>
  (<["major" := fmt_d (unix_Major (cDev a))]>
  (<["mode" := fmt_alt_o (cMode a)]>
  (<["type" := "unix-char"]> ∅))))))).

Definition doDeviceSyscall (w : World) (s : State) (c : Instance)
    (a : MknodArgs) (siov : Iovec) : Reply :=
  let dev := mknod_device a in
  let '(e, eff) := CallForkmknod w s c dev (cPid a) in
  if negb (e =? - ENOMEDIUM) then
    {| errno := e; resp_out := resp siov; effects := eff |}
  else
    let prefix := "forkmknod.unix." +:+ fmt_d (cPid a) in
    let eff := (eff ++ [InsertUnixDevice prefix dev (cPid a)])%list in
    match InsertSeccompUnixDevice c prefix dev (cPid a) with
    | Some _ => {| errno := - EPERM; resp_out := resp siov; effects := eff |}
    | None => {| errno := 0; resp_out := resp siov; effects := eff |}
    end.

Definition HandleMknodSyscall (w : World) (s : State) (c : Instance)
    (siov : Iovec) : Reply :=
  let rq := req siov in
  if device_allowed (to_u64 (arg rq 2)) (to_u32 (arg rq 1)) <? 0 then
    if SeccompListenerContinue s then continue_reply siov
    else return_errno siov (resp_error (resp siov))
  else
    match pread_into w (memFd siov) (zeros PathMax) PathMax (to_i64 (arg rq 0)) with
    | None => refuse s siov (- EPERM)
    | Some cPathBuf =>
        let a := {| cMode := to_u32 (arg rq 1);
                    cDev := to_u64 (arg rq 2);
                    cPid := to_i32 (req_pid rq);
                    mknod_path := GoString cPathBuf |} in
        doDeviceSyscall w s c a siov
    end.

(** [siov.resp.error = ...]. *)
Definition set_resp_error (siov : Iovec) (e : Z) : Iovec :=
  {| ucred_pid := ucred_pid siov; memFd := memFd siov; procFd := procFd siov;
     notifyFd := notifyFd siov; msg := msg siov; req := req siov;
     resp := {| resp_id := resp_id (resp siov); resp_val := resp_val (resp siov);
                resp_error := e; resp_flags := resp_flags (resp siov) |};
     cookie := cookie siov |}.

Definition HandleMknodatSyscall (w : World) (s : State) (c : Instance)
    (siov : Iovec) : Reply :=
  let rq := req siov in
  (* Make sure to handle 64bit kernel, 32bit container/userspace, 64bit daemon. *)
  if negb (to_i32 (arg rq 0) =? to_i32 AT_FDCWD) then
    refuse s siov (- EINVAL)
  else
    let siov := set_resp_error siov
                  (device_allowed (to_u64 (arg rq 3)) (to_u32 (arg rq 2))) in
    if negb (resp_error (resp siov) =? 0) then
      if SeccompListenerContinue s then continue_reply siov
      else return_errno siov (resp_error (resp siov))
    else
      match pread_into w (memFd siov) (zeros PathMax) PathMax (to_i64 (arg rq 1)) with
      | None => refuse s siov (- EPERM)
      | Some cPathBuf =>
          let a := {| cMode := to_u32 (arg rq 2);
                      cDev := to_u64 (arg rq 3);
                      cPid := to_i32 (req_pid rq);
                      mknod_path := GoString cPathBuf |} in
          doDeviceSyscall w s c a siov
      end.

(* ------------------------------------------------------------------ *)
(** ** setxattr *)

Record SetxattrArgs := {
  sx_nsuid : Z;
  sx_nsgid : Z;
  sx_nsfsuid : Z;
  sx_nsfsgid : Z;
  sx_size : Z;
  sx_pid : Z;
  sx_path : string;
  sx_name : string;
  sx_value : string;
  sx_flags : Z
}.

(** The largest length [make] accepts on a 64-bit platform. *)
Definition maxAlloc : Z := 2 ^ 48.

(** The first part of [HandleSetxattrSyscall], up to [args.value = buf]:
    either the emulator is already done, or the arguments are read.
    [make([]byte, size)] panics for a negative or oversized length and
    [&buf[0]] for length zero. *)
Definition setxattr_read_args (w : World) (s : State) (c : Instance)
    (siov : Iovec) : Outcome + (Z * SetxattrArgs) :=
  let rq := req siov in
  let pid := req_pid rq in
  let pidFdNr := MakePidFd w s pid in
  match TaskIDs w pid with
  | None => inl (Returned (refuse s siov (- EPERM)))
  | Some (uid, gid, fsuid, fsgid) =>
  match CurrentIdmap c with
  | None => inl (Returned (refuse s siov (- EINVAL)))
  | Some idmapset =>
  let '(nsuid, nsgid) := ShiftFromNS idmapset uid gid in
  let '(nsfsuid, nsfsgid) := ShiftFromNS idmapset fsuid fsgid in
  (* const char *path *)
  match pread_into w (memFd siov) (zeros PathMax) PathMax (to_i64 (arg rq 0)) with
  | None => inl (Returned (refuse s siov (- EPERM)))
  | Some cBuf =>
  let path := GoString cBuf in
  (* const char *name *)
  match pread_into w (memFd siov) cBuf PathMax (to_i64 (arg rq 1)) with
  | None => inl (Returned (refuse s siov (- EPERM)))
  | Some cBuf =>
  let name := GoString cBuf in
  (* size_t size *)
  let size := to_i64 (arg rq 3) in
  (* int flags *)
  let flags := to_i32 (arg rq 4) in
  if (size <=? 0) || (maxAlloc <? size) then inl Panicked else
  match pread_into w (memFd siov) (zeros (Z.to_nat size)) (Z.to_nat size)
          (to_i64 (arg rq 2)) with
  | None => inl (Returned (refuse s siov (- EPERM)))
  | Some buf =>
      inr (pidFdNr,
           {| sx_nsuid := nsuid; sx_nsgid := nsgid; sx_nsfsuid := nsfsuid;
              sx_nsfsgid := nsfsgid; sx_size := size; sx_pid := pid;
              sx_path := path; sx_name := name; sx_value := buf;
              sx_flags := flags |})
  end end end end end.

Definition setxattr_argv (pidFdNr : Z) (a : SetxattrArgs) (whiteout : Z)
    : list string :=
  [ "forksyscall"; "setxattr"; fmt_d (sx_pid a); fmt_d pidFdNr;
    fmt_d (sx_nsuid a); fmt_d (sx_nsgid a); fmt_d (sx_nsfsuid a);
    fmt_d (sx_nsfsgid a); sx_name a; sx_path a; fmt_d (sx_flags a);
    fmt_d whiteout; fmt_d (sx_size a); sx_value a ].

(** The call of the helper that ends [HandleSetxattrSyscall]. *)
Definition setxattr_forksyscall (w : World) (siov : Iovec)
    (pidFdNr : Z) (a : SetxattrArgs) (whiteout : Z) : Reply :=
  let argv := setxattr_argv pidFdNr a whiteout in
  match RunCommandSplit w argv with
  | Some stderr =>
      {| errno := forksyscall_errno stderr; resp_out := resp siov;
         effects := [Forksyscall argv] |}
  | None =>
      {| errno := 0; resp_out := resp siov; effects := [Forksyscall argv] |}
  end.

(** The second part: the whiteout test and the call of the helper. *)
Definition setxattr_emulate (w : World) (s : State) (siov : Iovec)
    (pidFdNr : Z) (a : SetxattrArgs) : Reply :=
  if String.eqb (sx_name a) "trusted.overlay.opaque"
     && String.eqb (sx_value a) "y"
  then setxattr_forksyscall w siov pidFdNr a 1
  else if SeccompListenerContinue s then continue_reply siov
  else setxattr_forksyscall w siov pidFdNr a 0.

Definition HandleSetxattrSyscall (w : World) (s : State) (c : Instance)
    (siov : Iovec) : Outcome :=
  match setxattr_read_args w s c siov with
  | inl done => done
  | inr (pidFdNr, a) => Returned (setxattr_emulate w s siov pidFdNr a)
  end.

(* ------------------------------------------------------------------ *)
(** ** sched_setscheduler *)

Record SchedSetschedulerArgs := {
  switchPidns : Z;
  pidCaller : Z;
  pidTarget : Z;
  policy : Z;          (* C.int *)
  schedPriority : Z;   (* C.int *)
  ss_nsuid : Z;
  ss_nsgid : Z
}.

(** A little-endian [int] of four bytes. *)
Fixpoint le_unsigned (bytes : string) : Z :=
  match bytes with
  | EmptyString => 0
  | String b rest => Z.of_N (Ascii.N_of_ascii b) + 256 * le_unsigned rest
  end.

Definition INCUS_SCHED_PARAM_SIZE : nat := 4.

Definition sched_setscheduler_argv (pidFdNr : Z) (a : SchedSetschedulerArgs)
    : list string :=
  [ "forksyscall"; "sched_setscheduler"; fmt_d (pidCaller a); fmt_d pidFdNr;
    fmt_d (switchPidns a); fmt_d (pidTarget a); fmt_d (policy a);
    fmt_d (schedPriority a) ].

Definition HandleSchedSetschedulerSyscall (w : World) (s : State) (c : Instance)
    (siov : Iovec) : Reply :=
  let rq := req siov in
  (* args := SchedSetschedulerArgs{}: every field starts at zero *)
  let args_policy := 0 in
  let args_pidCaller := req_pid rq in
  let pidFdNr := MakePidFd w s args_pidCaller in
  match TaskIDs w args_pidCaller with
  | None => refuse s siov (- EPERM)
  | Some (uid, gid, _, _) =>
  match CurrentIdmap c with
  | None => refuse s siov (- EINVAL)
  | Some idmapset =>
  (* Only care about userns root for now. *)
  let '(nsuid, nsgid) := ShiftFromNS idmapset uid gid in
  if negb (nsuid =? 0) || negb (nsgid =? 0) then refuse s siov (- EINVAL) else
  let args_pidTarget := to_i64 (arg rq 0) in
  if args_pidTarget <? 0 then refuse s siov (- EINVAL) else
  let '(args_pidTarget, args_switchPidns) :=
    if args_pidTarget =? 0 then (args_pidCaller, 0) else (args_pidTarget, 1) in
  (* error out if policy < 0 *)
  if args_policy <? 0 then refuse s siov (- EINVAL) else
  (* int policy *)
  let args_policy := to_i32 (arg rq 1) in
  match pread_into w (memFd siov) (zeros INCUS_SCHED_PARAM_SIZE)
          INCUS_SCHED_PARAM_SIZE (to_i64 (arg rq 2)) with
  | None => refuse s siov (- EPERM)
  | Some schedParamArgs =>
      let a := {| switchPidns := args_switchPidns; pidCaller := args_pidCaller;
                  pidTarget := args_pidTarget; policy := args_policy;
                  schedPriority := to_i32 (le_unsigned schedParamArgs);
                  ss_nsuid := nsuid; ss_nsgid := nsgid |} in
      let argv := sched_setscheduler_argv pidFdNr a in
      match RunCommandSplit w argv with
      | Some stderr =>
          {| errno := forksyscall_errno stderr; resp_out := resp siov;
             effects := [Forksyscall argv] |}
      | None =>
          {| errno := 0; resp_out := resp siov; effects := [Forksyscall argv] |}
      end
  end end end.

(* ------------------------------------------------------------------ *)
(** ** sysinfo *)

Definition ARCH_64BIT_INTEL_X86 : Z := 2.

(** The last value a key has in the ranged-over statistics, if any. *)
Definition mem_stat (stats : list (string * Z)) (k : string) (dflt : Z) : Z :=
  foldl (fun acc kv => if String.eqb (fst kv) k then snd kv else acc) dflt stats.

(** Every failed step continues the system call, whatever the listener
    supports; success answers 0 without the continue flag.  [fields[21]]
    panics on a shorter list.  The bytes written are the native layout
    of the metrics, which is computed outside this file; the effect
    records which layout is written and where. *)
Definition HandleSysinfoSyscall (w : World) (s : State) (c : Instance)
    (siov : Iovec) : Outcome :=
  let p := sysinfo_probe w in
  let rq := req siov in
  let compat32 :=
    (Architecture c =? ARCH_64BIT_INTEL_X86)
    && (data_arch (data rq) =? AUDIT_ARCH_I386) in
  if negb (host_Sysinfo_ok p) then Returned (continue_reply siov) else
  let unit := if compat32 then 4096 else 1 in
  if negb (cgroup_NewFileReadWriter_ok p) then Returned (continue_reply siov) else
  match init_stat_fields p with
  | None => Returned (continue_reply siov)
  | Some fields =>
  match fields !! 21%nat with
  | None => Panicked
  | Some field21 =>
  match ParseInt field21 with
  | None => Returned (continue_reply siov)
  | Some tickValue =>
  let age := Z.quot tickValue 100 in
  let uptime := if 0 <? age then uptime_seconds p - age else 0 in
  match GetProcessesUsage p with
  | None => Returned (continue_reply siov)
  | Some pids =>
  match GetMemoryStats p with
  | None => Returned (continue_reply siov)
  | Some memStats =>
  let sharedram := mem_stat memStats "shmem" 0 in
  let bufferram := mem_stat memStats "cache" 0 in
  match GetEffectiveMemoryLimit p with
  | None => Returned (continue_reply siov)
  | Some memoryLimit =>
  match GetMemoryUsage p with
  | None => Returned (continue_reply siov)
  | Some memoryUsage =>
  let totalram := to_u64 memoryLimit in
  let freeram := to_u64 (totalram - to_u64 memoryUsage - bufferram) in
  let swap : option (Z * Z) :=
    if Supports_MemorySwapUsage p then
      match GetMemorySwapLimit p with
      | None => None
      | Some swapLimit =>
          match GetMemorySwapUsage p with
          | None => None
          | Some swapUsage =>
              Some (to_u64 swapLimit, to_u64 (to_u64 swapLimit - to_u64 swapUsage))
          end
      end
    else Some (0, 0) in
  match swap with
  | None => Returned (continue_reply siov)
  | Some (totalswap, freeswap) =>
  let instMetrics :=
    {| Uptime := uptime; Totalram := totalram; Freeram := freeram;
       Sharedram := sharedram; Bufferram := bufferram;
       Totalswap := totalswap; Freeswap := freeswap;
       Procs := to_u16 pids; Unit := unit |} in
  let written :=
    [PwriteSysinfo (memFd siov) compat32 instMetrics (to_i64 (arg rq 0))] in
  if negb (pwrite_ok w (memFd siov) (to_i64 (arg rq 0)))
  then Returned {| errno := 0; resp_out := resp_out (continue_reply siov);
                   effects := written |}
  else Returned {| errno := 0; resp_out := resp siov; effects := written |}
  end end end end end end end end.

(* ------------------------------------------------------------------ *)
(** ** mount *)

(** [strings.Split(s, sep)] for a separator of one byte. *)
Fixpoint split_on (sep : ascii) (s : string) : list string :=
  match s with
  | EmptyString => [EmptyString]
  | String ch rest =>
      if Ascii.eqb ch sep then EmptyString :: split_on sep rest
      else match split_on sep rest with
           | [] => [String ch EmptyString]
           | hd :: tl => String ch hd :: tl
           end
  end.

Definition MS_RDONLY : Z := 1.
Definition MS_NOSUID : Z := 2.
Definition MS_NODEV : Z := 4.
Definition MS_NOEXEC : Z := 8.
Definition MS_SYNCHRONOUS : Z := 16.
Definition MS_REMOUNT : Z := 32.
Definition MS_MANDLOCK : Z := 64.
Definition MS_NOATIME : Z := 1024.
Definition MS_NODIRATIME : Z := 2048.
Definition MS_BIND : Z := 4096.
Definition MS_REC : Z := 16384.
Definition MS_STRICTATIME : Z := 16777216.
Definition MS_LAZYTIME : Z := 33554432.

Definition StorageTypeNone : string := "none".

Record MountArgs := {
  source : string;
  target : string;
  fstype : string;
  mnt_flags : Z;
  mnt_data : string;
  mnt_pid : Z;
  idmapType : string;
  uid : Z;
  gid : Z;
  fsuid : Z;
  fsgid : Z;
  nsuid : Z;
  nsgid : Z;
  nsfsuid : Z;
  nsfsgid : Z
}.

Definition mountFlagsToOptMap : gmap Z string :=
  list_to_map
    [ (MS_BIND, "bind"); (0, "defaults"); (MS_LAZYTIME, "lazytime");
      (MS_MANDLOCK, "mand"); (MS_NOATIME, "noatime"); (MS_NODEV, "nodev");
      (MS_NODIRATIME, "nodiratime"); (MS_NOEXEC, "noexec");
      (MS_NOSUID, "nosuid"); (MS_REMOUNT, "remount"); (MS_RDONLY, "ro");
      (MS_STRICTATIME, "strictatime"); (MS_SYNCHRONOUS, "sync");
      (Z.lor MS_REC MS_BIND, "rbind") ].

Definition mountFlagsToOpts (flags : Z) : string :=
  let msRec := Z.land flags MS_REC in
  let flags := Z.ldiff flags MS_REC in
  foldl
    (fun opts currentBit =>
       let flag := Z.shiftl 1 currentBit in
       if Z.land flags flag =? 0 then opts
       else
         let flag := if (flag =? MS_BIND) && (msRec =? MS_REC)
                     then Z.lor flag msRec else flag in
         let optOrArg := default EmptyString (mountFlagsToOptMap !! flag) in
         if str_empty optOrArg then opts
         else if str_empty opts then optOrArg
         else opts +:+ "," +:+ optOrArg)
    EmptyString (seqZ 0 31).

(** The loop over the options of [mountHandleHugetlbfsArgs]: the
    rewritten options with the last uid and gid seen, or [None] when the
    loop leaves the function with [return nil]. *)
Fixpoint hugetlbfs_opts (idmapset : IdmapSet) (optStrings : list string)
    (uidOpt gidOpt : Z) : option (list string * Z * Z) :=
  match optStrings with
  | [] => Some ([], uidOpt, gidOpt)
  | optString :: rest =>
      if String.prefix "uid=" optString then
        match split_on "="%char optString with
        | _ :: field1 :: _ =>
            match ParseInt field1 with
            | None => None
            | Some n =>
                let uidOpt := fst (ShiftIntoNS idmapset n 0) in
                if uidOpt <? 0 then None
                else match hugetlbfs_opts idmapset rest uidOpt gidOpt with
                     | None => None
                     | Some (l, u, g) => Some (("uid=" +:+ fmt_d uidOpt) :: l, u, g)
                     end
            end
        | _ =>
            match hugetlbfs_opts idmapset rest uidOpt gidOpt with
            | None => None
            | Some (l, u, g) => Some (optString :: l, u, g)
            end
        end
      else if String.prefix "gid=" optString then
        match split_on "="%char optString with
        | _ :: field1 :: _ =>
            match ParseInt field1 with
            | None => None
            | Some n =>
                let gidOpt := fst (ShiftIntoNS idmapset n 0) in
                if gidOpt <? 0 then None
                else match hugetlbfs_opts idmapset rest uidOpt gidOpt with
                     | None => None
                     | Some (l, u, g) => Some (("gid=" +:+ fmt_d gidOpt) :: l, u, g)
                     end
            end
        | _ =>
            match hugetlbfs_opts idmapset rest uidOpt gidOpt with
            | None => None
            | Some (l, u, g) => Some (optString :: l, u, g)
            end
        end
      else
        match hugetlbfs_opts idmapset rest uidOpt gidOpt with
        | None => None
        | Some (l, u, g) => Some (optString :: l, u, g)
        end
  end.

Definition with_data (a : MountArgs) (d : string) (ty : string) : MountArgs :=
  {| source := source a; target := target a; fstype := fstype a;
     mnt_flags := mnt_flags a; mnt_data := d; mnt_pid := mnt_pid a;
     idmapType := ty; uid := uid a; gid := gid a; fsuid := fsuid a;
     fsgid := fsgid a; nsuid := nsuid a; nsgid := nsgid a;
     nsfsuid := nsfsuid a; nsfsgid := nsfsgid a |}.

(** The arguments as the function leaves them, or the error. *)
Definition mountHandleHugetlbfsArgs (c : Instance) (a : MountArgs)
    (nsuid nsgid : Z) : MountArgs + error :=
  if negb (String.eqb (fstype a) "hugetlbfs") then inl a
  else if str_empty (mnt_data a) then
    inl (with_data a ("uid=" +:+ fmt_d nsuid +:+ ",gid=" +:+ fmt_d nsgid)
                   (idmapType a))
  else
    match CurrentIdmap c with
    | None => inr (errorString "CurrentIdmap")
    | Some idmapset =>
        match hugetlbfs_opts idmapset (split_on ","%char (mnt_data a)) (-1) (-1) with
        | None => inl a
        | Some (optStrings, uidOpt, gidOpt) =>
            let optStrings :=
              if uidOpt =? -1 then (optStrings ++ ["uid=" +:+ fmt_d nsuid])%list
              else optStrings in
            let optStrings :=
              if gidOpt =? -1 then (optStrings ++ ["gid=" +:+ fmt_d nsgid])%list
              else optStrings in
            inl (with_data a (String.concat "," optStrings) StorageTypeNone)
        end
    end.

Section Mount.
Context `{SharedUtil}.

Fixpoint fuse_entries (ents : list string) (fsMap : gmap string string)
    : gmap string string + error :=
  match ents with
  | [] => inl fsMap
  | ent :: rest =>
      match split_on "="%char ent with
      | [fs; bin] => fuse_entries rest (<[fs := bin]> fsMap)
      | _ => inr (errorString
                    ("security.syscalls.intercept.mount.fuse is not of the form 'filesystem=fuse-binary': " +:+ ent))
      end
  end.

Fixpoint allowed_entries (ents : list string) (fsMap : gmap string string)
    : gmap string string + error :=
  match ents with
  | [] => inl fsMap
  | allowedfs :: rest =>
      if negb (str_empty (cfg_get fsMap allowedfs)) then
        inr (errorString
               ("Filesystem " +:+ allowedfs +:+
                " cannot appear in security.syscalls.intercept.mount.allowed and security.syscalls.intercept.mount.fuse"))
      else allowed_entries rest (<[allowedfs := EmptyString]> fsMap)
  end.

Definition SyscallInterceptMountFilter (config : gmap string string)
    : gmap string string + error :=
  if IsFalseOrEmpty (cfg_get config "security.syscalls.intercept.mount")
  then inl ∅
  else
    let fsFused :=
      split_on ","%char (cfg_get config "security.syscalls.intercept.mount.fuse") in
    let fused :=
      match fsFused with
      | first :: _ =>
          if negb (str_empty first) then fuse_entries fsFused ∅ else inl ∅
      | [] => inl ∅
      end in
    match fused with
    | inr err => inr err
    | inl fsMap =>
        let fsAllowed :=
          split_on ","%char
            (cfg_get config "security.syscalls.intercept.mount.allowed") in
        match fsAllowed with
        | first :: _ =>
            if negb (str_empty first) then allowed_entries fsAllowed fsMap
            else inl fsMap
        | [] => inl fsMap
        end
    end.

Definition MountSyscallValid (c : Instance) (a : MountArgs) : bool * string :=
  match SyscallInterceptMountFilter (ExpandedConfig c) with
  | inr _ => (false, EmptyString)
  | inl fsMap =>
      match fsMap !! fstype a with
      | Some fuse => (true, fuse)
      | None => (false, EmptyString)
      end
  end.

Definition MountSyscallShift (c : Instance) (path fsType : string) : string :=
  if IsTrue (cfg_get (ExpandedConfig c) "security.syscalls.intercept.mount.shift")
  then match DiskIdmap c with
       | None => StorageTypeNone
       | Some None => IdmappedStorage c path fsType
       | Some (Some _) => StorageTypeNone
       end
  else StorageTypeNone.

(** A string argument of [mount]: read only when the pointer tested by
    [guard] is not null. *)
Definition mount_read (w : World) (siov : Iovec) (guard ptr : Z)
    : option string :=
  if negb (guard =? 0) then
    match pread_into w (memFd siov) (zeros PathMax) PathMax (to_i64 ptr) with
    | None => None
    | Some buf => Some (GoString buf)
    end
  else Some (GoString (zeros PathMax)).

(** Every refusal continues the system call, without consulting
    [SeccompListenerContinue].  The third string is read from [args[2]]
    under the test of [args[1]], as the source has it.  The liveness
    signal is sent through the pidfd, which is missing when [MakePidFd]
    returned -1. *)
Definition HandleMountSyscall (w : World) (s : State) (c : Instance)
    (siov : Iovec) : Reply :=
  let rq := req siov in
  let pid := req_pid rq in
  let pidFdNr := MakePidFd w s pid in
  match mount_read w siov (arg rq 0) (arg rq 0) with
  | None => continue_reply siov
  | Some src =>
  match mount_read w siov (arg rq 1) (arg rq 1) with
  | None => continue_reply siov
  | Some tgt =>
  match mount_read w siov (arg rq 1) (arg rq 2) with
  | None => continue_reply siov
  | Some fs =>
  (* idmap shift *)
  let fullSrcPath := filepath_Join ("/proc/" +:+ fmt_d pid +:+ "/root/") src in
  let idmap_ty :=
    if PathExists w fullSrcPath then MountSyscallShift c fullSrcPath fs
    else MountSyscallShift c src fs in
  (* unsigned long mountflags *)
  let flags := to_i64 (arg rq 3) in
  match mount_read w siov (arg rq 4) (arg rq 4) with
  | None => continue_reply siov
  | Some dat =>
  if negb (PidfdSendSignal_ok w (if 0 <=? pidFdNr then pid else -1))
  then continue_reply siov else
  let a0 := {| source := src; target := tgt; fstype := fs; mnt_flags := flags;
               mnt_data := dat; mnt_pid := pid; idmapType := idmap_ty;
               uid := 0; gid := 0; fsuid := 0; fsgid := 0; nsuid := 0;
               nsgid := 0; nsfsuid := 0; nsfsgid := 0 |} in
  let '(ok, fuseBinary) := MountSyscallValid c a0 in
  if negb ok then continue_reply siov else
  match CurrentIdmap c with
  | None => continue_reply siov
  | Some idmapset =>
  match TaskIDs w pid with
  | None => continue_reply siov
  | Some (u, g, fu, fg) =>
  let '(nu, ng) := ShiftFromNS idmapset u g in
  let '(nfu, nfg) := ShiftFromNS idmapset fu fg in
  let a1 := {| source := src; target := tgt; fstype := fs; mnt_flags := flags;
               mnt_data := dat; mnt_pid := pid; idmapType := idmap_ty;
               uid := u; gid := g; fsuid := fu; fsgid := fg; nsuid := nu;
               nsgid := ng; nsfsuid := nfu; nsfsgid := nfg |} in
  match mountHandleHugetlbfsArgs c a1 u g with
  | inr _ => continue_reply siov
  | inl a =>
  let argv :=
    if negb (str_empty fuseBinary) then
      let addOpts := mountFlagsToOpts (to_u64 (mnt_flags a)) in
      let fuseSource := fuseBinary +:+ "#" +:+ source a in
      let fuseOpts :=
        if negb (str_empty (mnt_data a)) && negb (str_empty addOpts)
        then mnt_data a +:+ "," +:+ addOpts
        else if negb (str_empty (mnt_data a)) then mnt_data a
        else if negb (str_empty addOpts) then addOpts
        else EmptyString in
      [ "forksyscall"; "mount"; fmt_d (mnt_pid a); fmt_d pidFdNr; fmt_d 1;
        fmt_d (uid a); fmt_d (gid a); fmt_d (fsuid a); fmt_d (fsgid a);
        fuseSource; target a; fuseOpts ]
    else
      [ "forksyscall"; "mount"; fmt_d (mnt_pid a); fmt_d pidFdNr; fmt_d 0;
        source a; target a; fstype a; fmt_d (mnt_flags a); idmapType a;
        fmt_d (uid a); fmt_d (gid a); fmt_d (fsuid a); fmt_d (fsgid a);
        fmt_d (nsuid a); fmt_d (nsgid a); fmt_d (nsfsuid a);
        fmt_d (nsfsgid a); mnt_data a ] in
  match RunCommandSplit w argv with
  | Some _ =>
      {| errno := 0; resp_out := resp_out (continue_reply siov);
         effects := [Forksyscall argv] |}
  | None =>
      {| errno := 0; resp_out := resp siov; effects := [Forksyscall argv] |}
  end
  end end end end end end end.

End Mount.

(* ------------------------------------------------------------------ *)
(** ** bpf *)

Definition BPF_PROG_LOAD : Z := 5.
Definition BPF_PROG_ATTACH : Z := 8.
Definition BPF_PROG_DETACH : Z := 9.
Definition BPF_PROG_TYPE_CGROUP_DEVICE : Z := 15.
Definition BPF_CGROUP_DEVICE : Z := 6.
Definition PIDFD_THREAD : Z := 128.

Definition with_log_size (a : bpf_attr) (n : Z) : bpf_attr :=
  {| prog_type := prog_type a; insn_cnt := insn_cnt a; insns := insns a;
     license := license a; log_size := n; log_buf := log_buf a;
     attach_type := attach_type a; target_fd := target_fd a;
     attach_bpf_fd := attach_bpf_fd a |}.

Definition with_fds (a : bpf_attr) (tfd afd : Z) : bpf_attr :=
  {| prog_type := prog_type a; insn_cnt := insn_cnt a; insns := insns a;
     license := license a; log_size := log_size a; log_buf := log_buf a;
     attach_type := attach_type a; target_fd := tfd; attach_bpf_fd := afd |}.

Definition with_val (r : seccomp_notif_resp) (v : Z) : seccomp_notif_resp :=
  {| resp_id := resp_id r; resp_val := v; resp_error := resp_error r;
     resp_flags := resp_flags r |}.

(** [BPF_PROG_ATTACH] and [BPF_PROG_DETACH] share their code. *)
Definition bpf_attach_detach (w : World) (pid_target tgid pidfd cmd : Z)
    (attr : bpf_attr) (attr_len flags : Z) : Z :=
  if negb (attach_type attr =? BPF_CGROUP_DEVICE) then - EINVAL else
  match pidfd_getfd w pidfd (target_fd attr) with
  | inr e => - e
  | inl bpf_target_fd =>
  match pidfd_getfd w pidfd (attach_bpf_fd attr) with
  | inr e => - e
  | inl bpf_attach_fd =>
      let unshared :=
        (Z.land flags PIDFD_THREAD =? 0) && negb (tgid =? pid_target) in
      if unshared && negb (filetable_shared w tgid pid_target) then - EINVAL
      else if unshared && negb (process_still_alive w pidfd) then - EINVAL
      else bpf_ATTACH_DETACH w cmd (with_fds attr bpf_target_fd bpf_attach_fd)
             attr_len
  end end.

(** The value returned and the response, in which only [val] can change. *)
Definition handle_bpf_syscall (w : World) (pid_target notify_fd mem_fd tgid : Z)
    (rq : seccomp_notif) (rs : seccomp_notif_resp) (flags : Z)
    : Z * seccomp_notif_resp :=
  if to_u32 (sizeof_bpf_attr w) <? arg rq 2 then (- EFBIG, rs) else
  let attr_len := arg rq 2 in
  let cmd := arg rq 0 in
  if negb ((cmd =? BPF_PROG_LOAD) || (cmd =? BPF_PROG_ATTACH)
           || (cmd =? BPF_PROG_DETACH)) then (- EINVAL, rs) else
  match pread_bpf_attr w mem_fd attr_len (to_i64 (arg rq 1)) with
  | inr e => (- e, rs)
  | inl attr =>
  match (if negb (Z.land flags PIDFD_THREAD =? 0)
         then incus_pidfd_open w pid_target PIDFD_THREAD
         else incus_pidfd_open w tgid 0) with
  | inr e => (- e, rs)
  | inl pidfd =>
  match ioctl_NOTIF_ID_VALID w notify_fd (req_id rq) with
  | Some e => (- e, rs)
  | None =>
  if cmd =? BPF_PROG_LOAD then
    if negb (prog_type attr =? BPF_PROG_TYPE_CGROUP_DEVICE) then (- EINVAL, rs)
    (* bpf is currently limited to 1 million instructions. *)
    else if 1000000 <? insn_cnt attr then (- EINVAL, rs)
    else
      let insn_size := 8 * insn_cnt attr in
      if negb (malloc_ok w insn_size) then (- ENOMEM, rs) else
      match pread_insns w mem_fd insn_size (to_i64 (insns attr)) with
      | inr e => (- e, rs)
      | inl n =>
      if negb (n =? insn_size) then (- EIO, rs) else
      let new_attr :=
        if 4096 <? log_size attr then with_log_size attr 4096 else attr in
      match (if negb (license attr =? 0)
             then pread_license w mem_fd (to_i64 (license attr)) else None) with
      | Some e => (- e, rs)
      | None =>
      match bpf_PROG_LOAD w new_attr with
      | inr e => (- e, rs)
      | inl bpf_prog_fd =>
      match ioctl_NOTIF_ADDFD w notify_fd (req_id rq) bpf_prog_fd with
      | inr e => (- e, rs)
      | inl ret => (0, with_val rs ret)
      end end end end
  else
    (bpf_attach_detach w pid_target tgid pidfd cmd attr attr_len flags, rs)
  end end end.

Section Dispatch.
Context `{SharedUtil}.

(** Every refusal continues the system call.  In the branch without
    thread pidfds the thread group leader found is bound to a new
    variable, so the C function is called with the outer [tgid], zero. *)
Definition HandleBpfSyscall (w : World) (s : State) (c : Instance)
    (siov : Iovec) : Reply :=
  if IsFalseOrEmpty
       (cfg_get (ExpandedConfig c) "security.syscalls.intercept.bpf.devices")
  then continue_reply siov
  else
    let probe : option (Z * Z) :=
      if PidFdsThread s then Some (PIDFD_THREAD, -1)
      else match FindTGID w (procFd siov) with
           | None => None
           | Some found => if found =? -1 then None else Some (0, 0)
           end in
    match probe with
    | None => continue_reply siov
    | Some (flags, tgid) =>
        let '(ret, rs) :=
          handle_bpf_syscall w (to_i32 (req_pid (req siov))) (notifyFd siov)
            (memFd siov) tgid (req siov) (resp siov) flags in
        if ret <? 0 then
          {| errno := 0;
             resp_out := seccomp_notify_update_response rs 0
                           seccompUserNotifFlagContinue;
             effects := [] |}
        else {| errno := 0; resp_out := rs; effects := [] |}
    end.

(* ------------------------------------------------------------------ *)
(** ** Dispatcher *)

Definition incusSeccompNotifyMknod := INCUS_SECCOMP_NOTIFY_MKNOD.
Definition incusSeccompNotifyMknodat := INCUS_SECCOMP_NOTIFY_MKNODAT.
Definition incusSeccompNotifySetxattr := INCUS_SECCOMP_NOTIFY_SETXATTR.
Definition incusSeccompNotifyMount := INCUS_SECCOMP_NOTIFY_MOUNT.
Definition incusSeccompNotifyBpf := INCUS_SECCOMP_NOTIFY_BPF.
Definition incusSeccompNotifySchedSetscheduler :=
  INCUS_SECCOMP_NOTIFY_SCHED_SETSCHEDULER.
Definition incusSeccompNotifySysinfo := INCUS_SECCOMP_NOTIFY_SYSINFO.

Definition set_resp (siov : Iovec) (r : seccomp_notif_resp) : Iovec :=
  {| ucred_pid := ucred_pid siov; memFd := memFd siov; procFd := procFd siov;
     notifyFd := notifyFd siov; msg := msg siov; req := req siov; resp := r;
     cookie := cookie siov |}.

(** The [switch] over the classification, for any table. *)
Definition handleSyscall_in (tbl : list incus_seccomp_data_arch)
    (w : World) (s : State) (c : Instance) (siov : Iovec) : Outcome :=
  let '(sc, r) := seccomp_notify_get_syscall_in tbl (req siov) (resp siov) in
  let siov := set_resp siov r in
  if sc =? incusSeccompNotifyMknod then
    Returned (HandleMknodSyscall w s c siov)
  else if sc =? incusSeccompNotifyMknodat then
    Returned (HandleMknodatSyscall w s c siov)
  else if sc =? incusSeccompNotifySetxattr then
    HandleSetxattrSyscall w s c siov
  else if sc =? incusSeccompNotifyMount then
    Returned (HandleMountSyscall w s c siov)
  else if sc =? incusSeccompNotifyBpf then
    Returned (HandleBpfSyscall w s c siov)
  else if sc =? incusSeccompNotifySchedSetscheduler then
    Returned (HandleSchedSetschedulerSyscall w s c siov)
  else if sc =? incusSeccompNotifySysinfo then
    HandleSysinfoSyscall w s c siov
  else Returned (return_errno siov (- EINVAL)).

Definition handleSyscall := handleSyscall_in seccomp_notify_syscall_table.

(** The response sent and everything done for one valid frame; [None]
    when an emulator panicked.  [findPID] yields [None] for an error. *)
Definition HandleValid_in (tbl : list incus_seccomp_data_arch)
    (w : World) (s : State) (fd : Z) (siov : Iovec)
    (findPID : Z -> State -> option Instance)
    : option (seccomp_notif_resp * list Effect) :=
  match findPID (to_i32 (monitor_pid (msg siov))) s with
  | None =>
      let '(rs, sent) :=
        if SeccompListenerContinue s
        then SendSeccompIovec fd siov (resp siov) 0 seccompUserNotifFlagContinue
        else SendSeccompIovec fd siov (resp siov) (to_i32 (- EPERM)) 0 in
      Some (rs, (sent ++ PutSeccompIovec siov)%list)
  | Some c =>
      match handleSyscall_in tbl w s c siov with
      | Panicked => None
      | Returned r =>
          let '(rs, sent) :=
            SendSeccompIovec fd siov (resp_out r) (to_i32 (errno r)) 0 in
          Some (rs, (effects r ++ sent ++ PutSeccompIovec siov)%list)
      end
  end.

Definition HandleValid := HandleValid_in seccomp_notify_syscall_table.

End Dispatch.

(* ------------------------------------------------------------------ *)
(** ** Vocabulary of the properties *)

(** The number a row holds for a logical syscall. *)
Definition slot (entry : incus_seccomp_data_arch) (k : Z) : Z :=
  if k =? INCUS_SECCOMP_NOTIFY_MKNOD then nr_mknod entry
  else if k =? INCUS_SECCOMP_NOTIFY_MKNODAT then nr_mknodat entry
  else if k =? INCUS_SECCOMP_NOTIFY_SETXATTR then nr_setxattr entry
  else if k =? INCUS_SECCOMP_NOTIFY_MOUNT then nr_mount entry
  else if k =? INCUS_SECCOMP_NOTIFY_BPF then nr_bpf entry
  else if k =? INCUS_SECCOMP_NOTIFY_SCHED_SETSCHEDULER
       then nr_sched_setscheduler entry
  else nr_sysinfo entry.

(** The row that decides for an architecture: the first one of it. *)
Definition first_row (tbl : list incus_seccomp_data_arch) (a : Z)
    : option incus_seccomp_data_arch :=
  List.find (fun entry => to_u32 (arch entry) =? a) tbl.


Definition is_forksyscall (e : Effect) : bool :=
  match e with Forksyscall _ => true | _ => false end.

Definition is_insert (e : Effect) : bool :=
  match e with InsertUnixDevice _ _ _ => true | _ => false end.


(** The value of the first key when it is present (even if empty), of the
    second key otherwise: how the compiler reads a renamed option. *)
Definition cfg_get2 (config : gmap string string) (k1 k2 : string) : string :=
  match config !! k1 with
  | Some v => v
  | None => cfg_get config k2
  end.

(** The response carries the continue flag. *)
Definition continues (r : seccomp_notif_resp) : bool :=
  Z.testbit (resp_flags r) 0.

(* ------------------------------------------------------------------ *)
(** ** Concrete inputs *)

Definition ascii_lower (ch : ascii) : ascii :=
  let n := Ascii.N_of_ascii ch in
  if ((65 <=? n) && (n <=? 90))%N then Ascii.ascii_of_N (n + 32) else ch.

Fixpoint ToLower (s : string) : string :=
  match s with
  | EmptyString => EmptyString
  | String ch rest => String (ascii_lower ch) (ToLower rest)
  end.

(** An instance of the parameters, used to evaluate the definitions on
    concrete inputs: the usual spellings of true and false, a few
    architecture names, and path joining without normalisation. *)
Definition example_util : SharedUtil :=
  {| IsTrue := fun v =>
       existsb (String.eqb (ToLower v)) [ "true"; "1"; "yes"; "on" ];
     IsFalseOrEmpty := fun v =>
       str_empty v
       || existsb (String.eqb (ToLower v)) [ "false"; "0"; "no"; "off" ];
     ArchitectureName := fun a =>
       if a =? 1 then inl "i686"
       else if a =? 2 then inl "x86_64"
       else if a =? 4 then inl "aarch64"
       else inr (errorString "Architecture isn't supported");
     filepath_Join := fun a b => a +:+ b |}.

(** A host whose runtime supports notification but not continuing. *)
Definition strict_state : State :=
  {| RunningInUserNS := false;
     LXCFeatures := {[ "seccomp_notify" := true;
                       "seccomp_allow_deny_syntax" := true ]};
     SeccompListener := true;
     SeccompListenerContinue := false;
     SeccompListenerAddfd := false;
     PidFds := true;
     PidFdsThread := false;
     lxc_NewContainer_ok := true;
     lxc_SetConfigItem_err := None |}.

(** The same host with continue and addfd support. *)
Definition permissive_state : State :=
  {| RunningInUserNS := false;
     LXCFeatures := {[ "seccomp_notify" := true;
                       "seccomp_allow_deny_syntax" := true ]};
     SeccompListener := true;
     SeccompListenerContinue := true;
     SeccompListenerAddfd := true;
     PidFds := true;
     PidFdsThread := false;
     lxc_NewContainer_ok := true;
     lxc_SetConfigItem_err := None |}.

Definition identity_idmap : IdmapSet :=
  {| ShiftFromNS := fun u g => (u, g); ShiftIntoNS := fun u g => (u, g) |}.

Definition example_instance (config : gmap string string) : Instance :=
  {| Name := "c1"; ProjectName := "default"; ExpandedConfig := config;
     IsPrivileged := false; Architecture := 2; RootfsPath := "/rootfs";
     CurrentIdmap := Some identity_idmap; DiskIdmap := Some None;
     IdmappedStorage := fun _ _ => StorageTypeNone;
     InsertSeccompUnixDevice := fun _ _ _ => None |}.

(** Configurations of the policy compiler. *)
Definition bare_config : gmap string string :=
  {[ "security.syscalls.deny_default" := "false" ]}.

Definition deny_config : gmap string string :=
  {[ "security.syscalls.deny_default" := "false";
     "security.syscalls.deny" := "chroot errno 1" ]}.


Definition intercept_config : gmap string string :=
  {[ "security.syscalls.intercept.mknod" := "true" ]}.

(** An instance that cannot take a device on board. *)
Definition failing_instance : Instance :=
  {| Name := "c2"; ProjectName := "default"; ExpandedConfig := ∅;
     IsPrivileged := false; Architecture := 2; RootfsPath := "/rootfs";
     CurrentIdmap := Some identity_idmap; DiskIdmap := Some None;
     IdmappedStorage := fun _ _ => StorageTypeNone;
     InsertSeccompUnixDevice := fun _ _ _ =>
       Some (errorString "instance is not running") |}.

(** The arguments of an accepted [mknod] of /dev/null. *)
Definition null_device_args : MknodArgs :=
  {| cMode := 8630; cDev := makedev 1 3; cPid := 4242;
     mknod_path := "/dev/null" |}.

Definition null_probe : SysinfoProbe :=
  {| host_Sysinfo_ok := false; cgroup_NewFileReadWriter_ok := false;
     init_stat_fields := None; GetProcessesUsage := None;
     GetMemoryStats := None; GetEffectiveMemoryLimit := None;
     GetMemoryUsage := None; Supports_MemorySwapUsage := false;
     GetMemorySwapLimit := None; GetMemorySwapUsage := None;
     uptime_seconds := 0 |}.

(** A target process that runs as root of its namespace, whose memory
    holds [mem] at every address, and a helper that answers [helper]. *)
Definition example_world (mem : string) (helper : option string) : World :=
  {| TaskIDs := fun _ => Some (0, 0, 0, 0);
     PidFdOpen_ok := fun _ => true;
     pread := fun _ count _ => Some (str_take count mem);
     pwrite_ok := fun _ _ => true;
     RunCommandSplit := fun _ => helper;
     PidfdSendSignal_ok := fun _ => true;
     PathExists := fun _ => false;
     FindTGID := fun _ => None;
     sysinfo_probe := null_probe;
     sizeof_bpf_attr := 144;
     pread_bpf_attr := fun _ _ _ => inr 14;
     incus_pidfd_open := fun _ _ => inr 22;
     ioctl_NOTIF_ID_VALID := fun _ _ => Some 2;
     malloc_ok := fun _ => true;
     pread_insns := fun _ _ _ => inr 14;
     pread_license := fun _ _ => Some 14;
     bpf_PROG_LOAD := fun _ => inr 1;
     ioctl_NOTIF_ADDFD := fun _ _ _ => inr 22;
     pidfd_getfd := fun _ _ => inr 9;
     filetable_shared := fun _ _ => false;
     process_still_alive := fun _ => false;
     bpf_ATTACH_DETACH := fun _ _ _ => -1 |}.

Definition example_sizes : seccomp_notif_sizes :=
  {| seccomp_notif_sz := 80; seccomp_notif_resp_sz := 24;
     seccomp_data_sz := 64 |}.

Definition example_msg (reserved : Z) : seccomp_notify_proxy_msg :=
  {| __reserved := reserved; monitor_pid := 4000; init_pid := 4001;
     sizes := example_sizes; cookie_len := 0 |}.

Definition example_req (a n : Z) (xs : list Z) : seccomp_notif :=
  {| req_id := 7; req_pid := 4242; req_flags := 0;
     data := {| nr := n; data_arch := a; instruction_pointer := 0;
                args := xs |} |}.

Definition example_siov (rq : seccomp_notif) : Iovec :=
  {| ucred_pid := 4000; memFd := 11; procFd := 10; notifyFd := 12;
     msg := example_msg 0; req := rq; resp := resp_zero;
     cookie := EmptyString |}.

Definition example_frame (reserved : Z) (rq : seccomp_notif) : Received :=
  RecvData 136 (10, 11, 12) (example_msg reserved) rq resp_zero EmptyString.

(** [mknod("/dev/sda", S_IFBLK | 0600, makedev(8, 0))] on x86_64. *)
Definition mknod_sda_req : seccomp_notif :=
  example_req AUDIT_ARCH_X86_64 133 [ 140000000; 24960; makedev 8 0; 0; 0; 0 ].

(** [sched_setscheduler(1, -1, param)] on x86_64. *)
Definition sched_negative_policy_req : seccomp_notif :=
  example_req AUDIT_ARCH_X86_64 144 [ 1; 4294967295; 140000000; 0; 0; 0 ].

(** [mount(NULL, NULL, NULL, 0, NULL)] on x86_64. *)
Definition mount_req : seccomp_notif :=
  example_req AUDIT_ARCH_X86_64 165 [ 0; 0; 0; 0; 0; 0 ].

(** A request with the number -1 on aarch64, where the [mknod] slot of
    the table holds -1. *)
Definition aarch64_minus_one_req : seccomp_notif :=
  example_req AUDIT_ARCH_AARCH64 (-1) [ 0; 0; 0; 0; 0; 0 ].

(** [setxattr("/x", "user.foo", "z", 1, 0)]: the three pointers differ,
    the example memory answers every read with the same bytes. *)
Definition setxattr_req : seccomp_notif :=
  example_req AUDIT_ARCH_X86_64 188 [ 140000000; 140000100; 140000200; 1; 0; 0 ].

(** [mknodat] with a directory descriptor whose low half is [AT_FDCWD]
    and whose high half is not the sign extension. *)
Definition mknodat_req (dirfd : Z) : seccomp_notif :=
  example_req AUDIT_ARCH_X86_64 259
    [ dirfd; 140000000; 8630; makedev 1 3; 0; 0 ].

(** The device numbers [device_allowed] accepts for a character device. *)
Definition allowed_devices : list Z :=
  [ makedev 0 0; makedev 5 1; makedev 1 7; makedev 1 3; makedev 1 8;
    makedev 5 0; makedev 1 9; makedev 1 5 ].

(** A world that differs in the credentials of the target. *)
Definition with_TaskIDs (w : World) (f : Z -> option (Z * Z * Z * Z)) : World :=
  {| TaskIDs := f;
     PidFdOpen_ok := PidFdOpen_ok w; pread := pread w; pwrite_ok := pwrite_ok w;
     RunCommandSplit := RunCommandSplit w;
     PidfdSendSignal_ok := PidfdSendSignal_ok w; PathExists := PathExists w;
     FindTGID := FindTGID w; sysinfo_probe := sysinfo_probe w;
     sizeof_bpf_attr := sizeof_bpf_attr w; pread_bpf_attr := pread_bpf_attr w;
     incus_pidfd_open := incus_pidfd_open w;
     ioctl_NOTIF_ID_VALID := ioctl_NOTIF_ID_VALID w; malloc_ok := malloc_ok w;
     pread_insns := pread_insns w; pread_license := pread_license w;
     bpf_PROG_LOAD := bpf_PROG_LOAD w; ioctl_NOTIF_ADDFD := ioctl_NOTIF_ADDFD w;
     pidfd_getfd := pidfd_getfd w; filetable_shared := filetable_shared w;
     process_still_alive := process_still_alive w;
     bpf_ATTACH_DETACH := bpf_ATTACH_DETACH w |}.

(** A world that differs in the memory of the target. *)
Definition with_pread (w : World) (f : Z -> nat -> Z -> option string) : World :=
  {| TaskIDs := TaskIDs w;
     PidFdOpen_ok := PidFdOpen_ok w; pread := f; pwrite_ok := pwrite_ok w;
     RunCommandSplit := RunCommandSplit w;
     PidfdSendSignal_ok := PidfdSendSignal_ok w; PathExists := PathExists w;
     FindTGID := FindTGID w; sysinfo_probe := sysinfo_probe w;
     sizeof_bpf_attr := sizeof_bpf_attr w; pread_bpf_attr := pread_bpf_attr w;
     incus_pidfd_open := incus_pidfd_open w;
     ioctl_NOTIF_ID_VALID := ioctl_NOTIF_ID_VALID w; malloc_ok := malloc_ok w;
     pread_insns := pread_insns w; pread_license := pread_license w;
     bpf_PROG_LOAD := bpf_PROG_LOAD w; ioctl_NOTIF_ADDFD := ioctl_NOTIF_ADDFD w;
     pidfd_getfd := pidfd_getfd w; filetable_shared := filetable_shared w;
     process_still_alive := process_still_alive w;
     bpf_ATTACH_DETACH := bpf_ATTACH_DETACH w |}.

(** A target process that runs as an ordinary user of its namespace. *)
Definition user_world (mem : string) (helper : option string) : World :=
  with_TaskIDs (example_world mem helper)
    (fun _ => Some (1000, 1000, 1000, 1000)).

(** A target whose memory holds the overlay attribute name where a path
    or a name is read, and "y" where a single byte is read. *)
Definition overlay_world : World :=
  with_pread (example_world EmptyString None)
    (fun _ count _ =>
       if (count <=? 1)%nat then Some "y" else Some "trusted.overlay.opaque").

(** [mknod("/dev/null", S_IFCHR | 0666, makedev(1, 3))] on x86_64. *)
Definition mknod_null_req : seccomp_notif :=
  example_req AUDIT_ARCH_X86_64 133 [ 140000000; 8630; makedev 1 3; 0; 0; 0 ].

(** [setxattr(p, n, v, size, 0)] on x86_64. *)
Definition setxattr_size_req (size : Z) : seccomp_notif :=
  example_req AUDIT_ARCH_X86_64 188
    [ 140000000; 140000100; 140000200; size; 0; 0 ].

(** [sched_setscheduler(pid, policy, param)] on x86_64. *)
Definition sched_req (pid policy : Z) : seccomp_notif :=
  example_req AUDIT_ARCH_X86_64 144 [ pid; policy; 140000000; 0; 0; 0 ].

Definition is_pwrite (e : Effect) : bool :=
  match e with PwriteSysinfo _ _ _ _ => true | _ => false end.

Definition is_sendmsg (e : Effect) : bool :=
  match e with Sendmsg _ _ => true | _ => false end.

(** The metrics of the write an emulator performed, if any. *)
Definition written_metrics (effs : list Effect) : option Sysinfo :=
  match effs with
  | PwriteSysinfo _ _ m _ :: _ => Some m
  | _ => None
  end.

(** A container with a limit of 1 GiB of which 900 MiB are in use, 500 MiB
    of them as page cache; its init process started 1000 s after boot. *)
Definition busy_probe : SysinfoProbe :=
  {| host_Sysinfo_ok := true; cgroup_NewFileReadWriter_ok := true;
     init_stat_fields :=
       Some [ "1"; "(init)"; "S"; "0"; "1"; "1"; "0"; "-1"; "4194560"; "0";
              "0"; "0"; "0"; "0"; "0"; "0"; "0"; "20"; "0"; "1"; "0";
              "100000"; "0" ];
     GetProcessesUsage := Some 12;
     GetMemoryStats := Some [ ("cache", 524288000); ("shmem", 4096) ];
     GetEffectiveMemoryLimit := Some 1073741824;
     GetMemoryUsage := Some 943718400;
     Supports_MemorySwapUsage := false;
     GetMemorySwapLimit := None; GetMemorySwapUsage := None;
     uptime_seconds := 5000 |}.

Definition with_sysinfo_probe (w : World) (p : SysinfoProbe) : World :=
  {| TaskIDs := TaskIDs w;
     PidFdOpen_ok := PidFdOpen_ok w; pread := pread w; pwrite_ok := pwrite_ok w;
     RunCommandSplit := RunCommandSplit w;
     PidfdSendSignal_ok := PidfdSendSignal_ok w; PathExists := PathExists w;
     FindTGID := FindTGID w; sysinfo_probe := p;
     sizeof_bpf_attr := sizeof_bpf_attr w; pread_bpf_attr := pread_bpf_attr w;
     incus_pidfd_open := incus_pidfd_open w;
     ioctl_NOTIF_ID_VALID := ioctl_NOTIF_ID_VALID w; malloc_ok := malloc_ok w;
     pread_insns := pread_insns w; pread_license := pread_license w;
     bpf_PROG_LOAD := bpf_PROG_LOAD w; ioctl_NOTIF_ADDFD := ioctl_NOTIF_ADDFD w;
     pidfd_getfd := pidfd_getfd w; filetable_shared := filetable_shared w;
     process_still_alive := process_still_alive w;
     bpf_ATTACH_DETACH := bpf_ATTACH_DETACH w |}.

Definition busy_world : World :=
  with_sysinfo_probe (example_world EmptyString None) busy_probe.

(** [sysinfo(info)] on x86_64. *)
Definition sysinfo_req : seccomp_notif :=
  example_req AUDIT_ARCH_X86_64 99 [ 140000000; 0; 0; 0; 0; 0 ].

(** A program of 1,000,001 instructions for the device controller. *)
Definition oversized_attr : bpf_attr :=
  {| prog_type := BPF_PROG_TYPE_CGROUP_DEVICE; insn_cnt := 1000001;
     insns := 140000400; license := 0; log_size := 0; log_buf := 0;
     attach_type := 0; target_fd := 0; attach_bpf_fd := 0 |}.

(** A world in which every step of the bpf emulation succeeds and the
    attribute read from the caller is [attr]. *)
Definition bpf_world (attr : bpf_attr) : World :=
  {| TaskIDs := fun _ => Some (0, 0, 0, 0);
     PidFdOpen_ok := fun _ => true;
     pread := fun _ _ _ => Some EmptyString;
     pwrite_ok := fun _ _ => true;
     RunCommandSplit := fun _ => None;
     PidfdSendSignal_ok := fun _ => true;
     PathExists := fun _ => false;
     FindTGID := fun _ => Some 4242;
     sysinfo_probe := null_probe;
     sizeof_bpf_attr := 144;
     pread_bpf_attr := fun _ _ _ => inl attr;
     incus_pidfd_open := fun _ _ => inl 20;
     ioctl_NOTIF_ID_VALID := fun _ _ => None;
     malloc_ok := fun _ => true;
     pread_insns := fun _ size _ => inl size;
     pread_license := fun _ _ => None;
     bpf_PROG_LOAD := fun _ => inl 21;
     ioctl_NOTIF_ADDFD := fun _ _ _ => inl 7;
     pidfd_getfd := fun _ _ => inl 22;
     filetable_shared := fun _ _ => true;
     process_still_alive := fun _ => true;
     bpf_ATTACH_DETACH := fun _ _ _ => 0 |}.

(** A host with thread pidfds. *)
Definition thread_state : State :=
  {| RunningInUserNS := false;
     LXCFeatures := {[ "seccomp_notify" := true;
                       "seccomp_allow_deny_syntax" := true ]};
     SeccompListener := true; SeccompListenerContinue := true;
     SeccompListenerAddfd := true; PidFds := true; PidFdsThread := true;
     lxc_NewContainer_ok := true; lxc_SetConfigItem_err := None |}.

Definition bpf_config : gmap string string :=
  {[ "security.syscalls.intercept.bpf" := "true";
     "security.syscalls.intercept.bpf.devices" := "true" ]}.

(** [bpf(BPF_PROG_LOAD, attr, 120)] on x86_64. *)
Definition bpf_load_req : seccomp_notif :=
  example_req AUDIT_ARCH_X86_64 321 [ 5; 140000300; 120; 0; 0; 0 ].


(** An intercept option that is switched on. *)
Definition intercept_enabled `{SharedUtil} (config : gmap string string)
    (kc : string * (State -> option error)) : bool :=
  negb (IsFalseOrEmpty (cfg_get config (fst kc))).

(** A host whose kernel has the listener, without continue, and whose
    runtime lacks the notify proxy. *)
Definition no_proxy_state : State :=
  {| RunningInUserNS := false;
     LXCFeatures := {[ "seccomp_notify" := true ]};
     SeccompListener := true;
     SeccompListenerContinue := false;
     SeccompListenerAddfd := false;
     PidFds := true;
     PidFdsThread := false;
     lxc_NewContainer_ok := true;
     lxc_SetConfigItem_err := Some "not supported" |}.

Definition mount_intercept_config : gmap string string :=
  {[ "security.syscalls.intercept.mknod" := "true";
     "security.syscalls.intercept.mount" := "true" ]}.


(** Effects on the connection and on the descriptors of a frame, which
    belong to the dispatcher and not to an emulator. *)
Definition is_wire (e : Effect) : bool :=
  match e with
  | Sendmsg _ _ | CloseFd _ => true
  | _ => false
  end.

Definition is_frame_action (a : Action) : bool :=
  match a with
  | GoHandleValid _ | GoHandleInvalid _ => true
  | CloseConnection => false
  end.

Definition is_recv_error (r : Received) : bool :=
  match r with RecvError => true | RecvData _ _ _ _ _ _ => false end.


Definition knownFlags : Z :=
  Z.lor MS_BIND (Z.lor MS_LAZYTIME (Z.lor MS_MANDLOCK (Z.lor MS_NOATIME
  (Z.lor MS_NODEV (Z.lor MS_NODIRATIME (Z.lor MS_NOEXEC (Z.lor MS_NOSUID
  (Z.lor MS_REMOUNT (Z.lor MS_RDONLY (Z.lor MS_STRICTATIME
  (Z.lor MS_SYNCHRONOUS MS_BIND))))))))))).

Definition knownFlagsRecursive : Z := Z.lor knownFlags MS_REC.

(** The body of the loop of [mountFlagsToOpts] for one bit. *)
Definition mount_opt_step (flags msRec : Z) (opts : string) (currentBit : Z)
    : string :=
  let flag := Z.shiftl 1 currentBit in
  if Z.land flags flag =? 0 then opts
  else
    let flag := if (flag =? MS_BIND) && (msRec =? MS_REC)
                then Z.lor flag msRec else flag in
    let optOrArg := default EmptyString (mountFlagsToOptMap !! flag) in
    if str_empty optOrArg then opts
    else if str_empty opts then optOrArg
    else opts +:+ "," +:+ optOrArg.

(** An identity map whose uid range starts at 100000 and whose gid range
    starts at 200000 on the host. *)
Definition split_idmap : IdmapSet :=
  {| ShiftFromNS := fun u g => (u + 100000, g + 200000);
     ShiftIntoNS := fun u g => (u - 100000, g - 200000) |}.

Definition split_instance : Instance :=
  {| Name := "c3"; ProjectName := "default"; ExpandedConfig := ∅;
     IsPrivileged := false; Architecture := 2; RootfsPath := "/rootfs";
     CurrentIdmap := Some split_idmap; DiskIdmap := Some None;
     IdmappedStorage := fun _ _ => StorageTypeNone;
     InsertSeccompUnixDevice := fun _ _ _ => None |}.

Definition hugetlbfs_args (data : string) : MountArgs :=
  {| source := "none"; target := "/dev/hugepages"; fstype := "hugetlbfs";
     mnt_flags := 0; mnt_data := data; mnt_pid := 4242;
     idmapType := "idmapped"; uid := 100000; gid := 200000; fsuid := 100000;
     fsgid := 200000; nsuid := 0; nsgid := 0; nsfsuid := 0; nsfsgid := 0 |}.


(* ------------------------------------------------------------------ *)
(** ** Storage utilities *)

Module Storage.

(** Constants of the packages db, drivers, instancetype and api, and the
    verb [%q] of Go's fmt; their sources are not part of this
    development, so the conversions below are parametric in them. *)
Class Packages := {
  StoragePoolVolumeTypeContainer : Z;
  StoragePoolVolumeTypeVM : Z;
  StoragePoolVolumeTypeImage : Z;
  StoragePoolVolumeTypeCustom : Z;
  StoragePoolVolumeTypeNameContainer : string;
  StoragePoolVolumeTypeNameVM : string;
  StoragePoolVolumeTypeNameImage : string;
  StoragePoolVolumeTypeNameCustom : string;
  VolumeTypeContainer : string;
  VolumeTypeVM : string;
  VolumeTypeImage : string;
  VolumeTypeCustom : string;
  StoragePoolVolumeContentTypeFS : Z;
  StoragePoolVolumeContentTypeBlock : Z;
  StoragePoolVolumeContentTypeISO : Z;
  StoragePoolVolumeContentTypeNameFS : string;
  StoragePoolVolumeContentTypeNameBlock : string;
  StoragePoolVolumeContentTypeNameISO : string;
  ContentTypeFS : string;
  ContentTypeBlock : string;
  ContentTypeISO : string;
  fmt_q : string -> string
}.

Section Conversions.
Context `{Packages}.

(** A Go function that returns [(value, error)]: the value and the
    error, [None] for nil. *)
Definition VolumeTypeNameToDBType (volumeTypeName : string) : Z * option error :=
  if String.eqb volumeTypeName StoragePoolVolumeTypeNameContainer
  then (StoragePoolVolumeTypeContainer, None)
  else if String.eqb volumeTypeName StoragePoolVolumeTypeNameVM
  then (StoragePoolVolumeTypeVM, None)
  else if String.eqb volumeTypeName StoragePoolVolumeTypeNameImage
  then (StoragePoolVolumeTypeImage, None)
  else if String.eqb volumeTypeName StoragePoolVolumeTypeNameCustom
  then (StoragePoolVolumeTypeCustom, None)
  else (-1, Some (errorString "Invalid storage volume type name")).

Definition VolumeTypeToDBType (volType : string) : Z * option error :=
  if String.eqb volType VolumeTypeContainer
  then (StoragePoolVolumeTypeContainer, None)
  else if String.eqb volType VolumeTypeVM
  then (StoragePoolVolumeTypeVM, None)
  else if String.eqb volType VolumeTypeImage
  then (StoragePoolVolumeTypeImage, None)
  else if String.eqb volType VolumeTypeCustom
  then (StoragePoolVolumeTypeCustom, None)
  else (-1, Some (errorString
                    ("Invalid storage volume type: " +:+ fmt_q volType))).

Definition VolumeDBTypeToType (volDBType : Z) : string * option error :=
  if volDBType =? StoragePoolVolumeTypeContainer
  then (VolumeTypeContainer, None)
  else if volDBType =? StoragePoolVolumeTypeVM
  then (VolumeTypeVM, None)
  else if volDBType =? StoragePoolVolumeTypeImage
  then (VolumeTypeImage, None)
  else if volDBType =? StoragePoolVolumeTypeCustom
  then (VolumeTypeCustom, None)
  else (EmptyString,
        Some (errorString
                ("Invalid storage volume DB type: " +:+ fmt_d volDBType))).

Definition VolumeContentTypeToDBContentType (contentType : string)
    : Z * option error :=
  if String.eqb contentType ContentTypeBlock
  then (StoragePoolVolumeContentTypeBlock, None)
  else if String.eqb contentType ContentTypeFS
  then (StoragePoolVolumeContentTypeFS, None)
  else if String.eqb contentType ContentTypeISO
  then (StoragePoolVolumeContentTypeISO, None)
  else (-1, Some (errorString "Invalid volume content type")).

Definition VolumeDBContentTypeToContentType (volDBType : Z)
    : string * option error :=
  if volDBType =? StoragePoolVolumeContentTypeBlock
  then (ContentTypeBlock, None)
  else if volDBType =? StoragePoolVolumeContentTypeFS
  then (ContentTypeFS, None)
  else if volDBType =? StoragePoolVolumeContentTypeISO
  then (ContentTypeISO, None)
  else (EmptyString, Some (errorString "Invalid volume content type")).

Definition VolumeContentTypeNameToContentType (contentTypeName : string)
    : Z * option error :=
  if String.eqb contentTypeName StoragePoolVolumeContentTypeNameFS
  then (StoragePoolVolumeContentTypeFS, None)
  else if String.eqb contentTypeName StoragePoolVolumeContentTypeNameBlock
  then (StoragePoolVolumeContentTypeBlock, None)
  else if String.eqb contentTypeName StoragePoolVolumeContentTypeNameISO
  then (StoragePoolVolumeContentTypeISO, None)
  else (-1, Some (errorString "Invalid volume content type name")).

End Conversions.

(** One pass of [for key := range config] of [ConfigDiff] over the keys
    in the order [keys]. *)
Definition diff_step (oldConfig newConfig : gmap string string)
    (acc : list string * bool) (key : string) : list string * bool :=
  let '(changedConfig, userOnly) := acc in
  if negb (String.eqb (cfg_get oldConfig key) (cfg_get newConfig key)) then
    let userOnly := if negb (String.prefix "user." key) then false else userOnly in
    let changedConfig :=
      if negb (existsb (String.eqb key) changedConfig)
      then (changedConfig ++ [key])%list else changedConfig in
    (changedConfig, userOnly)
  else acc.

(** Go leaves the order in which a map is ranged over unspecified, so
    the two orders are arguments: permutations of the keys of the two
    maps.  A nil slice is the empty list. *)
Definition ConfigDiff (order_old order_new : list string)
    (oldConfig newConfig : gmap string string) : list string * bool :=
  let acc := foldl (diff_step oldConfig newConfig) ([], true) order_old in
  let '(changedConfig, userOnly) :=
    foldl (diff_step oldConfig newConfig) acc order_new in
  (* Skip on no change *)
  if (length changedConfig =? 0)%nat then ([], false)
  else (changedConfig, userOnly).

(** [CreationDate] is the instant of the [time.Time], counted from the
    zero time: [Equal] and [After] compare instants. *)
Record ComparableSnapshot := {
  Name : string;
  ID : string;
  CreationDate : Z
}.

Definition by_name (snapshots : list ComparableSnapshot)
    : gmap string ComparableSnapshot :=
  foldl (fun m sn => <[Name sn := sn]> m) ∅ snapshots.

(** The creation date or the ID differ. *)
Definition differs (a b : ComparableSnapshot) : bool :=
  negb (CreationDate a =? CreationDate b) || negb (String.eqb (ID a) (ID b)).

Fixpoint target_loop (sourceSnapshotsByName : gmap string ComparableSnapshot)
    (targetSnapshots : list ComparableSnapshot) (targetSnapIndex : nat)
    (deleteFromTarget : list nat) (latestTargetSnapshotTime : Z)
    : list nat * Z :=
  match targetSnapshots with
  | [] => (deleteFromTarget, latestTargetSnapshotTime)
  | t :: rest =>
      let mark :=
        match sourceSnapshotsByName !! Name t with
        | None => true
        | Some sourceSnap => differs sourceSnap t
        end in
      if mark then
        target_loop sourceSnapshotsByName rest (S targetSnapIndex)
          (deleteFromTarget ++ [targetSnapIndex])%list latestTargetSnapshotTime
      else if latestTargetSnapshotTime <? CreationDate t then
        target_loop sourceSnapshotsByName rest (S targetSnapIndex)
          deleteFromTarget (CreationDate t)
      else
        target_loop sourceSnapshotsByName rest (S targetSnapIndex)
          deleteFromTarget latestTargetSnapshotTime
  end.

(** The test of the second loop for one source snapshot. *)
Definition to_sync (targetSnapshotsByName : gmap string ComparableSnapshot)
    (excludeOlder : bool) (latestTargetSnapshotTime : Z)
    (s : ComparableSnapshot) : bool :=
  match targetSnapshotsByName !! Name s with
  | None => negb excludeOlder || (latestTargetSnapshotTime <? CreationDate s)
  | Some targetSnap => differs targetSnap s
  end.

Fixpoint source_loop (targetSnapshotsByName : gmap string ComparableSnapshot)
    (excludeOlder : bool) (latestTargetSnapshotTime : Z)
    (sourceSnapshots : list ComparableSnapshot) (sourceSnapIndex : nat)
    (syncFromSource : list nat) : list nat :=
  match sourceSnapshots with
  | [] => syncFromSource
  | s :: rest =>
      source_loop targetSnapshotsByName excludeOlder latestTargetSnapshotTime
        rest (S sourceSnapIndex)
        (if to_sync targetSnapshotsByName excludeOlder
              latestTargetSnapshotTime s
         then (syncFromSource ++ [sourceSnapIndex])%list
         else syncFromSource)
  end.

(** The indexes to sync from the source and to delete from the target. *)
Definition CompareSnapshots (sourceSnapshots targetSnapshots
                               : list ComparableSnapshot)
    (excludeOlder : bool) : list nat * list nat :=
  let sourceSnapshotsByName := by_name sourceSnapshots in
  let '(deleteFromTarget, latestTargetSnapshotTime) :=
    target_loop sourceSnapshotsByName targetSnapshots 0 [] 0 in
  let targetSnapshotsByName := by_name targetSnapshots in
  (source_loop targetSnapshotsByName excludeOlder latestTargetSnapshotTime
     sourceSnapshots 0 [],
   deleteFromTarget).

(** The indexes, counted from [k], of the elements that satisfy [p]. *)
Fixpoint indexes_where {A : Type} (p : A -> bool) (l : list A) (k : nat)
    : list nat :=
  match l with
  | [] => []
  | x :: rest =>
      (if p x then [k] else []) ++ indexes_where p rest (S k)
  end.

(** The constants as the packages define them. *)
Definition example_packages : Packages :=
  {| StoragePoolVolumeTypeContainer := 0;
     StoragePoolVolumeTypeImage := 1;
     StoragePoolVolumeTypeCustom := 2;
     StoragePoolVolumeTypeVM := 3;
     StoragePoolVolumeTypeNameContainer := "container";
     StoragePoolVolumeTypeNameVM := "virtual-machine";
     StoragePoolVolumeTypeNameImage := "image";
     StoragePoolVolumeTypeNameCustom := "custom";
     VolumeTypeContainer := "containers";
     VolumeTypeVM := "virtual-machines";
     VolumeTypeImage := "images";
     VolumeTypeCustom := "custom";
     StoragePoolVolumeContentTypeFS := 0;
     StoragePoolVolumeContentTypeBlock := 1;
     StoragePoolVolumeContentTypeISO := 2;
     StoragePoolVolumeContentTypeNameFS := "filesystem";
     StoragePoolVolumeContentTypeNameBlock := "block";
     StoragePoolVolumeContentTypeNameISO := "iso";
     ContentTypeFS := "filesystem";
     ContentTypeBlock := "block";
     ContentTypeISO := "iso";
     fmt_q := fun v => String (Ascii.ascii_of_nat 34)
                         (v +:+ String (Ascii.ascii_of_nat 34) EmptyString) |}.

Definition old_volume_config : gmap string string :=
  {[ "user.comment" := "first"; "size" := "1GiB" ]}.

Definition new_volume_config : gmap string string :=
  {[ "user.comment" := "second"; "size" := "1GiB";
     "snapshots.pattern" := EmptyString ]}.

Definition snap (n i : string) (d : Z) : ComparableSnapshot :=
  {| Name := n; ID := i; CreationDate := d |}.

Definition source_snapshots : list ComparableSnapshot :=
  [ snap "snap0" "a" 100; snap "snap1" "b" 200; snap "snap2" "c" 300 ].

Definition target_snapshots : list ComparableSnapshot :=
  [ snap "snap0" "a" 100; snap "snap1" "x" 200; snap "old" "y" 50 ].

End Storage.

(** The test of the first loop of [CompareSnapshots] for one target
    snapshot. *)
Definition to_delete (sourceSnapshotsByName : gmap string Storage.ComparableSnapshot)
    (t : Storage.ComparableSnapshot) : bool :=
  match sourceSnapshotsByName !! Storage.Name t with
  | None => true
  | Some sourceSnap => Storage.differs sourceSnap t
  end.

(** The frame of [mknod(path, mode, dev)] for the frame of
    [mknodat(dirfd, path, mode, dev)]: the arguments move down by one. *)
Definition as_mknod (siov : Iovec) : Iovec :=
  {| ucred_pid := ucred_pid siov; memFd := memFd siov; procFd := procFd siov;
     notifyFd := notifyFd siov; msg := msg siov;
     req := {| req_id := req_id (req siov); req_pid := req_pid (req siov);
               req_flags := req_flags (req siov);
               data := {| nr := nr (data (req siov));
                          data_arch := data_arch (data (req siov));
                          instruction_pointer :=
                            instruction_pointer (data (req siov));
                          args := [ arg (req siov) 1; arg (req siov) 2;
                                    arg (req siov) 3; arg (req siov) 4;
                                    arg (req siov) 5; 0 ] |} |};
     resp := resp siov; cookie := cookie siov |}.

(** A socket filter of two instructions ([BPF_PROG_TYPE_SOCKET_FILTER]
    is 1). *)
Definition socket_filter_attr : bpf_attr :=
  {| prog_type := 1; insn_cnt := 2; insns := 140000400; license := 0;
     log_size := 0; log_buf := 0; attach_type := 0; target_fd := 0;
     attach_bpf_fd := 0 |}.

(** Case analysis on every [match] and [if] of the goal. *)
Ltac split_matches :=
  repeat match goal with
         | |- context [match ?x with _ => _ end] => destruct x eqn:?
         end.

(* ================================================================== *)
(** * Properties *)

(* ------------------------------------------------------------------ *)
(** ** The classifier *)

Lemma table_scan_first_row (tbl : list incus_seccomp_data_arch) (a n : Z) :
  table_scan tbl a n =
  match first_row tbl a with
  | Some entry => match_entry entry n
  | None => - EINVAL
  end.
Proof.
  unfold first_row.
  induction tbl as [|entry rest IH]; simpl; [reflexivity|].
  destruct (to_u32 (arch entry) =? a); simpl; [reflexivity|exact IH].
Qed.

Lemma match_entry_range (entry : incus_seccomp_data_arch) (n : Z) :
  match_entry entry n = - EINVAL \/ 0 <= match_entry entry n <= 6.
Proof.
  unfold match_entry.
  repeat (match goal with |- context [if ?b then _ else _] => destruct b end;
          [right; vm_compute; split; discriminate|]).
  left; reflexivity.
Qed.

Lemma match_entry_slot (entry : incus_seccomp_data_arch) (n : Z) :
  0 <= match_entry entry n <= 6 -> slot entry (match_entry entry n) = n.
Proof.
  unfold match_entry.
  repeat (match goal with
          | |- context [if ?x =? n then _ else _] =>
              destruct (Z.eqb_spec x n); [intros _; assumption|]
          end).
  vm_compute. intros [Hle _]. exfalso; apply Hle; reflexivity.
Qed.

Lemma match_entry_unknown (entry : incus_seccomp_data_arch) (n : Z) :
  (forall j, 0 <= j <= 6 -> slot entry j <> n) ->
  match_entry entry n = - EINVAL.
Proof.
  intros Hno.
  destruct (match_entry_range entry n) as [He|Hr]; [exact He|].
  exfalso. exact (Hno _ Hr (match_entry_slot entry n Hr)).
Qed.

Lemma unknown_syscall_scan (tbl : list incus_seccomp_data_arch) (a n : Z) :
  first_row tbl a = None \/
  (exists entry, first_row tbl a = Some entry /\
                 forall j, 0 <= j <= 6 -> slot entry j <> n) ->
  table_scan tbl a n = - EINVAL.
Proof.
  rewrite table_scan_first_row.
  intros [Hnone|(entry & Hsome & Hno)].
  - rewrite Hnone. reflexivity.
  - rewrite Hsome. apply match_entry_unknown, Hno.
Qed.

Section DispatchProperties.
Context `{SharedUtil}.

Lemma handleSyscall_unknown (tbl : list incus_seccomp_data_arch)
    (w : World) (s : State) (c : Instance) (siov : Iovec) :
  table_scan tbl (data_arch (data (req siov))) (nr (data (req siov))) = - EINVAL ->
  handleSyscall_in tbl w s c siov =
  Returned {| errno := - EINVAL;
              resp_out := {| resp_id := req_id (req siov); resp_val := 0;
                             resp_error := 0;
                             resp_flags := req_flags (req siov) |};
              effects := [] |}.
Proof.
  intros Hscan. unfold handleSyscall_in, seccomp_notify_get_syscall_in.
  rewrite Hscan. reflexivity.
Qed.

(** C7 (as amended).  A logical syscall is selected only through a slot
    of the first row of the request's architecture that equals the
    request's number: a slot holding -1 is selected only by the number
    -1, never by a non-negative one.  A request whose architecture has no
    row, or whose number is in no slot of that row, is classified
    [-EINVAL]; the dispatcher then calls no emulator and the reply sent
    carries the error [-EINVAL]. *)
Theorem classifier_slots_and_unknown
    (tbl : list incus_seccomp_data_arch) (w : World) (s : State)
    (c : Instance) (fd : Z) (siov : Iovec)
    (findPID : Z -> State -> option Instance) :
  (forall k, fst (seccomp_notify_get_syscall_in tbl (req siov) (resp siov)) = k ->
             0 <= k <= 6 ->
             exists entry,
               first_row tbl (data_arch (data (req siov))) = Some entry /\
               slot entry k = nr (data (req siov)) /\
               (slot entry k = -1 -> nr (data (req siov)) = -1)) /\
  (first_row tbl (data_arch (data (req siov))) = None \/
   (exists entry,
      first_row tbl (data_arch (data (req siov))) = Some entry /\
      forall j, 0 <= j <= 6 -> slot entry j <> nr (data (req siov))) ->
   fst (seccomp_notify_get_syscall_in tbl (req siov) (resp siov)) = - EINVAL /\
   (exists r, handleSyscall_in tbl w s c siov = Returned r /\
              errno r = - EINVAL /\ effects r = []) /\
   (findPID (to_i32 (monitor_pid (msg siov))) s = Some c ->
    exists rs eff,
      HandleValid_in tbl w s fd siov findPID = Some (rs, eff) /\
      resp_error rs = - EINVAL /\
      existsb is_forksyscall eff = false)).
Proof.
  split.
  - intros k Hk Hrange. simpl in Hk.
    rewrite table_scan_first_row in Hk.
    destruct (first_row tbl (data_arch (data (req siov)))) as [entry|] eqn:Hrow.
    + exists entry. subst k.
      pose proof (match_entry_slot entry _ Hrange) as Hslot.
      repeat split; [exact Hslot|]. intros Hm. rewrite <- Hslot. exact Hm.
    + subst k. vm_compute in Hrange. destruct Hrange as [Hle _].
      exfalso; apply Hle; reflexivity.
  - intros Hunk. apply unknown_syscall_scan in Hunk.
    pose proof (handleSyscall_unknown tbl w s c siov Hunk) as Hdisp.
    split; [exact Hunk|]. split.
    + eexists. split; [exact Hdisp|]. split; reflexivity.
    + intros Hfind. unfold HandleValid_in. rewrite Hfind, Hdisp.
      cbn [errno resp_out effects SendSeccompIovec].
      eexists _, _. split; [reflexivity|]. split; [reflexivity|].
      cbn [app existsb is_forksyscall]. unfold PutSeccompIovec.
      destruct (0 <=? memFd siov), (0 <=? procFd siov), (0 <=? notifyFd siov);
        reflexivity.
Qed.

End DispatchProperties.

(** C7 (as stated) fails: the row of aarch64 holds -1 in its [mknod]
    slot, and a request of that architecture with the number -1 is
    classified as [mknod], not as unknown. *)
Lemma minus_one_slot_matches_minus_one :
  first_row seccomp_notify_syscall_table
    (data_arch (data aarch64_minus_one_req))
  = Some (row AUDIT_ARCH_AARCH64 (-1) 33 5 40 280 119 179) /\
  slot (row AUDIT_ARCH_AARCH64 (-1) 33 5 40 280 119 179)
    INCUS_SECCOMP_NOTIFY_MKNOD = -1 /\
  nr (data aarch64_minus_one_req) = -1 /\
  fst (seccomp_notify_get_syscall aarch64_minus_one_req resp_zero)
  = INCUS_SECCOMP_NOTIFY_MKNOD /\
  fst (seccomp_notify_get_syscall aarch64_minus_one_req resp_zero) <> - EINVAL.
Proof.
  repeat split; try reflexivity. vm_compute. discriminate.
Qed.

(** The unknown number 1 on x86_64 is answered [-EINVAL]; the number 133
    is in the [mknod] slot of the x86_64 row. *)
Lemma classifier_slots_and_unknown_witness :
  (exists entry,
     first_row seccomp_notify_syscall_table AUDIT_ARCH_X86_64 = Some entry /\
     slot entry INCUS_SECCOMP_NOTIFY_MKNOD = 133) /\
  (exists rs eff,
     @HandleValid_in example_util seccomp_notify_syscall_table
       (example_world EmptyString None) strict_state 5
       (example_siov (example_req AUDIT_ARCH_X86_64 1 [0; 0; 0; 0; 0; 0]))
       (fun _ _ => Some (example_instance ∅)) = Some (rs, eff) /\
     resp_error rs = - EINVAL /\
     existsb is_forksyscall eff = false).
Proof.
  split.
  - destruct (@classifier_slots_and_unknown example_util
                seccomp_notify_syscall_table (example_world EmptyString None)
                strict_state (example_instance ∅) 5 (example_siov mknod_sda_req)
                (fun _ _ => Some (example_instance ∅))) as [Hslot _].
    destruct (Hslot INCUS_SECCOMP_NOTIFY_MKNOD) as (entry & Hrow & Hs & _).
    + reflexivity.
    + vm_compute. split; discriminate.
    + exists entry. split; [exact Hrow | exact Hs].
  - destruct (@classifier_slots_and_unknown example_util
                seccomp_notify_syscall_table (example_world EmptyString None)
                strict_state (example_instance ∅) 5
                (example_siov (example_req AUDIT_ARCH_X86_64 1 [0; 0; 0; 0; 0; 0]))
                (fun _ _ => Some (example_instance ∅))) as [_ Hunk].
    destruct Hunk as (_ & _ & Hvalid).
    + right. exists (row AUDIT_ARCH_X86_64 133 259 188 165 321 144 99).
      split; [reflexivity|].
      intros j Hj.
      assert (j = 0 \/ j = 1 \/ j = 2 \/ j = 3 \/ j = 4 \/ j = 5 \/ j = 6)
        as Hcases by lia.
      destruct Hcases as [->|[->|[->|[->|[->|[->| ->]]]]]]; vm_compute;
        discriminate.
    + exact (Hvalid eq_refl).
Defined.

(* ------------------------------------------------------------------ *)
(** ** mknod and mknodat *)

Lemma refuse_strict (s : State) (siov : Iovec) (e : Z) :
  SeccompListenerContinue s = false -> refuse s siov e = return_errno siov e.
Proof. unfold refuse. intros ->. reflexivity. Qed.

Lemma refuse_permissive (s : State) (siov : Iovec) (e : Z) :
  SeccompListenerContinue s = true -> refuse s siov e = continue_reply siov.
Proof. unfold refuse. intros ->. reflexivity. Qed.

Lemma device_allowed_cases (dev mode : Z) :
  device_allowed dev mode = 0 \/ device_allowed dev mode = - EPERM.
Proof.
  unfold device_allowed.
  repeat (match goal with |- context [if ?b then _ else _] => destruct b end;
          try (left; reflexivity); try (right; reflexivity)).
Qed.

(** A refused device in strict mode: [mknod] hands back whatever the
    response's error field holds, and calls no helper. *)
Lemma mknod_refused_device_strict (w : World) (s : State) (c : Instance)
    (siov : Iovec) :
  SeccompListenerContinue s = false ->
  device_allowed (to_u64 (arg (req siov) 2)) (to_u32 (arg (req siov) 1)) = - EPERM ->
  HandleMknodSyscall w s c siov = return_errno siov (resp_error (resp siov)).
Proof.
  intros Hs Hdev. unfold HandleMknodSyscall. rewrite Hdev, Hs. reflexivity.
Qed.

(** The same refusal in [mknodat] answers [-EPERM]. *)
Lemma mknodat_refused_device_strict (w : World) (s : State) (c : Instance)
    (siov : Iovec) :
  SeccompListenerContinue s = false ->
  to_i32 (arg (req siov) 0) = to_i32 AT_FDCWD ->
  device_allowed (to_u64 (arg (req siov) 3)) (to_u32 (arg (req siov) 2)) = - EPERM ->
  errno (HandleMknodatSyscall w s c siov) = - EPERM /\
  effects (HandleMknodatSyscall w s c siov) = [].
Proof.
  intros Hs Hfd Hdev. unfold HandleMknodatSyscall.
  rewrite Hfd, Z.eqb_refl. cbn [negb]. cbn [set_resp_error resp resp_error req].
  rewrite Hdev, Hs. split; reflexivity.
Qed.

(** C2.  The code at the failing input: [mknod("/dev/sda", S_IFBLK|0600,
    makedev(8,0))] on x86_64 with continue unsupported.  The device is
    refused and no helper runs, but the reply sent carries the error 0
    (and no flag) where the claim has [-EPERM]. *)
Theorem mknod_sda_strict_reply :
  device_allowed (to_u64 (arg mknod_sda_req 2)) (to_u32 (arg mknod_sda_req 1))
  = - EPERM /\
  SeccompListenerContinue strict_state = false /\
  exists rs eff,
    @HandleValid example_util (example_world "/dev/sda" None) strict_state 5
      (example_siov mknod_sda_req) (fun _ _ => Some (example_instance ∅))
    = Some (rs, eff) /\
    resp_error rs = 0 /\ resp_flags rs = 0 /\
    existsb is_forksyscall eff = false.
Proof.
  split; [reflexivity|]. split; [reflexivity|].
  eexists _, _. split; [vm_compute; reflexivity|].
  repeat split; reflexivity.
Qed.

(** C10.  [mknodat] looks at the low 32 bits of its first argument only:
    the check passes exactly for the values congruent to [AT_FDCWD]
    modulo 2^32.  Every other value is refused without a helper, with
    [-EINVAL] when continue is unsupported and with the continue flag
    otherwise; a congruent value with an allowed device and a readable
    path goes on to the device emulation. *)
Theorem mknodat_dirfd_low_32_bits (w : World) (s : State) (c : Instance)
    (siov : Iovec) :
  ((to_i32 (arg (req siov) 0) =? to_i32 AT_FDCWD) = true <->
   arg (req siov) 0 mod 2 ^ 32 = AT_FDCWD mod 2 ^ 32) /\
  (arg (req siov) 0 mod 2 ^ 32 <> AT_FDCWD mod 2 ^ 32 ->
   HandleMknodatSyscall w s c siov
   = (if SeccompListenerContinue s then continue_reply siov
      else return_errno siov (- EINVAL)) /\
   effects (HandleMknodatSyscall w s c siov) = [] /\
   (SeccompListenerContinue s = true ->
    errno (HandleMknodatSyscall w s c siov) = 0 /\
    continues (resp_out (HandleMknodatSyscall w s c siov)) = true)) /\
  (arg (req siov) 0 mod 2 ^ 32 = AT_FDCWD mod 2 ^ 32 ->
   forall cPathBuf,
     device_allowed (to_u64 (arg (req siov) 3)) (to_u32 (arg (req siov) 2)) = 0 ->
     pread_into w (memFd siov) (zeros PathMax) PathMax
       (to_i64 (arg (req siov) 1)) = Some cPathBuf ->
     HandleMknodatSyscall w s c siov
     = doDeviceSyscall w s c
         {| cMode := to_u32 (arg (req siov) 2);
            cDev := to_u64 (arg (req siov) 3);
            cPid := to_i32 (req_pid (req siov));
            mknod_path := GoString cPathBuf |}
         (set_resp_error siov 0)).
Proof.
  assert (Hiff : (to_i32 (arg (req siov) 0) =? to_i32 AT_FDCWD) = true <->
                 arg (req siov) 0 mod 2 ^ 32 = AT_FDCWD mod 2 ^ 32).
  { rewrite Z.eqb_eq. unfold to_i32. split; intros Heq.
    - assert ((arg (req siov) 0 + 2 ^ 31) mod 2 ^ 32
              = (AT_FDCWD + 2 ^ 31) mod 2 ^ 32) as Hm by lia.
      rewrite <- (Z.add_simpl_r (arg (req siov) 0) (2 ^ 31)).
      rewrite <- (Z.add_simpl_r AT_FDCWD (2 ^ 31)).
      rewrite (Zminus_mod (arg (req siov) 0 + 2 ^ 31)), Hm, <- Zminus_mod.
      reflexivity.
    - rewrite (Zplus_mod (arg (req siov) 0)), Heq, <- Zplus_mod. reflexivity. }
  split; [exact Hiff|]. split.
  - intros Hne.
    assert (Hb : (to_i32 (arg (req siov) 0) =? to_i32 AT_FDCWD) = false).
    { destruct (to_i32 (arg (req siov) 0) =? to_i32 AT_FDCWD) eqn:E;
        [|reflexivity]. exfalso. apply Hne, Hiff. reflexivity. }
    unfold HandleMknodatSyscall. rewrite Hb. cbn [negb]. unfold refuse.
    split; [reflexivity|].
    split; [destruct (SeccompListenerContinue s); reflexivity|].
    intros ->. split; [reflexivity|].
    unfold continues. cbn [continue_reply resp_out seccomp_notify_update_response
                           resp_flags].
    rewrite Z.lor_spec. apply orb_true_r.
  - intros Heq cPathBuf Hdev Hread.
    apply Hiff in Heq. unfold HandleMknodatSyscall. rewrite Heq. cbn [negb].
    cbn [set_resp_error resp resp_error req memFd]. rewrite Hdev.
    cbn [Z.eqb negb]. rewrite Hread. reflexivity.
Qed.

(** A descriptor 5 * 2^32 + (2^32 - 100) is accepted and the helper
    runs; the descriptor 3 is refused with [-EINVAL]. *)
Lemma mknodat_dirfd_low_32_bits_witness :
  effects (HandleMknodatSyscall (example_world "/dev/null" None) strict_state
             (example_instance ∅)
             (example_siov (mknodat_req (5 * 2 ^ 32 + (2 ^ 32 - 100)))))
  = [Forksyscall [ "forksyscall"; "mknod"; "4242"; "3"; "/dev/null"; "8630";
                   "259"; "0"; "0"; "0"; "0" ]] /\
  HandleMknodatSyscall (example_world "/dev/null" None) strict_state
    (example_instance ∅) (example_siov (mknodat_req 3))
  = return_errno (example_siov (mknodat_req 3)) (- EINVAL).
Proof.
  destruct (mknodat_dirfd_low_32_bits (example_world "/dev/null" None)
              strict_state (example_instance ∅)
              (example_siov (mknodat_req (5 * 2 ^ 32 + (2 ^ 32 - 100)))))
    as (_ & _ & Hok).
  destruct (mknodat_dirfd_low_32_bits (example_world "/dev/null" None)
              strict_state (example_instance ∅)
              (example_siov (mknodat_req 3)))
    as (_ & Hno & _).
  split.
  - rewrite (Hok eq_refl _ eq_refl eq_refl). vm_compute. reflexivity.
  - destruct Hno as (Hr & _); [vm_compute; discriminate | exact Hr].
Defined.

(* ------------------------------------------------------------------ *)
(** ** sched_setscheduler and setxattr *)

(** C3.  The code at the failing input: [sched_setscheduler(1, -1, p)]
    by the root of the namespace, continue unsupported.  The policy
    tested is the zero field of the fresh argument record, so the
    request is not refused: the helper is called with the policy -1 and
    the reply carries the error 0, where the claim has [-EINVAL] and no
    helper. *)
Theorem sched_negative_policy_reaches_helper :
  to_i32 (arg sched_negative_policy_req 1) = -1 /\
  SeccompListenerContinue strict_state = false /\
  exists rs eff,
    @HandleValid example_util (example_world EmptyString None) strict_state 5
      (example_siov sched_negative_policy_req)
      (fun _ _ => Some (example_instance ∅))
    = Some (rs, eff) /\
    resp_error rs = 0 /\
    head eff = Some (Forksyscall [ "forksyscall"; "sched_setscheduler"; "4242";
                                   "3"; "1"; "1"; "-1"; "0" ]).
Proof.
  split; [reflexivity|]. split; [reflexivity|].
  eexists _, _. split; [vm_compute; reflexivity|].
  split; reflexivity.
Qed.




(* ------------------------------------------------------------------ *)
(** ** The continue flag when continue is unsupported *)

Lemma mknod_keeps_flags (w : World) (s : State) (c : Instance) (siov : Iovec) :
  SeccompListenerContinue s = false ->
  resp_flags (resp_out (HandleMknodSyscall w s c siov)) = resp_flags (resp siov).
Proof.
  intros Hs. unfold HandleMknodSyscall, refuse, doDeviceSyscall. rewrite Hs.
  split_matches; reflexivity.
Qed.

Lemma mknodat_keeps_flags (w : World) (s : State) (c : Instance) (siov : Iovec) :
  SeccompListenerContinue s = false ->
  resp_flags (resp_out (HandleMknodatSyscall w s c siov)) = resp_flags (resp siov).
Proof.
  intros Hs. unfold HandleMknodatSyscall, refuse, doDeviceSyscall. rewrite Hs.
  split_matches; reflexivity.
Qed.

Lemma sched_keeps_flags (w : World) (s : State) (c : Instance) (siov : Iovec) :
  SeccompListenerContinue s = false ->
  resp_flags (resp_out (HandleSchedSetschedulerSyscall w s c siov))
  = resp_flags (resp siov).
Proof.
  intros Hs. unfold HandleSchedSetschedulerSyscall, refuse. rewrite Hs.
  split_matches; reflexivity.
Qed.

Lemma setxattr_read_args_done (w : World) (s : State) (c : Instance)
    (siov : Iovec) (r : Reply) :
  SeccompListenerContinue s = false ->
  setxattr_read_args w s c siov = inl (Returned r) ->
  resp_out r = resp siov /\ effects r = [].
Proof.
  intros Hs Hr. unfold setxattr_read_args, refuse in Hr. rewrite Hs in Hr.
  repeat match type of Hr with
         | context [match ?x with _ => _ end] => destruct x eqn:?
         end;
    inversion Hr; subst; split; reflexivity.
Qed.

Lemma setxattr_keeps_flags (w : World) (s : State) (c : Instance)
    (siov : Iovec) (r : Reply) :
  SeccompListenerContinue s = false ->
  HandleSetxattrSyscall w s c siov = Returned r ->
  resp_flags (resp_out r) = resp_flags (resp siov).
Proof.
  intros Hs. unfold HandleSetxattrSyscall.
  destruct (setxattr_read_args w s c siov) as [done|[pidFdNr a]] eqn:Hargs.
  - intros ->.
    destruct (setxattr_read_args_done w s c siov r Hs Hargs) as [-> _].
    reflexivity.
  - intros Hr. inversion Hr; subst.
    unfold setxattr_emulate, setxattr_forksyscall. rewrite Hs.
    split_matches; reflexivity.
Qed.

Section StrictMode.
Context `{SharedUtil}.

(** C1 (as amended).  While continue is unsupported, the emulators of
    [mknod], [mknodat], [setxattr] and [sched_setscheduler] leave the
    flags of the response as they found them, and the reply the
    dispatcher sends for a request classified as one of the four carries
    the flags of the request, to which no continue flag was added. *)
Theorem strict_mode_keeps_flags (w : World) (s : State) (c : Instance)
    (siov : Iovec) :
  SeccompListenerContinue s = false ->
  resp_flags (resp_out (HandleMknodSyscall w s c siov)) = resp_flags (resp siov) /\
  resp_flags (resp_out (HandleMknodatSyscall w s c siov)) = resp_flags (resp siov) /\
  (forall r, HandleSetxattrSyscall w s c siov = Returned r ->
             resp_flags (resp_out r) = resp_flags (resp siov)) /\
  resp_flags (resp_out (HandleSchedSetschedulerSyscall w s c siov))
  = resp_flags (resp siov) /\
  (forall tbl fd findPID rs eff,
     In (fst (seccomp_notify_get_syscall_in tbl (req siov) (resp siov)))
        [ INCUS_SECCOMP_NOTIFY_MKNOD; INCUS_SECCOMP_NOTIFY_MKNODAT;
          INCUS_SECCOMP_NOTIFY_SETXATTR;
          INCUS_SECCOMP_NOTIFY_SCHED_SETSCHEDULER ] ->
     findPID (to_i32 (monitor_pid (msg siov))) s = Some c ->
     HandleValid_in tbl w s fd siov findPID = Some (rs, eff) ->
     resp_flags rs = req_flags (req siov)).
Proof.
  intros Hs.
  split; [apply mknod_keeps_flags, Hs|].
  split; [apply mknodat_keeps_flags, Hs|].
  split; [intros r; apply setxattr_keeps_flags, Hs|].
  split; [apply sched_keeps_flags, Hs|].
  intros tbl fd findPID rs eff Hk Hfind.
  unfold HandleValid_in. rewrite Hfind.
  unfold handleSyscall_in, seccomp_notify_get_syscall_in in *.
  cbn [fst] in Hk.
  set (r0 := {| resp_id := req_id (req siov); resp_val := 0; resp_error := 0;
                resp_flags := req_flags (req siov) |}) in *.
  assert (Hflags : forall r,
            resp_flags (resp_out r) = resp_flags (resp (set_resp siov r0)) ->
            forall rs' eff',
              Some (let '(rs, sent) :=
                      SendSeccompIovec fd siov (resp_out r) (to_i32 (errno r)) 0 in
                    (rs, (effects r ++ sent ++ PutSeccompIovec siov)%list))
              = Some (rs', eff') ->
              resp_flags rs' = req_flags (req siov)).
  { intros r Hr rs' eff' Hsent. cbn in Hsent. inversion Hsent; subst.
    cbn [resp_flags seccomp_notify_update_response].
    rewrite Z.lor_0_r, Hr. reflexivity. }
  cbn [In] in Hk.
  destruct Hk as [Hk|[Hk|[Hk|[Hk|[]]]]]; rewrite <- Hk; cbn [Z.eqb];
    unfold incusSeccompNotifyMknod, incusSeccompNotifyMknodat,
      incusSeccompNotifySetxattr, incusSeccompNotifyMount,
      incusSeccompNotifyBpf, incusSeccompNotifySchedSetscheduler;
    cbn [Z.eqb INCUS_SECCOMP_NOTIFY_MKNOD INCUS_SECCOMP_NOTIFY_MKNODAT
         INCUS_SECCOMP_NOTIFY_SETXATTR INCUS_SECCOMP_NOTIFY_MOUNT
         INCUS_SECCOMP_NOTIFY_BPF INCUS_SECCOMP_NOTIFY_SCHED_SETSCHEDULER
         Pos.eqb].
  - apply Hflags, mknod_keeps_flags, Hs.
  - apply Hflags, mknodat_keeps_flags, Hs.
  - destruct (HandleSetxattrSyscall w s c (set_resp siov r0)) as [r|] eqn:Hsx;
      [|discriminate].
    apply Hflags, (setxattr_keeps_flags w s c _ r Hs Hsx).
  - apply Hflags, sched_keeps_flags, Hs.
Qed.

End StrictMode.

(** C1 (as stated) fails: with continue unsupported, a [mount] request
    for a filesystem the instance does not allow is answered with the
    continue flag. *)
Lemma mount_continues_in_strict_mode :
  SeccompListenerContinue strict_state = false /\
  fst (seccomp_notify_get_syscall mount_req resp_zero)
  = INCUS_SECCOMP_NOTIFY_MOUNT /\
  exists rs eff,
    @HandleValid example_util (example_world EmptyString None) strict_state 5
      (example_siov mount_req) (fun _ _ => Some (example_instance ∅))
    = Some (rs, eff) /\
    resp_error rs = 0 /\
    resp_flags rs = seccompUserNotifFlagContinue /\
    continues rs = true.
Proof.
  split; [reflexivity|]. split; [reflexivity|].
  eexists _, _. split; [vm_compute; reflexivity|].
  repeat split; reflexivity.
Qed.

(** The refused [mknod] of /dev/sda and the [sched_setscheduler] request
    are answered without the continue flag. *)
Lemma strict_mode_keeps_flags_witness :
  resp_flags (resp_out (HandleMknodSyscall (example_world "/dev/sda" None)
                          strict_state (example_instance ∅)
                          (example_siov mknod_sda_req))) = 0 /\
  resp_flags (resp_out (HandleSchedSetschedulerSyscall
                          (example_world EmptyString None) strict_state
                          (example_instance ∅)
                          (example_siov sched_negative_policy_req))) = 0.
Proof.
  split.
  - destruct (@strict_mode_keeps_flags example_util
                (example_world "/dev/sda" None) strict_state
                (example_instance ∅) (example_siov mknod_sda_req) eq_refl)
      as (Hmknod & _).
    exact Hmknod.
  - destruct (@strict_mode_keeps_flags example_util
                (example_world EmptyString None) strict_state
                (example_instance ∅) (example_siov sched_negative_policy_req)
                eq_refl)
      as (_ & _ & _ & Hsched & _).
    exact Hsched.
Defined.

(* ------------------------------------------------------------------ *)
(** ** The device fallback *)

Lemma ParseInt_range (s : string) (e : Z) :
  ParseInt s = Some e -> - 2 ^ 63 <= e < 2 ^ 63.
Proof.
  unfold ParseInt. destruct s as [|ch rest]; [discriminate|].
  destruct (if Ascii.eqb ch "+"%char then (false, rest)
            else if Ascii.eqb ch "-"%char then (true, rest)
            else (false, String ch rest)) as [neg body].
  destruct (str_empty body); [discriminate|].
  destruct (parse_digits body 0) as [un|] eqn:Hd; [|discriminate].
  assert (Hnn : forall b acc r, 0 <= acc -> parse_digits b acc = Some r -> 0 <= r).
  { induction b as [|d b IH]; simpl; intros acc r Hacc Hr.
    - inversion Hr; subst. exact Hacc.
    - unfold digit_of in Hr.
      destruct ((48 <=? Z.of_N (N_of_ascii d)) && (Z.of_N (N_of_ascii d) <=? 57)) eqn:Hdig;
        [|discriminate].
      apply andb_true_iff in Hdig. destruct Hdig as [H1 H2].
      apply Z.leb_le in H1. eapply IH; [|exact Hr]. lia. }
  assert (Hun : 0 <= un) by (eapply Hnn; [|exact Hd]; lia).
  destruct neg.
  - destruct (Z.leb_spec un (2 ^ 63)); [|discriminate]. intros [= <-]. lia.
  - destruct (Z.ltb_spec un (2 ^ 63)); [|discriminate]. intros [= <-]. lia.
Qed.

(** C8 (as amended).  For an accepted device request whose helper fails
    and prints the errno [e]: when [e] is [ENOMEDIUM] the device is handed
    to the instance and the answer is 0 if the instance takes it and
    [-EPERM] if it does not; when [e] is [ENOANO] the answer is [-EPERM]
    without the fallback; for every other positive [e] the answer is
    [-e] without the fallback. *)
Theorem device_fallback (w : World) (s : State) (c : Instance)
    (a : MknodArgs) (siov : Iovec) (uid gid fsuid fsgid : Z)
    (stderr : string) (e : Z) :
  TaskIDs w (cPid a) = Some (uid, gid, fsuid, fsgid) ->
  RunCommandSplit w
    (forkmknod_argv (mknod_device a) (MakePidFd w s (cPid a)) uid gid fsuid fsgid)
  = Some stderr ->
  Atoi stderr = Some e ->
  (e = ENOMEDIUM ->
   existsb is_insert (effects (doDeviceSyscall w s c a siov)) = true /\
   errno (doDeviceSyscall w s c a siov)
   = match InsertSeccompUnixDevice c ("forkmknod.unix." +:+ fmt_d (cPid a))
             (mknod_device a) (cPid a) with
     | None => 0
     | Some _ => - EPERM
     end) /\
  (e = ENOANO ->
   existsb is_insert (effects (doDeviceSyscall w s c a siov)) = false /\
   errno (doDeviceSyscall w s c a siov) = - EPERM) /\
  (0 < e -> e <> ENOMEDIUM -> e <> ENOANO ->
   existsb is_insert (effects (doDeviceSyscall w s c a siov)) = false /\
   errno (doDeviceSyscall w s c a siov) = - e).
Proof.
  intros Hids Hrun Hatoi.
  pose proof (ParseInt_range _ _ Hatoi) as Hrange.
  unfold doDeviceSyscall, CallForkmknod. rewrite Hids, Hrun.
  unfold forksyscall_errno. rewrite Hatoi.
  split; [|split].
  - intros ->. cbn [Z.eqb ENOMEDIUM ENOANO Pos.eqb].
    change (to_i64 (- 123) =? - ENOMEDIUM) with true. cbn [negb].
    destruct (InsertSeccompUnixDevice c _ _ _); split; reflexivity.
  - intros ->. split; reflexivity.
  - intros Hpos Hm Ha.
    destruct (Z.eqb_spec e ENOANO) as [|_]; [contradiction|].
    assert (Hi : to_i64 (- e) = - e).
    { unfold to_i64.
      change (2 ^ 63) with 9223372036854775808 in *.
      change (2 ^ 64) with 18446744073709551616.
      rewrite Z.mod_small; lia. }
    rewrite Hi.
    destruct (Z.eqb_spec (- e) (- ENOMEDIUM)) as [Heq|_]; [lia|].
    split; reflexivity.
Qed.

(** C8 (as stated) fails twice: an instance that refuses the device
    turns [ENOMEDIUM] into [-EPERM], not into success; and the errno
    [ENOANO] is answered [-EPERM], not [-ENOANO]. *)
Lemma device_fallback_not_always_success :
  Atoi "123" = Some ENOMEDIUM /\
  errno (doDeviceSyscall (example_world EmptyString (Some "123")) strict_state
           failing_instance null_device_args
           (example_siov mknod_sda_req)) = - EPERM /\
  Atoi "55" = Some ENOANO /\
  errno (doDeviceSyscall (example_world EmptyString (Some "55")) strict_state
           (example_instance ∅) null_device_args
           (example_siov mknod_sda_req)) = - EPERM /\
  - EPERM <> - ENOANO.
Proof.
  repeat split; try (vm_compute; reflexivity). vm_compute. discriminate.
Qed.

(** The helper prints 123: the device is inserted and the answer is 0.
    The helper prints 13: the answer is -13 and nothing is inserted. *)
Lemma device_fallback_witness :
  (existsb is_insert
     (effects (doDeviceSyscall (example_world EmptyString (Some "123"))
                 strict_state (example_instance ∅) null_device_args
                 (example_siov mknod_sda_req))) = true /\
   errno (doDeviceSyscall (example_world EmptyString (Some "123"))
            strict_state (example_instance ∅) null_device_args
            (example_siov mknod_sda_req)) = 0) /\
  (existsb is_insert
     (effects (doDeviceSyscall (example_world EmptyString (Some "13"))
                 strict_state (example_instance ∅) null_device_args
                 (example_siov mknod_sda_req))) = false /\
   errno (doDeviceSyscall (example_world EmptyString (Some "13"))
            strict_state (example_instance ∅) null_device_args
            (example_siov mknod_sda_req)) = - 13).
Proof.
  split.
  - destruct (device_fallback (example_world EmptyString (Some "123"))
                strict_state (example_instance ∅) null_device_args
                (example_siov mknod_sda_req) 0 0 0 0 "123" 123
                eq_refl eq_refl eq_refl) as (Hmedium & _ & _).
    exact (Hmedium eq_refl).
  - destruct (device_fallback (example_world EmptyString (Some "13"))
                strict_state (example_instance ∅) null_device_args
                (example_siov mknod_sda_req) 0 0 0 0 "13" 13
                eq_refl eq_refl eq_refl) as (_ & _ & Hother).
    apply Hother; [lia | discriminate | discriminate].
Defined.

(* ------------------------------------------------------------------ *)
(** ** Invalid frames *)





(* ------------------------------------------------------------------ *)
(** ** The policy compiler *)









Section PolicyProperties.
Context `{SharedUtil}.

Lemma intercept_range_none (s : State) (config : gmap string string)
    (order : list (string * (State -> option error))) (needed : bool) :
  (forall k check, In (k, check) order -> IsFalseOrEmpty (cfg_get config k) = true) ->
  intercept_range s config order needed = (needed, None).
Proof.
  revert needed. induction order as [|[k check] rest IH]; intros needed Hall;
    simpl; [reflexivity|].
  rewrite (Hall k check (or_introl eq_refl)).
  apply IH. intros k' check' Hin. apply (Hall k' check'). right. exact Hin.
Qed.



(** C6 (as amended).  Without a raw override, without an allow-list,
    with every intercept key false or empty, with [deny_default] present
    and not true, with compat-deny not enabled and without deny entries,
    the compiler returns exactly the header, the mode line in the
    spelling the runtime supports, and the [[all]] marker. *)
Theorem bare_deny_policy (order : list (string * (State -> option error)))
    (s : State) (c : Instance) (v : string) :
  order ≡ₚ intercept_keys ->
  cfg_get (ExpandedConfig c) "raw.seccomp" = EmptyString ->
  cfg_get (ExpandedConfig c) "security.syscalls.allow" = EmptyString ->
  cfg_get (ExpandedConfig c) "security.syscalls.whitelist" = EmptyString ->
  (forall k check, In (k, check) intercept_keys ->
                   IsFalseOrEmpty (cfg_get (ExpandedConfig c) k) = true) ->
  ExpandedConfig c !! "security.syscalls.deny_default" = Some v ->
  IsTrue v = false ->
  IsTrue (cfg_get2 (ExpandedConfig c) "security.syscalls.deny_compat"
            "security.syscalls.blacklist_compat") = false ->
  cfg_get2 (ExpandedConfig c) "security.syscalls.deny"
    "security.syscalls.blacklist" = EmptyString ->
  seccompGetPolicyContent order s c
  = inl (seccompHeader +:+
         unlines [ if lxc_feature s "seccomp_allow_deny_syntax"
                   then "denylist" else "blacklist";
                   "[all]" ]).
Proof.
  intros Hperm Hraw Hallow Hwhite Hkeys Hdefault Hv Hcompat Hdeny.
  assert (Hni : InstanceNeedsIntercept order s c = (false, None)).
  { unfold InstanceNeedsIntercept.
    rewrite (intercept_range_none s (ExpandedConfig c) order false).
    - destruct (IsPrivileged c), (RunningInUserNS s); reflexivity.
    - intros k check Hin. apply (Hkeys k check).
      apply (Permutation_in _ Hperm). exact Hin. }
  assert (Hld : cfg_lookup (ExpandedConfig c) "security.syscalls.deny_default"
                = (v, true)).
  { unfold cfg_lookup. rewrite Hdefault. reflexivity. }
  unfold seccompGetPolicyContent.
  rewrite Hraw, Hallow, Hni, Hld. cbn [str_empty negb]. rewrite Hwhite.
  cbn [str_empty negb orb]. rewrite Hv.
  unfold cfg_get2 in Hcompat, Hdeny. unfold cfg_lookup.
  destruct (ExpandedConfig c !! "security.syscalls.deny_compat") as [vc|];
    cbn [negb]; rewrite Hcompat;
    destruct (ExpandedConfig c !! "security.syscalls.deny") as [vd|];
    cbn [negb]; rewrite Hdeny; cbn [str_empty negb];
    destruct (lxc_feature s "seccomp_allow_deny_syntax"); reflexivity.
Qed.



End PolicyProperties.



(** C6 (as stated) fails: deny entries are appended to the three lines
    although nothing is intercepted and [deny_default] is false. *)
Lemma deny_entries_are_appended :
  cfg_get deny_config "raw.seccomp" = EmptyString /\
  cfg_get deny_config "security.syscalls.allow" = EmptyString /\
  cfg_get deny_config "security.syscalls.whitelist" = EmptyString /\
  forallb (fun kc => @IsFalseOrEmpty example_util (cfg_get deny_config (fst kc)))
    intercept_keys = true /\
  deny_config !! "security.syscalls.deny_default" = Some "false" /\
  @IsTrue example_util "false" = false /\
  @seccompGetPolicyContent example_util intercept_keys strict_state
    (example_instance deny_config)
  = inl ((seccompHeader +:+ unlines [ "denylist"; "[all]" ]) +:+ "chroot errno 1") /\
  (seccompHeader +:+ unlines [ "denylist"; "[all]" ]) +:+ "chroot errno 1"
  <> seccompHeader +:+ unlines [ "denylist"; "[all]" ].
Proof.
  repeat split; try (vm_compute; reflexivity). vm_compute. discriminate.
Qed.

(** The configuration that only sets [deny_default] to false. *)
Lemma bare_deny_policy_witness :
  @seccompGetPolicyContent example_util intercept_keys strict_state
    (example_instance bare_config)
  = inl (seccompHeader +:+ unlines [ "denylist"; "[all]" ]).
Proof.
  apply (@bare_deny_policy example_util intercept_keys strict_state
           (example_instance bare_config) "false").
  - reflexivity.
  - reflexivity.
  - reflexivity.
  - reflexivity.
  - intros k check Hin. cbn [In intercept_keys] in Hin.
    destruct Hin as [Hin|[Hin|[Hin|[Hin|[Hin|[Hin|[]]]]]]];
      injection Hin as <- <-; vm_compute; reflexivity.
  - reflexivity.
  - reflexivity.
  - vm_compute. reflexivity.
  - vm_compute. reflexivity.
Defined.

(* ================================================================== *)
(** * Further properties *)

(* ------------------------------------------------------------------ *)
(** ** Classifier and device allow-set *)

Lemma table_round_trip_check :
  forallb (fun entry =>
             forallb (fun k =>
                        table_scan seccomp_notify_syscall_table
                          (to_u32 (arch entry)) (slot entry k) =? k)
                     [0; 1; 2; 3; 4; 5; 6])
          seccomp_notify_syscall_table = true.
Proof. vm_compute. reflexivity. Qed.

(** X1.  Every slot of every row of the table is recovered by the
    classifier: a request that carries the architecture of a row and the
    number in the row's slot for a logical syscall is classified as that
    syscall.  Within a row no two slots hold the same number, the
    placeholder -1 included. *)
Theorem classifier_recovers_every_slot (entry : incus_seccomp_data_arch)
    (k : Z) (rq : seccomp_notif) (rs : seccomp_notif_resp) :
  In entry seccomp_notify_syscall_table ->
  0 <= k <= 6 ->
  data_arch (data rq) = to_u32 (arch entry) ->
  nr (data rq) = slot entry k ->
  fst (seccomp_notify_get_syscall rq rs) = k.
Proof.
  intros Hin Hk Harch Hnr.
  unfold seccomp_notify_get_syscall, seccomp_notify_get_syscall_in. cbn [fst].
  rewrite Harch, Hnr.
  pose proof table_round_trip_check as Hall.
  rewrite forallb_forall in Hall. specialize (Hall entry Hin).
  rewrite forallb_forall in Hall.
  apply Z.eqb_eq, Hall.
  cbn [In]. lia.
Qed.

(** The number 165 on x86_64 is [mount]. *)
Lemma classifier_recovers_every_slot_witness :
  fst (seccomp_notify_get_syscall mount_req resp_zero)
  = INCUS_SECCOMP_NOTIFY_MOUNT.
Proof.
  apply (classifier_recovers_every_slot
           (row AUDIT_ARCH_X86_64 133 259 188 165 321 144 99)).
  - cbn [In seccomp_notify_syscall_table]. tauto.
  - vm_compute. split; discriminate.
  - reflexivity.
  - reflexivity.
Defined.


Lemma device_allowed_iff (dev mode : Z) :
  device_allowed dev mode = 0 <->
  Z.land mode S_IFMT = S_IFCHR /\ In dev allowed_devices.
Proof.
  unfold device_allowed, allowed_devices. cbn [In].
  destruct (Z.eqb_spec (Z.land mode S_IFMT) S_IFCHR) as [Hm|Hm].
  - repeat match goal with
           | |- context [if ?x =? ?y then _ else _] =>
               destruct (Z.eqb_spec x y) as [->|?];
               [split; [intros _; split; [exact Hm | auto 10] | reflexivity]|]
           end.
    split; [intros Hc; vm_compute in Hc; discriminate Hc|].
    intros [_ Hin]. exfalso.
    repeat destruct Hin as [Hin|Hin]; try (symmetry in Hin; contradiction).
    exact Hin.
  - split; [intros Hc; vm_compute in Hc; discriminate Hc|].
    intros [Hc _]. contradiction.
Qed.

(** X2.  A device outside the allow-set (not a character device, or a
    device number that is not one of the eight) never reaches the helper,
    whether continue is supported or not: [mknod] and [mknodat] return
    without any effect. *)
Theorem refused_devices_never_reach_helper (w : World) (s : State)
    (c : Instance) (siov : Iovec) :
  (~ (Z.land (to_u32 (arg (req siov) 1)) S_IFMT = S_IFCHR /\
      In (to_u64 (arg (req siov) 2)) allowed_devices) ->
   effects (HandleMknodSyscall w s c siov) = []) /\
  (~ (Z.land (to_u32 (arg (req siov) 2)) S_IFMT = S_IFCHR /\
      In (to_u64 (arg (req siov) 3)) allowed_devices) ->
   effects (HandleMknodatSyscall w s c siov) = []).
Proof.
  split; intros Hno.
  - unfold HandleMknodSyscall.
    destruct (device_allowed_cases (to_u64 (arg (req siov) 2))
                (to_u32 (arg (req siov) 1))) as [H0|Hp].
    + exfalso. apply Hno, device_allowed_iff, H0.
    + rewrite Hp. cbn [Z.ltb Z.compare Z.opp EPERM].
      destruct (SeccompListenerContinue s); reflexivity.
  - unfold HandleMknodatSyscall.
    destruct (negb (to_i32 (arg (req siov) 0) =? to_i32 AT_FDCWD)).
    + unfold refuse. destruct (SeccompListenerContinue s); reflexivity.
    + cbn [set_resp_error resp resp_error].
      destruct (device_allowed_cases (to_u64 (arg (req siov) 3))
                  (to_u32 (arg (req siov) 2))) as [H0|Hp].
      * exfalso. apply Hno, device_allowed_iff, H0.
      * rewrite Hp. cbn [Z.eqb Z.opp EPERM negb].
        destruct (SeccompListenerContinue s); reflexivity.
Qed.

(** The block device 8:0, with continue supported. *)
Lemma refused_devices_never_reach_helper_witness :
  effects (HandleMknodSyscall (example_world "/dev/sda" None) permissive_state
             (example_instance ∅) (example_siov mknod_sda_req)) = [].
Proof.
  destruct (refused_devices_never_reach_helper (example_world "/dev/sda" None)
              permissive_state (example_instance ∅)
              (example_siov mknod_sda_req)) as [Hmknod _].
  apply Hmknod. intros [Hmode _]. vm_compute in Hmode. discriminate Hmode.
Defined.

(* ------------------------------------------------------------------ *)
(** ** Accepted requests *)

(** X3.  An allowed device whose path can be read, requested by a
    process whose credentials can be read, reaches the helper: it is
    called once, with the caller's pid, the pidfd number, the path read
    from the caller, the mode and the device number of the request in
    decimal, and the caller's four ids.  When the helper exits with
    status zero the answer is 0 and the response is left as it was. *)
Theorem accepted_mknod_calls_helper (w : World) (s : State) (c : Instance)
    (siov : Iovec) (cPathBuf : string) (uid gid fsuid fsgid : Z) :
  device_allowed (to_u64 (arg (req siov) 2)) (to_u32 (arg (req siov) 1)) = 0 ->
  pread_into w (memFd siov) (zeros PathMax) PathMax (to_i64 (arg (req siov) 0))
  = Some cPathBuf ->
  TaskIDs w (to_i32 (req_pid (req siov))) = Some (uid, gid, fsuid, fsgid) ->
  head (effects (HandleMknodSyscall w s c siov))
  = Some (Forksyscall
            [ "forksyscall"; "mknod"; fmt_d (to_i32 (req_pid (req siov)));
              fmt_d (MakePidFd w s (to_i32 (req_pid (req siov))));
              GoString cPathBuf; fmt_d (to_u32 (arg (req siov) 1));
              fmt_d (to_u64 (arg (req siov) 2));
              fmt_d uid; fmt_d gid; fmt_d fsuid; fmt_d fsgid ]) /\
  (RunCommandSplit w
     [ "forksyscall"; "mknod"; fmt_d (to_i32 (req_pid (req siov)));
       fmt_d (MakePidFd w s (to_i32 (req_pid (req siov))));
       GoString cPathBuf; fmt_d (to_u32 (arg (req siov) 1));
       fmt_d (to_u64 (arg (req siov) 2));
       fmt_d uid; fmt_d gid; fmt_d fsuid; fmt_d fsgid ] = None ->
   errno (HandleMknodSyscall w s c siov) = 0 /\
   resp_out (HandleMknodSyscall w s c siov) = resp siov /\
   length (effects (HandleMknodSyscall w s c siov)) = 1%nat).
Proof.
  intros Hdev Hread Hids.
  unfold HandleMknodSyscall. rewrite Hdev. cbn [Z.ltb Z.compare]. rewrite Hread.
  unfold doDeviceSyscall, CallForkmknod. cbn [cPid]. rewrite Hids.
  unfold forkmknod_argv.
  change (cfg_get (mknod_device ?a) "pid") with (fmt_d (cPid a)).
  change (cfg_get (mknod_device ?a) "path") with (mknod_path a).
  change (cfg_get (mknod_device ?a) "mode_t") with (fmt_d (cMode a)).
  change (cfg_get (mknod_device ?a) "dev_t") with (fmt_d (cDev a)).
  cbn [cPid cMode cDev mknod_path].
  split.
  - destruct (RunCommandSplit w _) as [stderr|]; cbn [fst snd].
    + destruct (negb (forksyscall_errno stderr =? - ENOMEDIUM));
        [reflexivity|].
      destruct (InsertSeccompUnixDevice c _ _ _); reflexivity.
    + reflexivity.
  - intros ->. repeat split.
Qed.

(** Scenario: [mknod] of /dev/null, the helper succeeds. *)
Lemma accepted_mknod_calls_helper_witness :
  HandleMknodSyscall (example_world "/dev/null" None) strict_state
    (example_instance ∅) (example_siov mknod_null_req)
  = {| errno := 0; resp_out := resp_zero;
       effects := [Forksyscall [ "forksyscall"; "mknod"; "4242"; "3";
                                 "/dev/null"; "8630"; "259"; "0"; "0"; "0";
                                 "0" ]] |}.
Proof.
  destruct (accepted_mknod_calls_helper (example_world "/dev/null" None)
              strict_state (example_instance ∅) (example_siov mknod_null_req)
              (GoString "/dev/null" +:+ zeros (PathMax - 9)) 0 0 0 0)
    as [Hhead Hok].
  - reflexivity.
  - vm_compute. reflexivity.
  - reflexivity.
  - destruct (Hok eq_refl) as (He & Hr & Hl).
    destruct (HandleMknodSyscall (example_world "/dev/null" None) strict_state
                (example_instance ∅) (example_siov mknod_null_req))
      as [e r [|eff1 [|eff2 effs]]]; cbn in *; try discriminate.
    inversion Hhead; subst. vm_compute. reflexivity.
Defined.

(** X4.  The pair ("trusted.overlay.opaque", "y") is emulated whether
    continue is supported or not: the helper is called once with the
    whiteout argument 1, and its verdict is the answer. *)
Theorem setxattr_whiteout_calls_helper (w : World) (s : State) (c : Instance)
    (siov : Iovec) (pidFdNr : Z) (a : SetxattrArgs) :
  setxattr_read_args w s c siov = inr (pidFdNr, a) ->
  sx_name a = "trusted.overlay.opaque" ->
  sx_value a = "y" ->
  exists r,
    HandleSetxattrSyscall w s c siov = Returned r /\
    effects r = [Forksyscall (setxattr_argv pidFdNr a 1)] /\
    setxattr_argv pidFdNr a 1 !! 11%nat = Some "1" /\
    resp_out r = resp siov /\
    errno r = match RunCommandSplit w (setxattr_argv pidFdNr a 1) with
              | Some stderr => forksyscall_errno stderr
              | None => 0
              end.
Proof.
  intros Hargs Hn Hv. unfold HandleSetxattrSyscall. rewrite Hargs.
  unfold setxattr_emulate. rewrite Hn, Hv. cbn [String.eqb Ascii.eqb Bool.eqb andb].
  unfold setxattr_forksyscall.
  destruct (RunCommandSplit w (setxattr_argv pidFdNr a 1)) as [stderr|];
    eexists; (split; [reflexivity|]); repeat split; reflexivity.
Qed.

(** [setxattr(p, "trusted.overlay.opaque", "y", 1, 0)] with continue
    supported. *)
Lemma setxattr_whiteout_calls_helper_witness :
  exists r,
    HandleSetxattrSyscall overlay_world permissive_state (example_instance ∅)
      (example_siov setxattr_req) = Returned r /\
    effects r = [Forksyscall [ "forksyscall"; "setxattr"; "4242"; "3"; "0";
                               "0"; "0"; "0"; "trusted.overlay.opaque";
                               "trusted.overlay.opaque"; "0"; "1"; "1"; "y" ]].
Proof.
  destruct (setxattr_whiteout_calls_helper overlay_world permissive_state
              (example_instance ∅) (example_siov setxattr_req) 3
              {| sx_nsuid := 0; sx_nsgid := 0; sx_nsfsuid := 0;
                 sx_nsfsgid := 0; sx_size := 1; sx_pid := 4242;
                 sx_path := "trusted.overlay.opaque";
                 sx_name := "trusted.overlay.opaque"; sx_value := "y";
                 sx_flags := 0 |}) as (r & Hr & Heff & _).
  - vm_compute. reflexivity.
  - reflexivity.
  - reflexivity.
  - exists r. split; [exact Hr|]. rewrite Heff. vm_compute. reflexivity.
Defined.

(* ------------------------------------------------------------------ *)
(** ** Edge cases of the emulators *)

Section SetxattrSize.
Context `{SharedUtil}.

(** X5.  A [setxattr] whose size argument, read as a signed 64-bit
    number, is zero or negative makes the emulator panic once the
    credentials, the path and the name have been read ([make] of a
    negative length, or the address of the first byte of an empty
    slice): the emulator does not return, and no reply is sent for the
    frame. *)
Theorem setxattr_nonpositive_size_panics (w : World) (s : State)
    (c : Instance) (siov : Iovec) (ids : Z * Z * Z * Z) (idmapset : IdmapSet)
    (buf1 buf2 : string) :
  TaskIDs w (req_pid (req siov)) = Some ids ->
  CurrentIdmap c = Some idmapset ->
  pread_into w (memFd siov) (zeros PathMax) PathMax (to_i64 (arg (req siov) 0))
  = Some buf1 ->
  pread_into w (memFd siov) buf1 PathMax (to_i64 (arg (req siov) 1))
  = Some buf2 ->
  to_i64 (arg (req siov) 3) <= 0 ->
  HandleSetxattrSyscall w s c siov = Panicked /\
  (forall tbl fd findPID,
     fst (seccomp_notify_get_syscall_in tbl (req siov) (resp siov))
     = INCUS_SECCOMP_NOTIFY_SETXATTR ->
     findPID (to_i32 (monitor_pid (msg siov))) s = Some c ->
     HandleValid_in tbl w s fd siov findPID = None).
Proof.
  intros Hids Hmap Hr1 Hr2 Hsize.
  assert (Hpanic : forall siov', req siov' = req siov -> memFd siov' = memFd siov ->
                                 HandleSetxattrSyscall w s c siov' = Panicked).
  { intros siov' Hreq Hfd.
    unfold HandleSetxattrSyscall, setxattr_read_args.
    rewrite Hreq, Hfd, Hids, Hmap.
    destruct ids as [[[uid gid] fsuid] fsgid].
    destruct (ShiftFromNS idmapset uid gid) as [nsuid nsgid].
    destruct (ShiftFromNS idmapset fsuid fsgid) as [nsfsuid nsfsgid].
    rewrite Hr1, Hr2.
    destruct (Z.leb_spec (to_i64 (arg (req siov) 3)) 0); [reflexivity|lia]. }
  split; [apply Hpanic; reflexivity|].
  intros tbl fd findPID Hk Hfind.
  unfold HandleValid_in. rewrite Hfind.
  unfold handleSyscall_in, seccomp_notify_get_syscall_in in *. cbn [fst] in Hk.
  rewrite Hk. cbn.
  rewrite Hpanic; reflexivity.
Qed.

End SetxattrSize.

(** [setxattr(p, n, v, 0, 0)]: no reply. *)
Lemma setxattr_nonpositive_size_panics_witness :
  @HandleValid_in example_util seccomp_notify_syscall_table
    (example_world "z" None) strict_state 5
    (example_siov (setxattr_size_req 0))
    (fun _ _ => Some (example_instance ∅)) = None.
Proof.
  destruct (@setxattr_nonpositive_size_panics example_util
              (example_world "z" None) strict_state (example_instance ∅)
              (example_siov (setxattr_size_req 0)) (0, 0, 0, 0) identity_idmap
              ("z" +:+ zeros (PathMax - 1)) ("z" +:+ zeros (PathMax - 1)))
    as [_ Hvalid].
  - reflexivity.
  - reflexivity.
  - vm_compute. reflexivity.
  - vm_compute. reflexivity.
  - vm_compute. discriminate.
  - apply Hvalid; reflexivity.
Defined.

(** X6.  A [sched_setscheduler] by a caller that is not root of the
    instance's namespace (its uid or gid shifts to a non-zero id) never
    reaches the helper: the answer is [-EINVAL] when continue is
    unsupported, and the system call is continued otherwise. *)
Theorem sched_non_root_refused (w : World) (s : State) (c : Instance)
    (siov : Iovec) (uid gid fsuid fsgid : Z) (idmapset : IdmapSet) :
  TaskIDs w (req_pid (req siov)) = Some (uid, gid, fsuid, fsgid) ->
  CurrentIdmap c = Some idmapset ->
  ShiftFromNS idmapset uid gid <> (0, 0) ->
  effects (HandleSchedSetschedulerSyscall w s c siov) = [] /\
  (SeccompListenerContinue s = false ->
   errno (HandleSchedSetschedulerSyscall w s c siov) = - EINVAL /\
   resp_out (HandleSchedSetschedulerSyscall w s c siov) = resp siov) /\
  (SeccompListenerContinue s = true ->
   errno (HandleSchedSetschedulerSyscall w s c siov) = 0 /\
   continues (resp_out (HandleSchedSetschedulerSyscall w s c siov)) = true).
Proof.
  intros Hids Hmap Hns. unfold HandleSchedSetschedulerSyscall.
  rewrite Hids, Hmap.
  destruct (ShiftFromNS idmapset uid gid) as [nsuid nsgid].
  assert (Hb : negb (nsuid =? 0) || negb (nsgid =? 0) = true).
  { destruct (Z.eqb_spec nsuid 0) as [->|]; [|reflexivity].
    destruct (Z.eqb_spec nsgid 0) as [->|]; [|reflexivity].
    exfalso. apply Hns. reflexivity. }
  rewrite Hb. unfold refuse.
  split; [destruct (SeccompListenerContinue s); reflexivity|].
  split; intros ->; split; try reflexivity.
  unfold continues. cbn [continue_reply resp_out seccomp_notify_update_response
                         resp_flags].
  rewrite Z.lor_spec. apply orb_true_r.
Qed.

(** Scenario: the caller has uid 1000, [sched_setscheduler(1, 0, p)]. *)
Lemma sched_non_root_refused_witness :
  HandleSchedSetschedulerSyscall (user_world EmptyString None) strict_state
    (example_instance ∅) (example_siov (sched_req 1 0))
  = return_errno (example_siov (sched_req 1 0)) (- EINVAL).
Proof.
  destruct (sched_non_root_refused (user_world EmptyString None) strict_state
              (example_instance ∅) (example_siov (sched_req 1 0))
              1000 1000 1000 1000 identity_idmap eq_refl eq_refl)
    as (Heff & Hstrict & _).
  - discriminate.
  - destruct (Hstrict eq_refl) as [He Hr].
    destruct (HandleSchedSetschedulerSyscall (user_world EmptyString None)
                strict_state (example_instance ∅)
                (example_siov (sched_req 1 0))) as [e r eff].
    cbn in *. subst. reflexivity.
Defined.

(** X7.  For a caller that is root of its namespace, with a readable
    parameter block: a negative target pid is refused without the
    helper; the target 0 is replaced by the caller's own pid and the
    helper is told not to switch pid namespace; any other target is
    passed on as it is and the helper is told to switch.  The policy
    passed on is the second argument as a 32-bit integer. *)
Theorem sched_target_pid_rewriting (w : World) (s : State) (c : Instance)
    (siov : Iovec) (uid gid fsuid fsgid : Z) (idmapset : IdmapSet)
    (param : string) :
  TaskIDs w (req_pid (req siov)) = Some (uid, gid, fsuid, fsgid) ->
  CurrentIdmap c = Some idmapset ->
  ShiftFromNS idmapset uid gid = (0, 0) ->
  pread_into w (memFd siov) (zeros INCUS_SCHED_PARAM_SIZE) INCUS_SCHED_PARAM_SIZE
    (to_i64 (arg (req siov) 2)) = Some param ->
  (to_i64 (arg (req siov) 0) < 0 ->
   HandleSchedSetschedulerSyscall w s c siov = refuse s siov (- EINVAL)) /\
  (to_i64 (arg (req siov) 0) = 0 ->
   effects (HandleSchedSetschedulerSyscall w s c siov)
   = [Forksyscall
        [ "forksyscall"; "sched_setscheduler"; fmt_d (req_pid (req siov));
          fmt_d (MakePidFd w s (req_pid (req siov))); "0";
          fmt_d (req_pid (req siov)); fmt_d (to_i32 (arg (req siov) 1));
          fmt_d (to_i32 (le_unsigned param)) ]]) /\
  (0 < to_i64 (arg (req siov) 0) ->
   effects (HandleSchedSetschedulerSyscall w s c siov)
   = [Forksyscall
        [ "forksyscall"; "sched_setscheduler"; fmt_d (req_pid (req siov));
          fmt_d (MakePidFd w s (req_pid (req siov))); "1";
          fmt_d (to_i64 (arg (req siov) 0)); fmt_d (to_i32 (arg (req siov) 1));
          fmt_d (to_i32 (le_unsigned param)) ]]).
Proof.
  intros Hids Hmap Hns Hread. unfold HandleSchedSetschedulerSyscall.
  rewrite Hids, Hmap, Hns. cbn [Z.eqb negb orb Z.ltb Z.compare].
  split; [|split]; intros Ht.
  - destruct (Z.ltb_spec (to_i64 (arg (req siov) 0)) 0); [reflexivity|lia].
  - rewrite Ht. cbn [Z.ltb Z.compare Z.eqb]. rewrite Hread.
    unfold sched_setscheduler_argv.
    destruct (RunCommandSplit w _); reflexivity.
  - destruct (Z.ltb_spec (to_i64 (arg (req siov) 0)) 0); [lia|].
    destruct (Z.eqb_spec (to_i64 (arg (req siov) 0)) 0); [lia|].
    rewrite Hread. unfold sched_setscheduler_argv.
    destruct (RunCommandSplit w _); reflexivity.
Qed.

(** [sched_setscheduler(0, 2, p)] and [sched_setscheduler(17, 2, p)] by
    the process 4242. *)
Lemma sched_target_pid_rewriting_witness :
  effects (HandleSchedSetschedulerSyscall (example_world EmptyString None)
             strict_state (example_instance ∅) (example_siov (sched_req 0 2)))
  = [Forksyscall [ "forksyscall"; "sched_setscheduler"; "4242"; "3"; "0";
                   "4242"; "2"; "0" ]] /\
  effects (HandleSchedSetschedulerSyscall (example_world EmptyString None)
             strict_state (example_instance ∅) (example_siov (sched_req 17 2)))
  = [Forksyscall [ "forksyscall"; "sched_setscheduler"; "4242"; "3"; "1";
                   "17"; "2"; "0" ]].
Proof.
  split.
  - destruct (sched_target_pid_rewriting (example_world EmptyString None)
                strict_state (example_instance ∅) (example_siov (sched_req 0 2))
                0 0 0 0 identity_idmap (zeros 4) eq_refl eq_refl eq_refl eq_refl)
      as (_ & Hzero & _).
    rewrite (Hzero eq_refl). vm_compute. reflexivity.
  - destruct (sched_target_pid_rewriting (example_world EmptyString None)
                strict_state (example_instance ∅)
                (example_siov (sched_req 17 2))
                0 0 0 0 identity_idmap (zeros 4) eq_refl eq_refl eq_refl eq_refl)
      as (_ & _ & Hpos).
    rewrite Hpos; [vm_compute; reflexivity | vm_compute; reflexivity].
Defined.

(* ------------------------------------------------------------------ *)
(** ** sysinfo *)

Lemma continue_reply_continues (siov : Iovec) :
  continues (resp_out (continue_reply siov)) = true.
Proof.
  unfold continues. cbn [continue_reply resp_out seccomp_notify_update_response
                         resp_flags].
  rewrite Z.lor_spec. apply orb_true_r.
Qed.

(** X8.  Whenever the [sysinfo] emulator returns, it returns 0 and has
    called no helper.  Either nothing was written to the caller and the
    system call is continued, or the metrics were written exactly once
    at the address of the first argument; the response is left without
    the continue flag only after a successful write. *)
Theorem sysinfo_answers_zero (w : World) (s : State) (c : Instance)
    (siov : Iovec) (r : Reply) :
  HandleSysinfoSyscall w s c siov = Returned r ->
  errno r = 0 /\
  existsb is_forksyscall (effects r) = false /\
  ((effects r = [] /\ resp_out r = resp_out (continue_reply siov)) \/
   (exists layout32 metrics,
      effects r = [PwriteSysinfo (memFd siov) layout32 metrics
                     (to_i64 (arg (req siov) 0))] /\
      (if pwrite_ok w (memFd siov) (to_i64 (arg (req siov) 0))
       then resp_out r = resp siov
       else resp_out r = resp_out (continue_reply siov)))).
Proof.
  unfold HandleSysinfoSyscall. intros Hr.
  repeat match type of Hr with
         | context [match ?x with _ => _ end] => destruct x eqn:?
         end;
    inversion Hr; subst; cbn [errno effects resp_out existsb is_forksyscall];
    (split; [reflexivity|]); (split; [reflexivity|]);
    first [ left; split; reflexivity
          | right; eexists _, _; split; [reflexivity|];
            cbn [negb] in *;
            match goal with
            | Hw : negb (pwrite_ok _ _ _) = _ |- _ =>
                apply (f_equal negb) in Hw; rewrite negb_involutive in Hw;
                rewrite Hw; reflexivity
            end ].
Qed.

(** The busy container: the metrics are written, the answer is 0 without
    the continue flag. *)
Lemma sysinfo_answers_zero_witness :
  exists r,
    HandleSysinfoSyscall busy_world strict_state (example_instance ∅)
      (example_siov sysinfo_req) = Returned r /\
    errno r = 0 /\ resp_out r = resp_zero /\ length (effects r) = 1%nat.
Proof.
  eexists. split; [vm_compute; reflexivity|].
  destruct (sysinfo_answers_zero busy_world strict_state (example_instance ∅)
              (example_siov sysinfo_req) _ eq_refl) as (He & _ & _).
  split; [exact He|]. split; reflexivity.
Defined.

(** X9.  The free memory reported is the limit minus the usage minus the
    page cache in unsigned 64-bit arithmetic, without a lower bound:
    when usage and cache together exceed the limit, the value written as
    free memory wraps around and is larger than the total memory written
    beside it. *)
Theorem sysinfo_free_memory_wraps (w : World) (s : State) (c : Instance)
    (siov : Iovec) (r : Reply) (limit usage : Z) (stats : list (string * Z)) :
  HandleSysinfoSyscall w s c siov = Returned r ->
  effects r <> [] ->
  GetEffectiveMemoryLimit (sysinfo_probe w) = Some limit ->
  GetMemoryUsage (sysinfo_probe w) = Some usage ->
  GetMemoryStats (sysinfo_probe w) = Some stats ->
  exists m,
    written_metrics (effects r) = Some m /\
    Totalram m = to_u64 limit /\
    Bufferram m = mem_stat stats "cache" 0 /\
    Freeram m = to_u64 (Totalram m - to_u64 usage - Bufferram m) /\
    (0 <= limit < 2 ^ 63 -> 0 <= usage < 2 ^ 63 ->
     0 <= mem_stat stats "cache" 0 < 2 ^ 63 ->
     limit < usage + mem_stat stats "cache" 0 ->
     Totalram m < Freeram m).
Proof.
  unfold HandleSysinfoSyscall. intros Hr Heff Hlimit Husage Hstats.
  rewrite Hlimit, Husage, Hstats in Hr.
  repeat match type of Hr with
         | context [match ?x with _ => _ end] => destruct x eqn:?
         end;
    inversion Hr; subst; cbn [effects continue_reply] in Heff;
    try (exfalso; apply Heff; reflexivity);
    (eexists; split; [reflexivity|]);
    cbn [Totalram Bufferram Freeram];
    (split; [reflexivity|]); (split; [reflexivity|]); (split; [reflexivity|]);
    intros Hl Hu Hc Hover; unfold to_u64;
    change (2 ^ 63) with 9223372036854775808 in *;
    change (2 ^ 64) with 18446744073709551616;
    rewrite (Z.mod_small limit) by lia;
    rewrite (Z.mod_small usage) by lia;
    match goal with
    | |- _ < ?x mod ?m =>
        rewrite <- (Z.mod_unique x m (-1) (x + m)); lia
    end.
Qed.

(** The busy container: 1 GiB total, and a free memory of 2^64 minus
    376 MiB. *)
Lemma sysinfo_free_memory_wraps_witness :
  exists m,
    written_metrics
      (match HandleSysinfoSyscall busy_world strict_state (example_instance ∅)
               (example_siov sysinfo_req) with
       | Returned r => effects r
       | Panicked => []
       end) = Some m /\
    Totalram m = 1073741824 /\
    Freeram m = 2 ^ 64 - 394264576.
Proof.
  destruct (sysinfo_free_memory_wraps busy_world strict_state
              (example_instance ∅) (example_siov sysinfo_req)
              {| errno := 0; resp_out := resp_zero;
                 effects :=
                   [PwriteSysinfo 11 false
                      {| Uptime := 4000; Totalram := 1073741824;
                         Freeram := 2 ^ 64 - 394264576; Sharedram := 4096;
                         Bufferram := 524288000; Totalswap := 0;
                         Freeswap := 0; Procs := 12; Unit := 1 |}
                      140000000] |}
              1073741824 943718400 [ ("cache", 524288000); ("shmem", 4096) ])
    as (m & Hm & Ht & _ & Hf & _).
  - vm_compute. reflexivity.
  - discriminate.
  - reflexivity.
  - reflexivity.
  - reflexivity.
  - exists m. cbn in Hm. inversion Hm; subst m.
    split; [vm_compute; reflexivity|]. split; vm_compute; reflexivity.
Defined.

(* ------------------------------------------------------------------ *)
(** ** mount and bpf *)

Section MountProperties.
Context `{SharedUtil}.

(** X10.  The [mount] emulator always returns 0, whether or not continue
    is supported.  Either it called no helper and continues the system
    call, or it called the helper once: the system call is continued
    when the helper failed, and answered 0 with the response untouched
    when the helper exited with status zero. *)
Theorem mount_answers_zero_or_continues (w : World) (s : State) (c : Instance)
    (siov : Iovec) :
  errno (HandleMountSyscall w s c siov) = 0 /\
  ((effects (HandleMountSyscall w s c siov) = [] /\
    resp_out (HandleMountSyscall w s c siov) = resp_out (continue_reply siov)) \/
   (exists argv,
      effects (HandleMountSyscall w s c siov) = [Forksyscall argv] /\
      match RunCommandSplit w argv with
      | Some _ =>
          resp_out (HandleMountSyscall w s c siov)
          = resp_out (continue_reply siov)
      | None => resp_out (HandleMountSyscall w s c siov) = resp siov
      end)).
Proof.
  unfold HandleMountSyscall.
  repeat match goal with
         | |- context [match ?x with _ => _ end] =>
             lazymatch x with
             | RunCommandSplit _ _ => fail
             | _ => destruct x eqn:?
             end
         end;
    try (split; [reflexivity | left; split; reflexivity]).
  all: match goal with
       | |- context [RunCommandSplit ?w0 ?argv] =>
           split;
           [ destruct (RunCommandSplit w0 argv); reflexivity
           | right; exists argv;
             destruct (RunCommandSplit w0 argv); split; reflexivity ]
       end.
Qed.

(** X11.  A [mount] whose filesystem type is not in the instance's
    interception filter (not listed as allowed, not mapped to a FUSE
    binary, or the interception of [mount] switched off) never reaches
    the helper: the system call is continued. *)
Theorem mount_unlisted_fstype_continues (w : World) (s : State) (c : Instance)
    (siov : Iovec) (fs : string) :
  mount_read w siov (arg (req siov) 1) (arg (req siov) 2) = Some fs ->
  (forall fsMap, SyscallInterceptMountFilter (ExpandedConfig c) = inl fsMap ->
                 fsMap !! fs = None) ->
  HandleMountSyscall w s c siov = continue_reply siov.
Proof.
  intros Hfs Hno. unfold HandleMountSyscall. rewrite Hfs.
  destruct (mount_read w siov (arg (req siov) 0) (arg (req siov) 0));
    [|reflexivity].
  destruct (mount_read w siov (arg (req siov) 1) (arg (req siov) 1));
    [|reflexivity].
  destruct (mount_read w siov (arg (req siov) 4) (arg (req siov) 4));
    [|reflexivity].
  destruct (negb (PidfdSendSignal_ok w _)); [reflexivity|].
  unfold MountSyscallValid. cbn [fstype].
  destruct (SyscallInterceptMountFilter (ExpandedConfig c)) as [fsMap|err] eqn:Hf;
    [|reflexivity].
  rewrite (Hno fsMap eq_refl). reflexivity.
Qed.

End MountProperties.

(** The interception of [mount] is off: nothing is listed. *)
Lemma mount_unlisted_fstype_continues_witness :
  @HandleMountSyscall example_util (example_world "ext4" None) permissive_state
    (example_instance ∅)
    (example_siov (example_req AUDIT_ARCH_X86_64 165
                     [ 140000000; 140000100; 140000200; 0; 0; 0 ]))
  = continue_reply
      (example_siov (example_req AUDIT_ARCH_X86_64 165
                       [ 140000000; 140000100; 140000200; 0; 0; 0 ])).
Proof.
  apply (@mount_unlisted_fstype_continues example_util
           (example_world "ext4" None) permissive_state (example_instance ∅)
           (example_siov (example_req AUDIT_ARCH_X86_64 165
                            [ 140000000; 140000100; 140000200; 0; 0; 0 ]))
           "ext4").
  - vm_compute. reflexivity.
  - intros fsMap Hf. vm_compute in Hf. inversion Hf. reflexivity.
Defined.

Lemma handle_bpf_syscall_frame (w : World) (pid_target notify_fd mem_fd tgid : Z)
    (rq : seccomp_notif) (rs : seccomp_notif_resp) (flags : Z) :
  resp_id (snd (handle_bpf_syscall w pid_target notify_fd mem_fd tgid rq rs flags))
  = resp_id rs /\
  resp_error (snd (handle_bpf_syscall w pid_target notify_fd mem_fd tgid rq rs flags))
  = resp_error rs /\
  resp_flags (snd (handle_bpf_syscall w pid_target notify_fd mem_fd tgid rq rs flags))
  = resp_flags rs.
Proof.
  unfold handle_bpf_syscall. split_matches; repeat split; reflexivity.
Qed.

Section BpfProperties.
Context `{SharedUtil}.

(** X12.  The [bpf] emulator always returns 0 and calls no helper.  The
    response keeps its id; its flags are either left as they were or
    gain the continue flag, which happens whenever the instance has not
    opted in to the device controller. *)
Theorem bpf_answers_zero_or_continues (w : World) (s : State) (c : Instance)
    (siov : Iovec) :
  errno (HandleBpfSyscall w s c siov) = 0 /\
  effects (HandleBpfSyscall w s c siov) = [] /\
  resp_id (resp_out (HandleBpfSyscall w s c siov)) = resp_id (resp siov) /\
  (continues (resp_out (HandleBpfSyscall w s c siov)) = true \/
   resp_flags (resp_out (HandleBpfSyscall w s c siov)) = resp_flags (resp siov)) /\
  (IsFalseOrEmpty
     (cfg_get (ExpandedConfig c) "security.syscalls.intercept.bpf.devices") = true ->
   HandleBpfSyscall w s c siov = continue_reply siov).
Proof.
  unfold HandleBpfSyscall.
  destruct (IsFalseOrEmpty _) eqn:Hopt.
  - repeat split; try reflexivity. left. apply continue_reply_continues.
  - assert (Hcase : forall probe : option (Z * Z),
      let r := match probe with
               | None => continue_reply siov
               | Some (flags, tgid) =>
                   let '(ret, rs) :=
                     handle_bpf_syscall w (to_i32 (req_pid (req siov)))
                       (notifyFd siov) (memFd siov) tgid (req siov) (resp siov)
                       flags in
                   if ret <? 0 then
                     {| errno := 0;
                        resp_out := seccomp_notify_update_response rs 0
                                      seccompUserNotifFlagContinue;
                        effects := [] |}
                   else {| errno := 0; resp_out := rs; effects := [] |}
               end in
      errno r = 0 /\ effects r = [] /\ resp_id (resp_out r) = resp_id (resp siov) /\
      (continues (resp_out r) = true \/
       resp_flags (resp_out r) = resp_flags (resp siov))).
    { intros [[flags tgid]|]; cbn zeta.
      - pose proof (handle_bpf_syscall_frame w (to_i32 (req_pid (req siov)))
                      (notifyFd siov) (memFd siov) tgid (req siov) (resp siov)
                      flags) as (Hid & _ & Hfl).
        destruct (handle_bpf_syscall _ _ _ _ _ _ _ _) as [ret rs].
        cbn [snd] in *.
        destruct (ret <? 0); cbn [errno effects resp_out];
          (split; [reflexivity|]); (split; [reflexivity|]).
        + split; [exact Hid|]. left. unfold continues.
          cbn [seccomp_notify_update_response resp_flags].
          rewrite Z.lor_spec. apply orb_true_r.
        + split; [exact Hid|]. right. exact Hfl.
      - repeat split; try reflexivity. left. apply continue_reply_continues. }
    match goal with
    | |- errno (match ?p with _ => _ end) = _ /\ _ =>
        destruct (Hcase p) as (H1 & H2 & H3 & H4)
    end.
    split; [exact H1|]. split; [exact H2|]. split; [exact H3|].
    split; [exact H4|]. discriminate.
Qed.

(** X13.  A [BPF_PROG_LOAD] of more than 1,000,000 instructions is
    rejected by the emulation in C with [-EINVAL] whatever the host's
    [bpf] would answer, once the attribute is read, the pidfd is open
    and the notification is still valid; the emulator in Go turns that
    into a continued system call with the answer 0. *)
Theorem bpf_instruction_cap (w : World) (s : State) (c : Instance)
    (siov : Iovec) (attr : bpf_attr) (pidfd : Z) :
  IsFalseOrEmpty
    (cfg_get (ExpandedConfig c) "security.syscalls.intercept.bpf.devices") = false ->
  PidFdsThread s = true ->
  arg (req siov) 0 = BPF_PROG_LOAD ->
  arg (req siov) 2 <= to_u32 (sizeof_bpf_attr w) ->
  pread_bpf_attr w (memFd siov) (arg (req siov) 2) (to_i64 (arg (req siov) 1))
  = inl attr ->
  incus_pidfd_open w (to_i32 (req_pid (req siov))) PIDFD_THREAD = inl pidfd ->
  ioctl_NOTIF_ID_VALID w (notifyFd siov) (req_id (req siov)) = None ->
  prog_type attr = BPF_PROG_TYPE_CGROUP_DEVICE ->
  1000000 < insn_cnt attr ->
  handle_bpf_syscall w (to_i32 (req_pid (req siov))) (notifyFd siov)
    (memFd siov) (-1) (req siov) (resp siov) PIDFD_THREAD
  = (- EINVAL, resp siov) /\
  HandleBpfSyscall w s c siov = continue_reply siov.
Proof.
  intros Hopt Hthread Hcmd Hlen Hattr Hpidfd Hvalid Htype Hcnt.
  assert (Hc : handle_bpf_syscall w (to_i32 (req_pid (req siov)))
                 (notifyFd siov) (memFd siov) (-1) (req siov) (resp siov)
                 PIDFD_THREAD = (- EINVAL, resp siov)).
  { unfold handle_bpf_syscall.
    destruct (Z.ltb_spec (to_u32 (sizeof_bpf_attr w)) (arg (req siov) 2));
      [lia|].
    rewrite Hcmd. cbn [Z.eqb BPF_PROG_LOAD BPF_PROG_ATTACH BPF_PROG_DETACH
                       Pos.eqb orb negb].
    rewrite Hattr.
    change (Z.land PIDFD_THREAD PIDFD_THREAD =? 0) with false. cbn [negb].
    rewrite Hpidfd, Hvalid, Htype.
    cbn [Z.eqb BPF_PROG_TYPE_CGROUP_DEVICE Pos.eqb negb].
    destruct (Z.ltb_spec 1000000 (insn_cnt attr)); [reflexivity|lia]. }
  split; [exact Hc|].
  unfold HandleBpfSyscall. rewrite Hopt, Hthread, Hc. reflexivity.
Qed.

End BpfProperties.

(** Scenario: a load of 1,000,001 instructions on a host with thread
    pidfds. *)
Lemma bpf_instruction_cap_witness :
  @HandleBpfSyscall example_util (bpf_world oversized_attr) thread_state
    (example_instance bpf_config) (example_siov bpf_load_req)
  = continue_reply (example_siov bpf_load_req).
Proof.
  assert (Hlen : arg (req (example_siov bpf_load_req)) 2
                 <= to_u32 (sizeof_bpf_attr (bpf_world oversized_attr)))
    by (vm_compute; discriminate).
  exact (proj2 (@bpf_instruction_cap example_util (bpf_world oversized_attr)
                  thread_state (example_instance bpf_config)
                  (example_siov bpf_load_req) oversized_attr 20
                  eq_refl eq_refl eq_refl Hlen eq_refl eq_refl eq_refl eq_refl
                  eq_refl)).
Defined.

(* ------------------------------------------------------------------ *)
(** ** Capability probes and the policy compiler *)

Section CompilerProperties.
Context `{SharedUtil}.

(** X14.  The three capability probes form a chain: the probe for
    adding descriptors passes only where the probe for continuing
    passes, and that one only where the plain probe passes; each adds
    exactly one kernel capability to the one before it, and a failure of
    the plain probe is reported unchanged by the other two. *)
Theorem probe_chain (s : State) :
  (lxcSupportSeccompNotify s = None <->
   SeccompListener s = true /\ lxc_feature s "seccomp_notify" = true /\
   lxc_NewContainer_ok s = true /\ lxc_SetConfigItem_err s = None) /\
  (lxcSupportSeccompNotifyContinue s = None <->
   lxcSupportSeccompNotify s = None /\ SeccompListenerContinue s = true) /\
  (lxcSupportSeccompNotifyAddfd s = None <->
   lxcSupportSeccompNotifyContinue s = None /\ SeccompListenerAddfd s = true) /\
  (forall err, lxcSupportSeccompNotify s = Some err ->
               lxcSupportSeccompNotifyContinue s = Some err /\
               lxcSupportSeccompNotifyAddfd s = Some err).
Proof.
  unfold lxcSupportSeccompNotifyAddfd, lxcSupportSeccompNotifyContinue,
    lxcSupportSeccompNotify.
  destruct (SeccompListener s), (lxc_feature s "seccomp_notify"),
    (lxc_NewContainer_ok s), (lxc_SetConfigItem_err s),
    (SeccompListenerContinue s), (SeccompListenerAddfd s); cbn [negb];
    repeat split; intros; subst;
    repeat match goal with
           | Hc : _ /\ _ |- _ => destruct Hc
           end;
    try discriminate; try reflexivity; try assumption;
    match goal with
    | Hs : Some _ = Some _ |- _ => inversion Hs; reflexivity
    end.
Qed.

(** On one host, every probe that fails fails with the same error. *)
Lemma probes_same_error (s : State) (k1 k2 : string)
    (c1 c2 : State -> option error) (e1 e2 : error) :
  In (k1, c1) intercept_keys -> In (k2, c2) intercept_keys ->
  c1 s = Some e1 -> c2 s = Some e2 -> e1 = e2.
Proof.
  assert (Hchain :
    forall e, lxcSupportSeccompNotify s = Some e ->
              lxcSupportSeccompNotifyContinue s = Some e /\
              lxcSupportSeccompNotifyAddfd s = Some e).
  { intros e He.
    unfold lxcSupportSeccompNotifyContinue, lxcSupportSeccompNotifyAddfd.
    rewrite He. split; reflexivity. }
  assert (Hca : forall e e', lxcSupportSeccompNotifyContinue s = Some e ->
                             lxcSupportSeccompNotifyAddfd s = Some e' -> e = e').
  { unfold lxcSupportSeccompNotifyContinue, lxcSupportSeccompNotifyAddfd.
    intros e e'.
    destruct (lxcSupportSeccompNotify s); [congruence|].
    destruct (SeccompListenerContinue s); cbn [negb]; congruence. }
  cbn [In intercept_keys]. intros Hin1 Hin2 He1 He2.
  repeat destruct Hin1 as [Hin1|Hin1]; try contradiction;
    repeat destruct Hin2 as [Hin2|Hin2]; try contradiction;
    inversion Hin1; inversion Hin2; subst;
    try congruence;
    try (destruct (Hchain _ He1); congruence);
    try (destruct (Hchain _ He2); congruence);
    first [ exact (Hca _ _ He1 He2) | symmetry; exact (Hca _ _ He2 He1) ].
Qed.

(** What the loop over the intercept options returns. *)
Lemma intercept_range_spec (s : State) (config : gmap string string)
    (order : list (string * (State -> option error))) (needed : bool) :
  match intercept_range s config order needed with
  | (_, Some err) =>
      exists k check, In (k, check) order /\
                      IsFalseOrEmpty (cfg_get config k) = false /\
                      check s = Some err
  | (b, None) =>
      (forall k check, In (k, check) order ->
                       IsFalseOrEmpty (cfg_get config k) = false ->
                       check s = None) /\
      b = needed || existsb (intercept_enabled config) order
  end.
Proof.
  revert needed. induction order as [|[k check] rest IH]; intros needed; simpl.
  - split; [intros k check []|]. rewrite orb_false_r. reflexivity.
  - unfold intercept_enabled at 1. cbn [fst].
    destruct (IsFalseOrEmpty (cfg_get config k)) eqn:Hk; cbn [negb orb].
    + specialize (IH needed).
      destruct (intercept_range s config rest needed) as [b [err|]].
      * destruct IH as (k' & check' & Hin & Hen & Herr).
        exists k', check'. split; [right; exact Hin|]. split; assumption.
      * destruct IH as [Hall Hb]. split; [|exact Hb].
        intros k' check' [Heq|Hin] Hen.
        -- inversion Heq; subst. congruence.
        -- apply (Hall k' check' Hin Hen).
    + destruct (check s) as [err|] eqn:Hc.
      * exists k, check. split; [left; reflexivity|]. split; assumption.
      * specialize (IH true).
        destruct (intercept_range s config rest true) as [b [err|]].
        -- destruct IH as (k' & check' & Hin & Hen & Herr).
           exists k', check'. split; [right; exact Hin|]. split; assumption.
        -- destruct IH as [Hall Hb]. split.
           ++ intros k' check' [Heq|Hin] Hen.
              ** inversion Heq; subst. exact Hc.
              ** apply (Hall k' check' Hin Hen).
           ++ rewrite Hb. rewrite orb_true_r. reflexivity.
Qed.

Lemma existsb_Permutation {A : Type} (f : A -> bool) (l1 l2 : list A) :
  l1 ≡ₚ l2 -> existsb f l1 = existsb f l2.
Proof.
  intros Hp. apply eq_true_iff_eq. rewrite !existsb_exists.
  split; intros (x & Hin & Hx); exists x; split; try exact Hx.
  - apply (Permutation_in _ Hp). exact Hin.
  - apply (Permutation_in _ (Permutation_sym Hp)). exact Hin.
Qed.

(** Two visiting orders agree on the error, and on the verdict when
    there is no error. *)
Lemma InstanceNeedsIntercept_order
    (order1 order2 : list (string * (State -> option error)))
    (s : State) (c : Instance) :
  order1 ≡ₚ intercept_keys -> order2 ≡ₚ intercept_keys ->
  snd (InstanceNeedsIntercept order1 s c) = snd (InstanceNeedsIntercept order2 s c) /\
  (snd (InstanceNeedsIntercept order1 s c) = None ->
   InstanceNeedsIntercept order1 s c = InstanceNeedsIntercept order2 s c).
Proof.
  intros Hp1 Hp2. unfold InstanceNeedsIntercept.
  destruct (IsPrivileged c); [split; reflexivity|].
  destruct (RunningInUserNS s); [split; reflexivity|].
  assert (Hp : order1 ≡ₚ order2) by (rewrite Hp1, Hp2; reflexivity).
  pose proof (intercept_range_spec s (ExpandedConfig c) order1 false) as H1.
  pose proof (intercept_range_spec s (ExpandedConfig c) order2 false) as H2.
  destruct (intercept_range s (ExpandedConfig c) order1 false) as [b1 [e1|]],
    (intercept_range s (ExpandedConfig c) order2 false) as [b2 [e2|]];
    cbn [snd].
  - destruct H1 as (k1 & c1 & Hin1 & _ & He1).
    destruct H2 as (k2 & c2 & Hin2 & _ & He2).
    split; [|discriminate]. f_equal.
    apply (probes_same_error s k1 k2 c1 c2); try assumption.
    + apply (Permutation_in _ Hp1). exact Hin1.
    + apply (Permutation_in _ Hp2). exact Hin2.
  - exfalso. destruct H1 as (k1 & c1 & Hin1 & Hen & He1).
    destruct H2 as [Hall _].
    rewrite (Hall k1 c1) in He1; [discriminate| |exact Hen].
    apply (Permutation_in _ Hp). exact Hin1.
  - exfalso. destruct H2 as (k2 & c2 & Hin2 & Hen & He2).
    destruct H1 as [Hall _].
    rewrite (Hall k2 c2) in He2; [discriminate| |exact Hen].
    apply (Permutation_in _ (Permutation_sym Hp)). exact Hin2.
  - destruct H1 as [_ ->]. destruct H2 as [_ ->].
    rewrite (existsb_Permutation _ _ _ Hp). split; reflexivity.
Qed.

(** X15.  The compiled policy does not depend on the order in which Go
    ranges over the map of intercept options: for any two orders the
    compiler returns the same text, or the same error. *)
Theorem policy_independent_of_map_order
    (order1 order2 : list (string * (State -> option error)))
    (s : State) (c : Instance) :
  order1 ≡ₚ intercept_keys -> order2 ≡ₚ intercept_keys ->
  seccompGetPolicyContent order1 s c = seccompGetPolicyContent order2 s c.
Proof.
  intros Hp1 Hp2.
  destruct (InstanceNeedsIntercept_order order1 order2 s c Hp1 Hp2) as [Herr Hok].
  unfold seccompGetPolicyContent.
  destruct (InstanceNeedsIntercept order1 s c) as [b1 [e1|]],
    (InstanceNeedsIntercept order2 s c) as [b2 [e2|]]; cbn [snd] in *;
    try discriminate.
  - inversion Herr; subst. reflexivity.
  - specialize (Hok eq_refl). inversion Hok; subst. reflexivity.
Qed.

(** X16.  Without a raw override, for an unprivileged instance on a host
    that is not itself in a user namespace, an intercept option that is
    switched on while its probe fails makes the compiler return the
    error of that probe and no policy, whatever the other options and
    the visiting order. *)
Theorem policy_refused_when_probe_fails
    (order : list (string * (State -> option error)))
    (s : State) (c : Instance) (k : string) (check : State -> option error)
    (err : error) :
  order ≡ₚ intercept_keys ->
  cfg_get (ExpandedConfig c) "raw.seccomp" = EmptyString ->
  IsPrivileged c = false ->
  RunningInUserNS s = false ->
  In (k, check) intercept_keys ->
  IsFalseOrEmpty (cfg_get (ExpandedConfig c) k) = false ->
  check s = Some err ->
  seccompGetPolicyContent order s c = inr err.
Proof.
  intros Hp Hraw Hpriv Hns Hin Hen Herr.
  assert (Hni : exists b, InstanceNeedsIntercept order s c = (b, Some err)).
  { unfold InstanceNeedsIntercept. rewrite Hpriv, Hns.
    pose proof (intercept_range_spec s (ExpandedConfig c) order false) as Hs.
    destruct (intercept_range s (ExpandedConfig c) order false) as [b [e|]].
    - destruct Hs as (k' & check' & Hin' & _ & He').
      exists b. do 2 f_equal.
      apply (probes_same_error s k' k check' check); try assumption.
      apply (Permutation_in _ Hp). exact Hin'.
    - exfalso. destruct Hs as [Hall _].
      rewrite (Hall k check) in Herr; [discriminate| |exact Hen].
      apply (Permutation_in _ (Permutation_sym Hp)). exact Hin. }
  destruct Hni as [b Hni].
  unfold seccompGetPolicyContent. rewrite Hraw, Hni. reflexivity.
Qed.



End CompilerProperties.

(** Two orders of the six options on a host without continue, with
    [mknod] and [mount] switched on: both fail with the same error. *)
Lemma policy_independent_of_map_order_witness :
  @seccompGetPolicyContent example_util intercept_keys strict_state
    (example_instance mount_intercept_config)
  = @seccompGetPolicyContent example_util (reverse intercept_keys) strict_state
      (example_instance mount_intercept_config).
Proof.
  apply (@policy_independent_of_map_order example_util).
  - reflexivity.
  - apply reverse_Permutation.
Defined.

(** The runtime lacks the notify proxy and [mknod] is to be intercepted. *)
Lemma policy_refused_when_probe_fails_witness :
  @seccompGetPolicyContent example_util intercept_keys no_proxy_state
    (example_instance intercept_config)
  = inr (errorString "LXC doesn't support notify proxy: not supported").
Proof.
  apply (@policy_refused_when_probe_fails example_util intercept_keys
           no_proxy_state (example_instance intercept_config)
           "security.syscalls.intercept.mknod" lxcSupportSeccompNotify).
  - reflexivity.
  - reflexivity.
  - reflexivity.
  - reflexivity.
  - cbn [In intercept_keys]. left. reflexivity.
  - vm_compute. reflexivity.
  - vm_compute. reflexivity.
Defined.


(* ------------------------------------------------------------------ *)
(** ** The dispatcher and the receive loop *)

Section ReplyProperties.
Context `{SharedUtil}.

Lemma doDeviceSyscall_frame (w : World) (s : State) (c : Instance)
    (a : MknodArgs) (siov : Iovec) :
  existsb is_wire (effects (doDeviceSyscall w s c a siov)) = false /\
  resp_out (doDeviceSyscall w s c a siov) = resp siov.
Proof.
  unfold doDeviceSyscall.
  assert (Hc : existsb is_wire
                 (snd (CallForkmknod w s c (mknod_device a) (cPid a))) = false).
  { unfold CallForkmknod. split_matches; reflexivity. }
  destruct (CallForkmknod w s c (mknod_device a) (cPid a)) as [e eff].
  cbn [snd] in Hc.
  split_matches; cbn [effects resp_out]; (split; [|reflexivity]);
    try exact Hc; rewrite existsb_app, Hc; reflexivity.
Qed.

Lemma mknod_frame (w : World) (s : State) (c : Instance) (siov : Iovec) :
  existsb is_wire (effects (HandleMknodSyscall w s c siov)) = false /\
  resp_id (resp_out (HandleMknodSyscall w s c siov)) = resp_id (resp siov).
Proof.
  unfold HandleMknodSyscall, refuse.
  split_matches; try (split; reflexivity).
  match goal with
  | |- context [doDeviceSyscall w s c ?a siov] =>
      destruct (doDeviceSyscall_frame w s c a siov) as [Hw ->]
  end.
  split; [exact Hw|reflexivity].
Qed.

Lemma mknodat_frame (w : World) (s : State) (c : Instance) (siov : Iovec) :
  existsb is_wire (effects (HandleMknodatSyscall w s c siov)) = false /\
  resp_id (resp_out (HandleMknodatSyscall w s c siov)) = resp_id (resp siov).
Proof.
  unfold HandleMknodatSyscall, refuse.
  split_matches; try (split; reflexivity).
  match goal with
  | |- context [doDeviceSyscall w s c ?a ?siov'] =>
      destruct (doDeviceSyscall_frame w s c a siov') as [Hw ->]
  end.
  split; [exact Hw|reflexivity].
Qed.

Lemma setxattr_read_args_frame (w : World) (s : State) (c : Instance)
    (siov : Iovec) (r : Reply) :
  setxattr_read_args w s c siov = inl (Returned r) ->
  effects r = [] /\ resp_id (resp_out r) = resp_id (resp siov).
Proof.
  intros Hr. unfold setxattr_read_args, refuse in Hr.
  repeat match type of Hr with
         | context [match ?x with _ => _ end] => destruct x eqn:?
         end;
    inversion Hr; subst; split; reflexivity.
Qed.

Lemma setxattr_frame (w : World) (s : State) (c : Instance) (siov : Iovec)
    (r : Reply) :
  HandleSetxattrSyscall w s c siov = Returned r ->
  existsb is_wire (effects r) = false /\
  resp_id (resp_out r) = resp_id (resp siov).
Proof.
  unfold HandleSetxattrSyscall.
  destruct (setxattr_read_args w s c siov) as [done|[pidFdNr a]] eqn:Hargs.
  - intros ->.
    destruct (setxattr_read_args_frame w s c siov r Hargs) as [-> Hid].
    split; [reflexivity|exact Hid].
  - intros Hr. inversion Hr; subst.
    unfold setxattr_emulate, setxattr_forksyscall.
    split_matches; split; reflexivity.
Qed.

Lemma sched_frame (w : World) (s : State) (c : Instance) (siov : Iovec) :
  existsb is_wire (effects (HandleSchedSetschedulerSyscall w s c siov)) = false /\
  resp_id (resp_out (HandleSchedSetschedulerSyscall w s c siov))
  = resp_id (resp siov).
Proof.
  unfold HandleSchedSetschedulerSyscall, refuse.
  split_matches; split; reflexivity.
Qed.

Lemma sysinfo_frame (w : World) (s : State) (c : Instance) (siov : Iovec)
    (r : Reply) :
  HandleSysinfoSyscall w s c siov = Returned r ->
  existsb is_wire (effects r) = false /\
  resp_id (resp_out r) = resp_id (resp siov).
Proof.
  unfold HandleSysinfoSyscall. intros Hr.
  repeat match type of Hr with
         | context [match ?x with _ => _ end] => destruct x eqn:?
         end;
    inversion Hr; subst; split; reflexivity.
Qed.

Lemma mount_frame (w : World) (s : State) (c : Instance) (siov : Iovec) :
  existsb is_wire (effects (HandleMountSyscall w s c siov)) = false /\
  resp_id (resp_out (HandleMountSyscall w s c siov)) = resp_id (resp siov).
Proof.
  unfold HandleMountSyscall.
  split_matches; split; reflexivity.
Qed.

Lemma bpf_frame (w : World) (s : State) (c : Instance) (siov : Iovec) :
  existsb is_wire (effects (HandleBpfSyscall w s c siov)) = false /\
  resp_id (resp_out (HandleBpfSyscall w s c siov)) = resp_id (resp siov).
Proof.
  unfold HandleBpfSyscall.
  destruct (IsFalseOrEmpty _); [split; reflexivity|].
  assert (Hcase : forall flags tgid,
    let '(ret, rs) :=
      handle_bpf_syscall w (to_i32 (req_pid (req siov))) (notifyFd siov)
        (memFd siov) tgid (req siov) (resp siov) flags in
    resp_id rs = resp_id (resp siov)).
  { intros flags tgid.
    pose proof (handle_bpf_syscall_frame w (to_i32 (req_pid (req siov)))
                  (notifyFd siov) (memFd siov) tgid (req siov) (resp siov)
                  flags) as (Hid & _).
    destruct (handle_bpf_syscall _ _ _ _ _ _ _ _) as [ret rs]. exact Hid. }
  destruct (PidFdsThread s).
  - specialize (Hcase PIDFD_THREAD (-1)).
    destruct (handle_bpf_syscall _ _ _ _ _ _ _ _) as [ret rs].
    destruct (ret <? 0); split; try reflexivity; exact Hcase.
  - destruct (FindTGID w (procFd siov)) as [found|]; [|split; reflexivity].
    destruct (found =? -1); [split; reflexivity|].
    specialize (Hcase 0 0).
    destruct (handle_bpf_syscall _ _ _ _ _ _ _ _) as [ret rs].
    destruct (ret <? 0); split; try reflexivity; exact Hcase.
Qed.

(** No emulator writes to the connection or closes a descriptor of the
    frame, and every emulator leaves the id of the response as the
    classifier set it: the id of the request. *)
Lemma handleSyscall_frame (tbl : list incus_seccomp_data_arch) (w : World)
    (s : State) (c : Instance) (siov : Iovec) (r : Reply) :
  handleSyscall_in tbl w s c siov = Returned r ->
  existsb is_wire (effects r) = false /\
  resp_id (resp_out r) = req_id (req siov).
Proof.
  unfold handleSyscall_in, seccomp_notify_get_syscall_in.
  set (siov' := set_resp siov _).
  assert (Hid : resp_id (resp siov') = req_id (req siov)) by reflexivity.
  rewrite <- Hid. clearbody siov'. clear Hid.
  intros Hr.
  repeat match type of Hr with
         | context [if ?b then _ else _] => destruct b
         end.
  - inversion Hr; subst. apply mknod_frame.
  - inversion Hr; subst. apply mknodat_frame.
  - apply (setxattr_frame w s c siov' r Hr).
  - inversion Hr; subst. apply mount_frame.
  - inversion Hr; subst. apply bpf_frame.
  - inversion Hr; subst. apply sched_frame.
  - apply (sysinfo_frame w s c siov' r Hr).
  - inversion Hr; subst. split; reflexivity.
Qed.

(** X18.  For a valid frame whose emulator returns, exactly one message
    is written to the connection: it follows everything the emulator
    did, carries the message header and the request as they were
    received together with the response, and is followed only by the
    closing of the frame's descriptors.  When the instance is known the
    response has the id of the request and the emulator's return value
    as its error; when it is not, no emulator runs, the id is the one
    received in the frame's response, and the answer is -EPERM, or a
    continued system call where that is supported. *)
Theorem valid_frame_one_reply (tbl : list incus_seccomp_data_arch) (w : World)
    (s : State) (fd : Z) (siov : Iovec)
    (findPID : Z -> State -> option Instance)
    (rs : seccomp_notif_resp) (effs : list Effect) :
  HandleValid_in tbl w s fd siov findPID = Some (rs, effs) ->
  exists pre,
    effs = (pre ++ Sendmsg fd (Some (msg siov, req siov, rs))
                :: PutSeccompIovec siov)%list /\
    existsb is_wire pre = false /\
    match findPID (to_i32 (monitor_pid (msg siov))) s with
    | Some c =>
        exists r, handleSyscall_in tbl w s c siov = Returned r /\
                  pre = effects r /\
                  resp_id rs = req_id (req siov) /\
                  resp_error rs = to_i32 (errno r) /\
                  resp_flags rs = resp_flags (resp_out r)
    | None =>
        pre = [] /\ resp_id rs = resp_id (resp siov) /\
        if SeccompListenerContinue s
        then resp_error rs = 0 /\ continues rs = true
        else resp_error rs = - EPERM /\ resp_flags rs = resp_flags (resp siov)
    end.
Proof.
  unfold HandleValid_in.
  destruct (findPID (to_i32 (monitor_pid (msg siov))) s) as [c|].
  - destruct (handleSyscall_in tbl w s c siov) as [r|] eqn:Hr; [|discriminate].
    destruct (handleSyscall_frame tbl w s c siov r Hr) as [Hw Hid].
    unfold SendSeccompIovec. intros Heq. inversion Heq; subst. clear Heq.
    exists (effects r). split; [reflexivity|]. split; [exact Hw|].
    exists r. split; [reflexivity|]. split; [reflexivity|].
    cbn [seccomp_notify_update_response resp_id resp_error resp_flags].
    split; [exact Hid|]. split; [reflexivity|]. apply Z.lor_0_r.
  - unfold SendSeccompIovec.
    destruct (SeccompListenerContinue s); intros Heq; inversion Heq; subst;
      exists []; (split; [reflexivity|]); (split; [reflexivity|]);
      (split; [reflexivity|]); (split; [reflexivity|]).
    + split; [reflexivity|]. unfold continues.
      cbn [seccomp_notify_update_response resp_flags].
      rewrite Z.lor_spec. apply orb_true_r.
    + split; [reflexivity|].
      cbn [seccomp_notify_update_response resp_flags]. apply Z.lor_0_r.
Qed.

End ReplyProperties.

(** Scenario: the accepted [mknod] of /dev/null on descriptor 5. *)
Lemma valid_frame_one_reply_witness :
  exists pre,
    [ Forksyscall [ "forksyscall"; "mknod"; "4242"; "3"; "/dev/null"; "8630";
                    "259"; "0"; "0"; "0"; "0" ];
      Sendmsg 5 (Some (example_msg 0, mknod_null_req,
                       {| resp_id := 7; resp_val := 0; resp_error := 0;
                          resp_flags := 0 |}));
      CloseFd 11; CloseFd 10; CloseFd 12 ]
    = (pre ++ Sendmsg 5 (Some (example_msg 0, mknod_null_req,
                               {| resp_id := 7; resp_val := 0; resp_error := 0;
                                  resp_flags := 0 |}))
           :: PutSeccompIovec (example_siov mknod_null_req))%list /\
    existsb is_wire pre = false.
Proof.
  destruct (@valid_frame_one_reply example_util seccomp_notify_syscall_table
              (example_world "/dev/null" None) strict_state 5
              (example_siov mknod_null_req)
              (fun _ _ => Some (example_instance ∅))
              {| resp_id := 7; resp_val := 0; resp_error := 0; resp_flags := 0 |}
              [ Forksyscall [ "forksyscall"; "mknod"; "4242"; "3"; "/dev/null";
                              "8630"; "259"; "0"; "0"; "0"; "0" ];
                Sendmsg 5 (Some (example_msg 0, mknod_null_req,
                                 {| resp_id := 7; resp_val := 0; resp_error := 0;
                                    resp_flags := 0 |}));
                CloseFd 11; CloseFd 10; CloseFd 12 ])
    as (pre & Heff & Hwire & _).
  - vm_compute. reflexivity.
  - exists pre. split; [exact Heff|exact Hwire].
Defined.

(** X19.  The receive loop of a connection closes the connection exactly
    when a receive fails: the receives before the first failure yield
    one action each, valid or invalid, none of which closes the
    connection; the failure yields the closing and ends the loop, so
    that nothing received after it is looked at. *)
Theorem receive_loop_stops_at_first_error (expected : seccomp_notif_sizes)
    (ucred : Z) (before after : list Received) :
  existsb is_recv_error before = false ->
  length (receive_loop expected ucred before) = length before /\
  forallb is_frame_action (receive_loop expected ucred before) = true /\
  receive_loop expected ucred (before ++ RecvError :: after)
  = (receive_loop expected ucred before ++ [CloseConnection])%list.
Proof.
  induction before as [|r rest IH]; intros Hno.
  - repeat split.
  - cbn [existsb] in Hno. apply orb_false_elim in Hno as [Hr Hrest].
    destruct r as [|bytes [[fd0 fd1] fd2] m rq rs ck]; [discriminate Hr|].
    destruct (IH Hrest) as (Hlen & Hall & Hloop).
    cbn [receive_loop ReceiveSeccompIovec app].
    split; [cbn [length]; rewrite Hlen; reflexivity|].
    split.
    + cbn [forallb]. rewrite Hall.
      destruct (IsValidSeccompIovec _ _ _); reflexivity.
    + rewrite Hloop. reflexivity.
Qed.

(** An invalid frame, a valid frame, a failed receive and one more
    frame. *)
Lemma receive_loop_stops_at_first_error_witness :
  receive_loop example_sizes 4000
    [ example_frame 1 mount_req; example_frame 0 mount_req; RecvError;
      example_frame 0 mount_req ]
  = [ GoHandleInvalid
        {| ucred_pid := 4000; memFd := 11; procFd := 10; notifyFd := 12;
           msg := example_msg 1; req := mount_req; resp := resp_zero;
           cookie := EmptyString |};
      GoHandleValid (example_siov mount_req);
      CloseConnection ].
Proof.
  destruct (receive_loop_stops_at_first_error example_sizes 4000
              [ example_frame 1 mount_req; example_frame 0 mount_req ]
              [ example_frame 0 mount_req ] eq_refl) as (_ & _ & Hloop).
  cbn [app] in Hloop. rewrite Hloop. vm_compute. reflexivity.
Defined.

(* ------------------------------------------------------------------ *)
(** ** The helpers of the mount emulator *)

Section MountFilterProperties.
Context `{SharedUtil}.




End MountFilterProperties.


Lemma land_bit (x i : Z) :
  0 <= i -> (Z.land x (Z.shiftl 1 i) =? 0) = negb (Z.testbit x i).
Proof.
  intros Hi. rewrite Z.shiftl_1_l.
  destruct (Z.testbit x i) eqn:Hb; cbn [negb].
  - assert (Hl : Z.land x (2 ^ i) = 2 ^ i).
    { apply Z.bits_inj'. intros n Hn.
      rewrite Z.land_spec, Z.pow2_bits_eqb by exact Hi.
      destruct (Z.eqb_spec i n) as [<-|Hne];
        [rewrite Hb; reflexivity|apply andb_false_r]. }
    rewrite Hl. apply Z.eqb_neq.
    pose proof (Z.pow_pos_nonneg 2 i ltac:(lia) Hi). lia.
  - assert (Hl : Z.land x (2 ^ i) = 0).
    { apply Z.bits_inj'. intros n Hn.
      rewrite Z.land_spec, Z.pow2_bits_eqb, Z.bits_0 by exact Hi.
      destruct (Z.eqb_spec i n) as [<-|Hne];
        [rewrite Hb; reflexivity|apply andb_false_r]. }
    rewrite Hl. reflexivity.
Qed.

Lemma foldl_ext_in {A B : Type} (f g : A -> B -> A) (l : list B) (a : A) :
  (forall x, In x l -> forall acc, f acc x = g acc x) ->
  foldl f a l = foldl g a l.
Proof.
  revert a. induction l as [|x rest IH]; intros a Hext; [reflexivity|].
  cbn [foldl]. rewrite (Hext x (or_introl eq_refl)).
  apply IH. intros y Hy. apply Hext. right. exact Hy.
Qed.

Lemma mountFlagsToOpts_step (flags : Z) :
  mountFlagsToOpts flags
  = foldl (mount_opt_step (Z.ldiff flags MS_REC) (Z.land flags MS_REC))
      EmptyString (seqZ 0 31).
Proof. reflexivity. Qed.

(** An option is produced only for a known bit that is set. *)
Lemma mount_opt_step_bit (flags msRec : Z) (opts : string) (i : Z) :
  In i (seqZ 0 31) ->
  Z.testbit flags i && Z.testbit knownFlags i = false ->
  mount_opt_step flags msRec opts i = opts.
Proof.
  intros Hin Hb. unfold mount_opt_step.
  assert (Hi : 0 <= i).
  { apply list_elem_of_In, elem_of_seqZ in Hin. lia. }
  rewrite (land_bit flags i Hi).
  destruct (Z.testbit flags i); cbn [negb andb] in *; [|reflexivity].
  revert Hb. vm_compute in Hin.
  repeat destruct Hin as [<-|Hin]; try contradiction;
    try (intros Hc; vm_compute in Hc; discriminate Hc);
    intros _; vm_compute; reflexivity.
Qed.

(** X21.  The options computed from the mount flags depend on the bits
    of [knownFlagsRecursive] only: two flag words that agree on those
    bits give the same option string.  A word without any of them, such
    as [MS_REC] alone or a word of bits 31 and above, gives the empty
    string. *)
Theorem mount_options_known_flags_only (flags1 flags2 : Z) :
  Z.land flags1 knownFlagsRecursive = Z.land flags2 knownFlagsRecursive ->
  mountFlagsToOpts flags1 = mountFlagsToOpts flags2.
Proof.
  intros Heq. rewrite !mountFlagsToOpts_step.
  assert (Hbit : forall i, Z.testbit knownFlagsRecursive i = true ->
                           Z.testbit flags1 i = Z.testbit flags2 i).
  { intros i Hk. apply (f_equal (fun z => Z.testbit z i)) in Heq.
    rewrite !Z.land_spec, Hk, !andb_true_r in Heq. exact Heq. }
  assert (Hrec : Z.land flags1 MS_REC = Z.land flags2 MS_REC).
  { apply Z.bits_inj'. intros n Hn. rewrite !Z.land_spec.
    destruct (Z.testbit MS_REC n) eqn:Hr; [|rewrite !andb_false_r; reflexivity].
    rewrite (Hbit n); [reflexivity|].
    unfold knownFlagsRecursive. rewrite Z.lor_spec, Hr. apply orb_true_r. }
  rewrite Hrec. apply foldl_ext_in. intros i Hin opts.
  assert (Hi : 0 <= i).
  { apply list_elem_of_In, elem_of_seqZ in Hin. lia. }
  destruct (Z.testbit knownFlags i) eqn:Hk.
  - unfold mount_opt_step. rewrite !land_bit, !Z.ldiff_spec by exact Hi.
    rewrite (Hbit i); [reflexivity|].
    unfold knownFlagsRecursive. rewrite Z.lor_spec, Hk. reflexivity.
  - rewrite !mount_opt_step_bit; try reflexivity; try exact Hin;
      rewrite Hk; apply andb_false_r.
Qed.

(** [MS_RDONLY | MS_NOSUID] with and without [MS_REC] and bit 40. *)
Lemma mount_options_known_flags_only_witness :
  mountFlagsToOpts (Z.lor 3 (Z.lor MS_REC (2 ^ 40))) = "ro,nosuid".
Proof.
  rewrite (mount_options_known_flags_only (Z.lor 3 (Z.lor MS_REC (2 ^ 40)))
             (Z.lor 3 MS_REC)).
  - vm_compute. reflexivity.
  - vm_compute. reflexivity.
Defined.

Lemma parse_digits_no_separator (sep : ascii) (s : string) (acc x : Z) :
  digit_of sep = None ->
  parse_digits s acc = Some x ->
  split_on sep s = [s].
Proof.
  intros Hsep. revert acc. induction s as [|ch rest IH]; intros acc Hp;
    [reflexivity|].
  cbn [parse_digits] in Hp. cbn [split_on].
  destruct (digit_of ch) as [d|] eqn:Hd; [|discriminate].
  destruct (Ascii.eqb_spec ch sep) as [->|_]; [congruence|].
  rewrite (IH _ Hp). reflexivity.
Qed.

Lemma ParseInt_no_separator (sep : ascii) (v : string) (n : Z) :
  sep = ","%char \/ sep = "="%char ->
  ParseInt v = Some n ->
  split_on sep v = [v].
Proof.
  intros Hsep Hp.
  assert (Hd : digit_of sep = None) by (destruct Hsep as [->| ->]; reflexivity).
  unfold ParseInt in Hp. destruct v as [|ch rest]; [discriminate|].
  destruct (Ascii.eqb_spec ch "+"%char) as [->|Hplus];
    [|destruct (Ascii.eqb_spec ch "-"%char) as [->|Hminus]].
  - destruct (str_empty rest); [discriminate|].
    destruct (parse_digits rest 0) as [un|] eqn:Hr; [|discriminate].
    cbn [split_on]. rewrite (parse_digits_no_separator sep rest 0 un Hd Hr).
    destruct Hsep as [->| ->]; reflexivity.
  - destruct (str_empty rest); [discriminate|].
    destruct (parse_digits rest 0) as [un|] eqn:Hr; [|discriminate].
    cbn [split_on]. rewrite (parse_digits_no_separator sep rest 0 un Hd Hr).
    destruct Hsep as [->| ->]; reflexivity.
  - cbn [str_empty] in Hp.
    destruct (parse_digits (String ch rest) 0) as [un|] eqn:Hr; [|discriminate].
    apply (parse_digits_no_separator sep _ 0 un Hd Hr).
Qed.

(** X22.  For a [hugetlbfs] mount whose data is the single option
    [gid=<number>], the number is translated with the first component of
    [ShiftIntoNS(n, 0)], that is, as a user id; the translated option is
    followed by a [uid=] option for the id passed in, and the idmap type
    becomes none.  A number whose translation is negative leaves the
    arguments as they were. *)
Theorem hugetlbfs_gid_translated_as_uid (c : Instance) (a : MountArgs)
    (nsuid nsgid : Z) (v : string) (n : Z) (idmapset : IdmapSet) :
  fstype a = "hugetlbfs" ->
  mnt_data a = "gid=" +:+ v ->
  ParseInt v = Some n ->
  CurrentIdmap c = Some idmapset ->
  mountHandleHugetlbfsArgs c a nsuid nsgid
  = inl (if fst (ShiftIntoNS idmapset n 0) <? 0 then a
         else with_data a
                ("gid=" +:+ fmt_d (fst (ShiftIntoNS idmapset n 0)) +:+
                 ",uid=" +:+ fmt_d nsuid)
                StorageTypeNone).
Proof.
  intros Hfs Hdata Hv Hmap.
  unfold mountHandleHugetlbfsArgs. rewrite Hfs, Hdata, Hmap.
  change ("gid=" +:+ v)
    with (String "g" (String "i" (String "d" (String "=" v)))).
  cbn [String.eqb Ascii.eqb Bool.eqb andb negb str_empty].
  assert (Hcomma : split_on ","%char (String "g" (String "i" (String "d" (String "=" v))))
                   = [String "g" (String "i" (String "d" (String "=" v)))]).
  { cbn [split_on Ascii.eqb Bool.eqb andb].
    rewrite (ParseInt_no_separator ","%char v n (or_introl eq_refl) Hv).
    reflexivity. }
  rewrite Hcomma. cbn [hugetlbfs_opts].
  assert (Hpu : String.prefix "uid=" (String "g" (String "i" (String "d" (String "=" v))))
                = false) by reflexivity.
  assert (Hpg : String.prefix "gid=" (String "g" (String "i" (String "d" (String "=" v))))
                = true).
  { cbn. destruct v; reflexivity. }
  rewrite Hpu, Hpg.
  assert (Heq : split_on "="%char (String "g" (String "i" (String "d" (String "=" v))))
                = ["gid"; v]).
  { cbn [split_on Ascii.eqb Bool.eqb andb].
    rewrite (ParseInt_no_separator "="%char v n (or_intror eq_refl) Hv).
    reflexivity. }
  rewrite Heq, Hv. cbn zeta.
  destruct (Z.ltb_spec (fst (ShiftIntoNS idmapset n 0)) 0) as [Hneg|Hpos];
    [reflexivity|].
  cbn [Z.eqb app]. 
  destruct (Z.eqb_spec (fst (ShiftIntoNS idmapset n 0)) (-1)) as [Hm|_]; [lia|].
  reflexivity.
Qed.

(** With the uid range at 100000 and the gid range at 200000,
    [gid=100005] becomes [gid=5]. *)
Lemma hugetlbfs_gid_translated_as_uid_witness :
  mountHandleHugetlbfsArgs split_instance (hugetlbfs_args "gid=100005")
    100000 200000
  = inl (with_data (hugetlbfs_args "gid=100005") "gid=5,uid=100000"
           StorageTypeNone).
Proof.
  rewrite (hugetlbfs_gid_translated_as_uid split_instance
             (hugetlbfs_args "gid=100005") 100000 200000 "100005" 100005
             split_idmap eq_refl eq_refl eq_refl eq_refl).
  vm_compute. reflexivity.
Defined.

(* ------------------------------------------------------------------ *)
(** ** Storage utilities *)

Section StorageConversions.
Context `{Storage.Packages}.

(** X23.  The conversions between volume types and their database codes
    are inverse to each other, and so are those between content types
    and their codes: a value that one direction accepts is mapped back
    to itself by the other, and nothing else is.  Every code that the
    conversions from names produce is accepted by the conversion from
    codes.  The constants of a group are pairwise distinct, as the Go
    compiler requires of the cases of one switch. *)
Theorem volume_codes_round_trip :
  NoDup [ Storage.StoragePoolVolumeTypeContainer;
          Storage.StoragePoolVolumeTypeVM;
          Storage.StoragePoolVolumeTypeImage;
          Storage.StoragePoolVolumeTypeCustom ] ->
  NoDup [ Storage.VolumeTypeContainer; Storage.VolumeTypeVM;
          Storage.VolumeTypeImage; Storage.VolumeTypeCustom ] ->
  NoDup [ Storage.StoragePoolVolumeContentTypeBlock;
          Storage.StoragePoolVolumeContentTypeFS;
          Storage.StoragePoolVolumeContentTypeISO ] ->
  NoDup [ Storage.ContentTypeBlock; Storage.ContentTypeFS;
          Storage.ContentTypeISO ] ->
  (forall volType code,
     Storage.VolumeTypeToDBType volType = (code, None) <->
     Storage.VolumeDBTypeToType code = (volType, None)) /\
  (forall contentType code,
     Storage.VolumeContentTypeToDBContentType contentType = (code, None) <->
     Storage.VolumeDBContentTypeToContentType code = (contentType, None)) /\
  (forall name code,
     Storage.VolumeTypeNameToDBType name = (code, None) ->
     snd (Storage.VolumeDBTypeToType code) = None) /\
  (forall name code,
     Storage.VolumeContentTypeNameToContentType name = (code, None) ->
     snd (Storage.VolumeDBContentTypeToContentType code) = None).
Proof.
  intros Hc Ht Hcc Hct.
  repeat match goal with
         | Hn : NoDup (_ :: _) |- _ =>
             apply NoDup_cons in Hn as [? Hn]
         end.
  repeat match goal with
         | Hn : _ ∉ _ :: _ |- _ => apply not_elem_of_cons in Hn as [? Hn]
         end.
  unfold Storage.VolumeTypeToDBType, Storage.VolumeDBTypeToType,
    Storage.VolumeContentTypeToDBContentType,
    Storage.VolumeDBContentTypeToContentType,
    Storage.VolumeTypeNameToDBType, Storage.VolumeContentTypeNameToContentType.
  repeat split; intros;
    repeat match goal with
           | Hx : context [String.eqb ?a ?b] |- _ =>
               destruct (String.eqb_spec a b); subst
           | Hx : context [?a =? ?b] |- _ =>
               destruct (Z.eqb_spec a b); subst
           end;
    try discriminate;
    repeat match goal with
           | Hx : (_, _) = (_, _) |- _ => inversion Hx; subst; clear Hx
           end;
    repeat match goal with
           | |- context [String.eqb ?a ?b] =>
               destruct (String.eqb_spec a b); subst
           | |- context [?a =? ?b] =>
               destruct (Z.eqb_spec a b); subst
           end;
    try reflexivity; try congruence.
Qed.

End StorageConversions.

(** The constants as the packages define them: the volume type of
    virtual machines has the code 3. *)
Lemma volume_codes_round_trip_witness :
  @Storage.VolumeDBTypeToType Storage.example_packages 3
  = ("virtual-machines", None).
Proof.
  destruct (@volume_codes_round_trip Storage.example_packages)
    as (Hvol & _).
  - apply (bool_decide_unpack _). vm_compute. reflexivity.
  - apply (bool_decide_unpack _). vm_compute. reflexivity.
  - apply (bool_decide_unpack _). vm_compute. reflexivity.
  - apply (bool_decide_unpack _). vm_compute. reflexivity.
  - apply Hvol. reflexivity.
Defined.

Lemma diff_fold (oldConfig newConfig : gmap string string) (keys : list string)
    (changed : list string) (userOnly : bool) :
  NoDup changed ->
  NoDup (fst (foldl (Storage.diff_step oldConfig newConfig)
                (changed, userOnly) keys)) /\
  (forall k,
     In k (fst (foldl (Storage.diff_step oldConfig newConfig)
                  (changed, userOnly) keys)) <->
     In k changed \/
     (In k keys /\ cfg_get oldConfig k <> cfg_get newConfig k)) /\
  snd (foldl (Storage.diff_step oldConfig newConfig) (changed, userOnly) keys)
  = userOnly &&
    forallb (fun k => String.eqb (cfg_get oldConfig k) (cfg_get newConfig k)
                      || String.prefix "user." k) keys.
Proof.
  revert changed userOnly.
  induction keys as [|key rest IH]; intros changed userOnly Hnd; cbn [foldl].
  - cbn [fst snd forallb In]. rewrite andb_true_r.
    split; [exact Hnd|]. split; [|reflexivity]. intros k. tauto.
  - unfold Storage.diff_step at 2 4 6.
    destruct (String.eqb_spec (cfg_get oldConfig key) (cfg_get newConfig key))
      as [Heq|Hne]; cbn [negb].
    + destruct (IH changed userOnly Hnd) as (Hn & Hin & Hu).
      split; [exact Hn|]. split.
      * intros k. rewrite Hin. cbn [In]. split.
        -- intros [Hc|[Hk Hd]]; [left; exact Hc|right; split; [right; exact Hk|exact Hd]].
        -- intros [Hc|[[->|Hk] Hd]];
             [left; exact Hc|contradiction|right; split; assumption].
      * rewrite Hu. cbn [forallb].
        rewrite (proj2 (String.eqb_eq _ _) Heq). reflexivity.
    + destruct (existsb (String.eqb key) changed) eqn:Hex; cbn [negb].
      * apply existsb_exists in Hex as (x & Hx & Hkx).
        apply String.eqb_eq in Hkx. subst x.
        destruct (IH changed
                    (if negb (String.prefix "user." key) then false else userOnly)
                    Hnd) as (Hn & Hin & Hu).
        split; [exact Hn|]. split.
        -- intros k. rewrite Hin. cbn [In]. split.
           ++ intros [Hc|[Hk Hd]];
                [left; exact Hc|right; split; [right; exact Hk|exact Hd]].
           ++ intros [Hc|[[->|Hk] Hd]];
                [left; exact Hc|left; exact Hx|right; split; assumption].
        -- rewrite Hu. cbn [forallb].
           rewrite (proj2 (String.eqb_neq _ _) Hne). cbn [orb].
           destruct (String.prefix "user." key), userOnly; reflexivity.
      * assert (Hnot : ~ In key changed).
        { intros Hc.
          assert (Ht : existsb (String.eqb key) changed = true).
          { apply existsb_exists. exists key. split; [exact Hc|].
            apply String.eqb_refl. }
          congruence. }
        assert (Hnd' : NoDup (changed ++ [key])).
        { apply NoDup_app. split; [exact Hnd|]. split.
          - intros x Hx Hk. apply list_elem_of_In in Hx.
            apply list_elem_of_singleton in Hk. subst x. contradiction.
          - apply NoDup_singleton. }
        destruct (IH (changed ++ [key])%list
                    (if negb (String.prefix "user." key) then false else userOnly)
                    Hnd') as (Hn & Hin & Hu).
        split; [exact Hn|]. split.
        -- intros k. rewrite Hin, in_app_iff. cbn [In]. split.
           ++ intros [[Hc|[->|[]]]|[Hk Hd]].
              ** left; exact Hc.
              ** right. split; [left; reflexivity|exact Hne].
              ** right. split; [right; exact Hk|exact Hd].
           ++ intros [Hc|[[->|Hk] Hd]].
              ** left; left; exact Hc.
              ** left; right; left; reflexivity.
              ** right; split; assumption.
        -- rewrite Hu. cbn [forallb].
           rewrite (proj2 (String.eqb_neq _ _) Hne). cbn [orb].
           destruct (String.prefix "user." key), userOnly; reflexivity.
Qed.

(** X24.  [ConfigDiff] returns every key whose value differs between the
    two configurations exactly once, in whatever order Go ranges over
    the two maps; a missing key counts as the empty string, so that a
    key with an empty value on one side and no entry on the other is not
    a change.  The second result is true exactly when there is a change
    and every changed key starts with [user.]. *)
Theorem config_diff_changed_keys (order_old order_new : list string)
    (oldConfig newConfig : gmap string string) :
  order_old ≡ₚ (map_to_list oldConfig).*1 ->
  order_new ≡ₚ (map_to_list newConfig).*1 ->
  NoDup (fst (Storage.ConfigDiff order_old order_new oldConfig newConfig)) /\
  (forall k,
     In k (fst (Storage.ConfigDiff order_old order_new oldConfig newConfig)) <->
     cfg_get oldConfig k <> cfg_get newConfig k) /\
  (snd (Storage.ConfigDiff order_old order_new oldConfig newConfig) = true <->
   fst (Storage.ConfigDiff order_old order_new oldConfig newConfig) <> [] /\
   forall k,
     In k (fst (Storage.ConfigDiff order_old order_new oldConfig newConfig)) ->
     String.prefix "user." k = true).
Proof.
  intros Hold Hnew.
  assert (Hkeys : forall k, cfg_get oldConfig k <> cfg_get newConfig k ->
                            In k order_old \/ In k order_new).
  { intros k Hd. unfold cfg_get in Hd.
    destruct (oldConfig !! k) as [v|] eqn:Ho.
    - left. apply list_elem_of_In. rewrite Hold.
      apply list_elem_of_fmap. exists (k, v). split; [reflexivity|].
      apply elem_of_map_to_list. exact Ho.
    - destruct (newConfig !! k) as [v|] eqn:Hn; [|contradiction].
      right. apply list_elem_of_In. rewrite Hnew.
      apply list_elem_of_fmap. exists (k, v). split; [reflexivity|].
      apply elem_of_map_to_list. exact Hn. }
  unfold Storage.ConfigDiff.
  destruct (diff_fold oldConfig newConfig order_old [] true NoDup_nil_2)
    as (Hn1 & Hin1 & Hu1).
  destruct (foldl (Storage.diff_step oldConfig newConfig) ([], true) order_old)
    as [ch1 u1]. cbn [fst snd] in *.
  destruct (diff_fold oldConfig newConfig order_new ch1 u1 Hn1)
    as (Hn2 & Hin2 & Hu2).
  destruct (foldl (Storage.diff_step oldConfig newConfig) (ch1, u1) order_new)
    as [ch2 u2]. cbn [fst snd] in *.
  assert (Hin : forall k, In k ch2 <-> cfg_get oldConfig k <> cfg_get newConfig k).
  { intros k. rewrite Hin2, Hin1. cbn [In]. split.
    - intros [[[]|[_ Hd]]|[_ Hd]]; exact Hd.
    - intros Hd. destruct (Hkeys k Hd) as [Hk|Hk].
      + left. right. split; assumption.
      + right. split; assumption. }
  assert (Hu : u2 = true <-> forall k, In k ch2 -> String.prefix "user." k = true).
  { rewrite Hu2, Hu1. cbn [andb]. rewrite andb_true_iff, !forallb_forall.
    split.
    - intros [Ho Hw] k Hk. apply Hin in Hk.
      destruct (Hkeys k Hk) as [Hi|Hi];
        [specialize (Ho k Hi)|specialize (Hw k Hi)].
      + apply orb_true_iff in Ho as [He|Hp]; [|exact Hp].
        apply String.eqb_eq in He. contradiction.
      + apply orb_true_iff in Hw as [He|Hp]; [|exact Hp].
        apply String.eqb_eq in He. contradiction.
    - intros Hall. split; intros k Hk;
        destruct (String.eqb_spec (cfg_get oldConfig k) (cfg_get newConfig k))
          as [He|Hd]; try reflexivity; cbn [orb];
        apply Hall, Hin, Hd. }
  destruct ch2 as [|k0 rest]; cbn [length Nat.eqb fst snd].
  - split; [constructor|]. split; [exact Hin|].
    split; [discriminate|]. intros [Hc _]. contradiction.
  - split; [exact Hn2|]. split; [exact Hin|].
    rewrite Hu. split.
    + intros Hall. split; [discriminate|exact Hall].
    + intros [_ Hall]. exact Hall.
Qed.

(** A changed user key, an unchanged size, and a new key with an empty
    value: one change, of a user key. *)
Lemma config_diff_changed_keys_witness :
  Storage.ConfigDiff (map_to_list Storage.old_volume_config).*1
    (map_to_list Storage.new_volume_config).*1
    Storage.old_volume_config Storage.new_volume_config
  = ([ "user.comment" ], true) /\
  (forall k,
     In k (fst (Storage.ConfigDiff (map_to_list Storage.old_volume_config).*1
                  (map_to_list Storage.new_volume_config).*1
                  Storage.old_volume_config Storage.new_volume_config)) <->
     cfg_get Storage.old_volume_config k <> cfg_get Storage.new_volume_config k).
Proof.
  split; [vm_compute; reflexivity|].
  destruct (config_diff_changed_keys
              (map_to_list Storage.old_volume_config).*1
              (map_to_list Storage.new_volume_config).*1
              Storage.old_volume_config Storage.new_volume_config)
    as (_ & Hin & _).
  - reflexivity.
  - reflexivity.
  - exact Hin.
Defined.

(* ------------------------------------------------------------------ *)
(** ** Comparing snapshots *)

Lemma indexes_where_In {A : Type} (p : A -> bool) (l : list A) (k i : nat) :
  In i (Storage.indexes_where p l k) <->
  exists j x, i = (k + j)%nat /\ l !! j = Some x /\ p x = true.
Proof.
  revert k. induction l as [|y rest IH]; intros k; cbn [Storage.indexes_where].
  - split; [intros []|intros (j & x & _ & Hl & _); discriminate Hl].
  - rewrite in_app_iff, IH. split.
    + intros [Hy|(j & x & -> & Hl & Hp)].
      * destruct (p y) eqn:Hp; [|destruct Hy].
        destruct Hy as [<-|[]]. exists 0%nat, y.
        split; [lia|]. split; [reflexivity|exact Hp].
      * exists (S j), x. split; [lia|]. split; [exact Hl|exact Hp].
    + intros ([|j] & x & -> & Hl & Hp).
      * left. cbn in Hl. inversion Hl; subst. rewrite Hp. left. lia.
      * right. exists j, x. split; [lia|]. split; [exact Hl|exact Hp].
Qed.

Lemma indexes_where_sorted {A : Type} (p : A -> bool) (l : list A) (k : nat) :
  StronglySorted lt (Storage.indexes_where p l k) /\
  Forall (fun i => (k <= i < k + length l)%nat) (Storage.indexes_where p l k).
Proof.
  revert k. induction l as [|y rest IH]; intros k; cbn [Storage.indexes_where].
  - split; constructor.
  - destruct (IH (S k)) as [Hs Hf].
    assert (Hf' : Forall (fun i => (k <= i < k + length (y :: rest))%nat)
                    (Storage.indexes_where p rest (S k))).
    { eapply Forall_impl; [exact Hf|]. cbn. intros i Hi. lia. }
    destruct (p y); cbn [app]; [|split; assumption].
    split.
    + constructor; [exact Hs|].
      eapply Forall_impl; [exact Hf|]. cbn. intros i Hi. lia.
    + constructor; [cbn; lia|exact Hf'].
Qed.

Lemma indexes_where_none {A : Type} (p : A -> bool) (l : list A) (k : nat) :
  (forall x, In x l -> p x = false) -> Storage.indexes_where p l k = [].
Proof.
  revert k. induction l as [|y rest IH]; intros k Hall; [reflexivity|].
  cbn [Storage.indexes_where]. rewrite (Hall y (or_introl eq_refl)).
  apply IH. intros x Hx. apply Hall. right. exact Hx.
Qed.

Lemma source_loop_indexes (targetByName : gmap string Storage.ComparableSnapshot)
    (excludeOlder : bool) (latest : Z) (l : list Storage.ComparableSnapshot)
    (k : nat) (acc : list nat) :
  Storage.source_loop targetByName excludeOlder latest l k acc
  = (acc ++ Storage.indexes_where
              (Storage.to_sync targetByName excludeOlder latest) l k)%list.
Proof.
  revert k acc. induction l as [|s rest IH]; intros k acc;
    cbn [Storage.source_loop Storage.indexes_where].
  - rewrite app_nil_r. reflexivity.
  - rewrite IH.
    destruct (Storage.to_sync targetByName excludeOlder latest s);
      [rewrite <- app_assoc|]; reflexivity.
Qed.

Lemma target_loop_indexes (sourceByName : gmap string Storage.ComparableSnapshot)
    (l : list Storage.ComparableSnapshot) (k : nat) (del : list nat)
    (latest : Z) :
  fst (Storage.target_loop sourceByName l k del latest)
  = (del ++ Storage.indexes_where (to_delete sourceByName) l k)%list.
Proof.
  revert k del latest. induction l as [|t rest IH]; intros k del latest;
    cbn [Storage.target_loop Storage.indexes_where].
  - rewrite app_nil_r. reflexivity.
  - unfold to_delete at 1.
    destruct (match sourceByName !! Storage.Name t with
              | Some sourceSnap => Storage.differs sourceSnap t
              | None => true
              end).
    + rewrite IH, <- app_assoc. reflexivity.
    + destruct (latest <? Storage.CreationDate t); rewrite IH; reflexivity.
Qed.

Lemma by_name_fold_other (l : list Storage.ComparableSnapshot)
    (m : gmap string Storage.ComparableSnapshot) (n : string) :
  ~ In n (Storage.Name <$> l) ->
  foldl (fun m sn => <[Storage.Name sn := sn]> m) m l !! n = m !! n.
Proof.
  revert m. induction l as [|y rest IH]; intros m Hn; [reflexivity|].
  cbn [foldl]. rewrite IH by (intros Hc; apply Hn; right; exact Hc).
  apply lookup_insert_ne. intros Heq. apply Hn. left. exact Heq.
Qed.

Lemma by_name_fold_lookup (l : list Storage.ComparableSnapshot)
    (m : gmap string Storage.ComparableSnapshot) (n : string)
    (x : Storage.ComparableSnapshot) :
  foldl (fun m sn => <[Storage.Name sn := sn]> m) m l !! n = Some x ->
  m !! n = Some x \/ (In x l /\ Storage.Name x = n).
Proof.
  revert m. induction l as [|y rest IH]; intros m Hl; [left; exact Hl|].
  cbn [foldl] in Hl. destruct (IH _ Hl) as [Hm|[Hin Hn]].
  - rewrite lookup_insert in Hm. case_decide.
    + inversion Hm; subst. right. split; [left; reflexivity|reflexivity].
    + left. exact Hm.
  - right. split; [right; exact Hin|exact Hn].
Qed.

Lemma by_name_lookup (l : list Storage.ComparableSnapshot) (n : string)
    (x : Storage.ComparableSnapshot) :
  Storage.by_name l !! n = Some x -> In x l /\ Storage.Name x = n.
Proof.
  intros Hl. destruct (by_name_fold_lookup l ∅ n x Hl) as [He|Hx];
    [rewrite lookup_empty in He; discriminate|exact Hx].
Qed.

Lemma by_name_unique (l : list Storage.ComparableSnapshot)
    (x : Storage.ComparableSnapshot) :
  NoDup (Storage.Name <$> l) -> In x l ->
  Storage.by_name l !! Storage.Name x = Some x.
Proof.
  unfold Storage.by_name. generalize (∅ : gmap string Storage.ComparableSnapshot).
  induction l as [|y rest IH]; intros m Hnd Hin; [destruct Hin|].
  cbn [fmap list_fmap] in Hnd. apply NoDup_cons in Hnd as [Hy Hnd].
  cbn [foldl].
  destruct (in_dec String.string_dec (Storage.Name x) (Storage.Name <$> rest))
    as [Hr|Hr].
  - destruct Hin as [->|Hin]; [|apply IH; assumption].
    exfalso. apply Hy, list_elem_of_In. exact Hr.
  - destruct Hin as [->|Hin].
    + rewrite by_name_fold_other by exact Hr. apply lookup_insert_eq.
    + exfalso. apply Hr, in_map. exact Hin.
Qed.

Lemma differs_false (a b : Storage.ComparableSnapshot) :
  Storage.differs a b = false <->
  Storage.CreationDate a = Storage.CreationDate b /\
  Storage.ID a = Storage.ID b.
Proof.
  unfold Storage.differs.
  destruct (Z.eqb_spec (Storage.CreationDate a) (Storage.CreationDate b)),
    (String.eqb_spec (Storage.ID a) (Storage.ID b)); cbn; split;
    try discriminate; try tauto.
Qed.

Lemma snapshot_eq (a b : Storage.ComparableSnapshot) :
  Storage.Name a = Storage.Name b -> Storage.differs a b = false -> a = b.
Proof.
  intros Hn Hd. apply differs_false in Hd as [Hc Hi].
  destruct a, b; cbn in *; subst; reflexivity.
Qed.

Lemma In_lookup {A : Type} (l : list A) (x : A) :
  In x l <-> exists i, l !! i = Some x.
Proof.
  rewrite <- list_elem_of_In. apply list_elem_of_lookup.
Qed.

Lemma CompareSnapshots_indexes (sourceSnapshots targetSnapshots
                                  : list Storage.ComparableSnapshot)
    (excludeOlder : bool) :
  exists latest,
    Storage.CompareSnapshots sourceSnapshots targetSnapshots excludeOlder
    = (Storage.indexes_where
         (Storage.to_sync (Storage.by_name targetSnapshots) excludeOlder latest)
         sourceSnapshots 0,
       Storage.indexes_where (to_delete (Storage.by_name sourceSnapshots))
         targetSnapshots 0).
Proof.
  unfold Storage.CompareSnapshots.
  pose proof (target_loop_indexes (Storage.by_name sourceSnapshots)
                targetSnapshots 0 [] 0) as Hdel.
  destruct (Storage.target_loop (Storage.by_name sourceSnapshots)
              targetSnapshots 0 [] 0) as [del latest].
  cbn [fst app] in Hdel. subst del.
  exists latest. rewrite source_loop_indexes. reflexivity.
Qed.

(** X25.  For source snapshots with unique names, the plan computed
    without [excludeOlder] makes the target equal to the source: a
    snapshot is one of the source exactly when it is a target snapshot
    that is not marked for deletion or a source snapshot marked for
    syncing.  When the names of the target are unique as well, no
    snapshot is both kept and synced; and comparing a list with itself
    yields nothing to sync and nothing to delete. *)
Theorem compare_snapshots_plan_complete
    (sourceSnapshots targetSnapshots : list Storage.ComparableSnapshot) :
  NoDup (Storage.Name <$> sourceSnapshots) ->
  (forall x,
     In x sourceSnapshots <->
     (exists i,
        targetSnapshots !! i = Some x /\
        ~ In i (snd (Storage.CompareSnapshots sourceSnapshots targetSnapshots
                       false))) \/
     (exists i,
        In i (fst (Storage.CompareSnapshots sourceSnapshots targetSnapshots
                     false)) /\
        sourceSnapshots !! i = Some x)) /\
  (NoDup (Storage.Name <$> targetSnapshots) ->
   forall i j x,
     targetSnapshots !! i = Some x ->
     ~ In i (snd (Storage.CompareSnapshots sourceSnapshots targetSnapshots
                    false)) ->
     In j (fst (Storage.CompareSnapshots sourceSnapshots targetSnapshots false)) ->
     sourceSnapshots !! j <> Some x) /\
  (forall excludeOlder,
     Storage.CompareSnapshots sourceSnapshots sourceSnapshots excludeOlder
     = ([], [])).
Proof.
  intros Hnd.
  destruct (CompareSnapshots_indexes sourceSnapshots targetSnapshots false)
    as [latest ->]. cbn [fst snd].
  assert (Hkept : forall i x,
            targetSnapshots !! i = Some x ->
            ~ In i (Storage.indexes_where
                      (to_delete (Storage.by_name sourceSnapshots))
                      targetSnapshots 0) ->
            to_delete (Storage.by_name sourceSnapshots) x = false).
  { intros i x Hl Hno.
    destruct (to_delete (Storage.by_name sourceSnapshots) x) eqn:Hd;
      [|reflexivity].
    exfalso. apply Hno, indexes_where_In. exists i, x.
    split; [reflexivity|]. split; assumption. }
  assert (Hsrc : forall x,
            to_delete (Storage.by_name sourceSnapshots) x = false ->
            In x sourceSnapshots).
  { intros x Hd. unfold to_delete in Hd.
    destruct (Storage.by_name sourceSnapshots !! Storage.Name x) as [s|] eqn:Hs;
      [|discriminate].
    apply by_name_lookup in Hs as [Hin Hn].
    rewrite <- (snapshot_eq s x Hn Hd). exact Hin. }
  split; [|split].
  - intros x. split.
    + intros Hx.
      destruct (Storage.to_sync (Storage.by_name targetSnapshots) false latest x)
        eqn:Hsync.
      * right. apply In_lookup in Hx as [i Hi]. exists i. split; [|exact Hi].
        apply indexes_where_In. exists i, x.
        split; [reflexivity|]. split; assumption.
      * left. unfold Storage.to_sync in Hsync.
        destruct (Storage.by_name targetSnapshots !! Storage.Name x) as [t|] eqn:Ht;
          [|discriminate].
        apply by_name_lookup in Ht as [Hin Hn].
        pose proof (snapshot_eq t x Hn Hsync) as ->.
        apply In_lookup in Hin as [i Hi]. exists i. split; [exact Hi|].
        intros Hdel. apply indexes_where_In in Hdel as (j & y & Hij & Hl & Hd).
        cbn in Hij. subst j. rewrite Hi in Hl. inversion Hl; subst y.
        unfold to_delete in Hd.
        rewrite (by_name_unique sourceSnapshots x Hnd Hx) in Hd.
        assert (Hrefl : Storage.differs x x = false)
          by (apply differs_false; split; reflexivity).
        congruence.
    + intros [(i & Hl & Hno)|(i & _ & Hl)].
      * apply Hsrc, (Hkept i x Hl Hno).
      * apply In_lookup. exists i. exact Hl.
  - intros Hndt i j x Hl Hno Hj Hs.
    apply indexes_where_In in Hj as (j' & y & Hjj & Hly & Hsync).
    cbn in Hjj. subst j'. rewrite Hs in Hly. inversion Hly; subst y.
    unfold Storage.to_sync in Hsync.
    assert (Hin : In x targetSnapshots) by (apply In_lookup; exists i; exact Hl).
    rewrite (by_name_unique targetSnapshots x Hndt Hin) in Hsync.
    assert (Hrefl : Storage.differs x x = false)
      by (apply differs_false; split; reflexivity).
    congruence.
  - intros excludeOlder.
    destruct (CompareSnapshots_indexes sourceSnapshots sourceSnapshots
                excludeOlder) as [latest' ->].
    assert (Hrefl : forall x, Storage.differs x x = false)
      by (intros x; apply differs_false; split; reflexivity).
    rewrite !indexes_where_none; [reflexivity| |].
    + intros x Hx. unfold to_delete.
      rewrite (by_name_unique sourceSnapshots x Hnd Hx). apply Hrefl.
    + intros x Hx. unfold Storage.to_sync.
      rewrite (by_name_unique sourceSnapshots x Hnd Hx). apply Hrefl.
Qed.

(** Three source snapshots; on the target the first is the same, the
    second has another ID and a third one is unknown to the source:
    sync the indexes 1 and 2, delete the indexes 1 and 2. *)
Lemma compare_snapshots_plan_complete_witness :
  Storage.CompareSnapshots Storage.source_snapshots Storage.target_snapshots
    false = ([ 1%nat; 2%nat ], [ 1%nat; 2%nat ]) /\
  Storage.CompareSnapshots Storage.source_snapshots Storage.source_snapshots
    true = ([], []).
Proof.
  split; [vm_compute; reflexivity|].
  destruct (compare_snapshots_plan_complete Storage.source_snapshots
              Storage.target_snapshots) as (_ & _ & Hself).
  - apply (bool_decide_unpack _). vm_compute. reflexivity.
  - apply Hself.
Defined.

(** X26.  The two lists of indexes that [CompareSnapshots] returns are
    strictly increasing and within the bounds of the source and of the
    target list.  The indexes to delete do not depend on
    [excludeOlder], and every index synced with [excludeOlder] is also
    synced without it. *)
Theorem compare_snapshots_indexes_in_order
    (sourceSnapshots targetSnapshots : list Storage.ComparableSnapshot)
    (excludeOlder : bool) :
  StronglySorted lt
    (fst (Storage.CompareSnapshots sourceSnapshots targetSnapshots excludeOlder)) /\
  Forall (fun i => (i < length sourceSnapshots)%nat)
    (fst (Storage.CompareSnapshots sourceSnapshots targetSnapshots excludeOlder)) /\
  StronglySorted lt
    (snd (Storage.CompareSnapshots sourceSnapshots targetSnapshots excludeOlder)) /\
  Forall (fun i => (i < length targetSnapshots)%nat)
    (snd (Storage.CompareSnapshots sourceSnapshots targetSnapshots excludeOlder)) /\
  snd (Storage.CompareSnapshots sourceSnapshots targetSnapshots excludeOlder)
  = snd (Storage.CompareSnapshots sourceSnapshots targetSnapshots false) /\
  (forall i,
     In i (fst (Storage.CompareSnapshots sourceSnapshots targetSnapshots true)) ->
     In i (fst (Storage.CompareSnapshots sourceSnapshots targetSnapshots false))).
Proof.
  destruct (CompareSnapshots_indexes sourceSnapshots targetSnapshots excludeOlder)
    as [latest ->].
  destruct (CompareSnapshots_indexes sourceSnapshots targetSnapshots false)
    as [latest0 ->].
  destruct (CompareSnapshots_indexes sourceSnapshots targetSnapshots true)
    as [latest1 ->].
  cbn [fst snd].
  destruct (indexes_where_sorted
              (Storage.to_sync (Storage.by_name targetSnapshots) excludeOlder latest)
              sourceSnapshots 0) as [Hs1 Hf1].
  destruct (indexes_where_sorted (to_delete (Storage.by_name sourceSnapshots))
              targetSnapshots 0) as [Hs2 Hf2].
  split; [exact Hs1|].
  split; [eapply Forall_impl; [exact Hf1|]; cbn; intros i Hi; lia|].
  split; [exact Hs2|].
  split; [eapply Forall_impl; [exact Hf2|]; cbn; intros i Hi; lia|].
  split; [reflexivity|].
  intros i Hi. apply indexes_where_In in Hi as (j & x & Hij & Hl & Hp).
  apply indexes_where_In. exists j, x. split; [exact Hij|]. split; [exact Hl|].
  unfold Storage.to_sync in *.
  destruct (Storage.by_name targetSnapshots !! Storage.Name x);
    [exact Hp|reflexivity].
Qed.

(* ------------------------------------------------------------------ *)
(** ** mknodat against mknod, and the programs bpf accepts *)

Lemma doDeviceSyscall_resp (w : World) (s : State) (c : Instance)
    (a : MknodArgs) (siov siov' : Iovec) :
  resp siov = resp siov' ->
  doDeviceSyscall w s c a siov = doDeviceSyscall w s c a siov'.
Proof. unfold doDeviceSyscall. intros ->. reflexivity. Qed.

Lemma refuse_resp (s : State) (siov siov' : Iovec) (e : Z) :
  resp siov = resp siov' -> refuse s siov e = refuse s siov' e.
Proof.
  unfold refuse, continue_reply, return_errno. intros ->. reflexivity.
Qed.

(** X27.  A [mknodat] whose directory descriptor is [AT_FDCWD] in its
    low 32 bits is handled as the [mknod] of its last three arguments:
    for a response whose error field is zero, as the classifier leaves
    it, the two emulators return the same value, leave the same response
    and do the same things, provided the device is allowed or continue
    is supported. *)
Theorem mknodat_at_cwd_is_mknod (w : World) (s : State) (c : Instance)
    (siov : Iovec) :
  to_i32 (arg (req siov) 0) = to_i32 AT_FDCWD ->
  resp_error (resp siov) = 0 ->
  device_allowed (to_u64 (arg (req siov) 3)) (to_u32 (arg (req siov) 2)) = 0 \/
    SeccompListenerContinue s = true ->
  HandleMknodatSyscall w s c siov = HandleMknodSyscall w s c (as_mknod siov).
Proof.
  intros Hdir Herr Hok.
  unfold HandleMknodatSyscall, HandleMknodSyscall.
  rewrite Hdir, Z.eqb_refl. cbn [negb].
  change (arg (req (as_mknod siov)) 0) with (arg (req siov) 1).
  change (arg (req (as_mknod siov)) 1) with (arg (req siov) 2).
  change (arg (req (as_mknod siov)) 2) with (arg (req siov) 3).
  change (memFd (as_mknod siov)) with (memFd siov).
  change (req_pid (req (as_mknod siov))) with (req_pid (req siov)).
  cbn [set_resp_error resp resp_error memFd].
  destruct (device_allowed_cases (to_u64 (arg (req siov) 3))
              (to_u32 (arg (req siov) 2))) as [Hd|Hd]; rewrite Hd.
  - cbn [Z.eqb negb Z.ltb Z.compare].
    assert (Hresp : {| resp_id := resp_id (resp siov);
                       resp_val := resp_val (resp siov);
                       resp_error := 0;
                       resp_flags := resp_flags (resp siov) |} = resp siov).
    { destruct (resp siov) as [i v e f]. cbn in *. subst e. reflexivity. }
    destruct (pread_into w (memFd siov) (zeros PathMax) PathMax
                (to_i64 (arg (req siov) 1))) as [cPathBuf|].
    + apply doDeviceSyscall_resp. exact Hresp.
    + apply refuse_resp. exact Hresp.
  - destruct Hok as [Hc|Hc]; [rewrite Hd in Hc; vm_compute in Hc; discriminate Hc|].
    rewrite Hc. cbn [Z.eqb Z.opp EPERM negb Z.ltb Z.compare].
    reflexivity.
Qed.

(** [mknodat(AT_FDCWD, "/dev/null", S_IFCHR | 0666, makedev(1, 3))] with
    the descriptor as an unsigned 32-bit number. *)
Lemma mknodat_at_cwd_is_mknod_witness :
  HandleMknodatSyscall (example_world "/dev/null" None) strict_state
    (example_instance ∅) (example_siov (mknodat_req 4294967196))
  = {| errno := 0; resp_out := resp_zero;
       effects := [Forksyscall [ "forksyscall"; "mknod"; "4242"; "3";
                                 "/dev/null"; "8630"; "259"; "0"; "0"; "0";
                                 "0" ]] |}.
Proof.
  rewrite (mknodat_at_cwd_is_mknod (example_world "/dev/null" None)
             strict_state (example_instance ∅)
             (example_siov (mknodat_req 4294967196))).
  - vm_compute. reflexivity.
  - reflexivity.
  - reflexivity.
  - left. reflexivity.
Defined.

Section BpfPrograms.
Context `{SharedUtil}.

(** X28.  The emulation of [bpf] serves the device controller only.
    Once the attribute is read, the pidfd is open and the notification
    is still valid, a [BPF_PROG_LOAD] of a program of another type than
    [BPF_PROG_TYPE_CGROUP_DEVICE], and a [BPF_PROG_ATTACH] or
    [BPF_PROG_DETACH] of another attach type than [BPF_CGROUP_DEVICE],
    are rejected with [-EINVAL] whatever the host would answer; the
    emulator in Go then continues the system call. *)
Theorem bpf_only_device_programs (w : World) (s : State) (c : Instance)
    (siov : Iovec) (attr : bpf_attr) (pidfd : Z) :
  IsFalseOrEmpty
    (cfg_get (ExpandedConfig c) "security.syscalls.intercept.bpf.devices") = false ->
  PidFdsThread s = true ->
  arg (req siov) 2 <= to_u32 (sizeof_bpf_attr w) ->
  pread_bpf_attr w (memFd siov) (arg (req siov) 2) (to_i64 (arg (req siov) 1))
  = inl attr ->
  incus_pidfd_open w (to_i32 (req_pid (req siov))) PIDFD_THREAD = inl pidfd ->
  ioctl_NOTIF_ID_VALID w (notifyFd siov) (req_id (req siov)) = None ->
  (arg (req siov) 0 = BPF_PROG_LOAD /\
   prog_type attr <> BPF_PROG_TYPE_CGROUP_DEVICE) \/
  ((arg (req siov) 0 = BPF_PROG_ATTACH \/ arg (req siov) 0 = BPF_PROG_DETACH) /\
   attach_type attr <> BPF_CGROUP_DEVICE) ->
  handle_bpf_syscall w (to_i32 (req_pid (req siov))) (notifyFd siov)
    (memFd siov) (-1) (req siov) (resp siov) PIDFD_THREAD
  = (- EINVAL, resp siov) /\
  HandleBpfSyscall w s c siov = continue_reply siov.
Proof.
  intros Hopt Hthread Hlen Hattr Hpidfd Hvalid Hother.
  assert (Hc : handle_bpf_syscall w (to_i32 (req_pid (req siov)))
                 (notifyFd siov) (memFd siov) (-1) (req siov) (resp siov)
                 PIDFD_THREAD = (- EINVAL, resp siov)).
  { unfold handle_bpf_syscall.
    destruct (Z.ltb_spec (to_u32 (sizeof_bpf_attr w)) (arg (req siov) 2));
      [lia|].
    destruct Hother as [[Hcmd Hty]|[[Hcmd|Hcmd] Hty]]; rewrite Hcmd;
      cbn [Z.eqb BPF_PROG_LOAD BPF_PROG_ATTACH BPF_PROG_DETACH Pos.eqb orb negb];
      rewrite Hattr;
      change (Z.land PIDFD_THREAD PIDFD_THREAD =? 0) with false; cbn [negb];
      rewrite Hpidfd, Hvalid.
    - destruct (Z.eqb_spec (prog_type attr) BPF_PROG_TYPE_CGROUP_DEVICE);
        [contradiction|reflexivity].
    - unfold bpf_attach_detach.
      destruct (Z.eqb_spec (attach_type attr) BPF_CGROUP_DEVICE);
        [contradiction|reflexivity].
    - unfold bpf_attach_detach.
      destruct (Z.eqb_spec (attach_type attr) BPF_CGROUP_DEVICE);
        [contradiction|reflexivity]. }
  split; [exact Hc|].
  unfold HandleBpfSyscall. rewrite Hopt, Hthread, Hc. reflexivity.
Qed.

End BpfPrograms.

(** Scenario: the load of a socket filter. *)
Lemma bpf_only_device_programs_witness :
  @HandleBpfSyscall example_util (bpf_world socket_filter_attr) thread_state
    (example_instance bpf_config) (example_siov bpf_load_req)
  = continue_reply (example_siov bpf_load_req).
Proof.
  assert (Hlen : arg (req (example_siov bpf_load_req)) 2
                 <= to_u32 (sizeof_bpf_attr (bpf_world socket_filter_attr)))
    by (vm_compute; discriminate).
  assert (Hty : prog_type socket_filter_attr <> BPF_PROG_TYPE_CGROUP_DEVICE)
    by (vm_compute; discriminate).
  exact (proj2 (@bpf_only_device_programs example_util
                  (bpf_world socket_filter_attr) thread_state
                  (example_instance bpf_config) (example_siov bpf_load_req)
                  socket_filter_attr 20 eq_refl eq_refl Hlen eq_refl eq_refl
                  eq_refl (or_introl (conj eq_refl Hty)))).
Defined.

(* ------------------------------------------------------------------ *)
(** ** Instances without a policy *)

Section NoPolicy.
Context `{SharedUtil}.

(** X29.  An instance for which [InstanceNeedsPolicy] is false is one
    whose compiled policy would hold no rule at all: when moreover every
    intercept option is false or empty, the compiler returns the header,
    the mode line and the [[all]] marker. *)
Theorem policy_not_needed_is_bare
    (order : list (string * (State -> option error)))
    (s : State) (c : Instance) :
  order ≡ₚ intercept_keys ->
  InstanceNeedsPolicy c = false ->
  (forall k check, In (k, check) intercept_keys ->
                   IsFalseOrEmpty (cfg_get (ExpandedConfig c) k) = true) ->
  seccompGetPolicyContent order s c
  = inl (seccompHeader +:+
         unlines [ if lxc_feature s "seccomp_allow_deny_syntax"
                   then "denylist" else "blacklist";
                   "[all]" ]).
Proof.
  intros Hperm Hno Hkeys.
  assert (Hni : InstanceNeedsIntercept order s c = (false, None)).
  { unfold InstanceNeedsIntercept.
    rewrite (intercept_range_none s (ExpandedConfig c) order false).
    - destruct (IsPrivileged c), (RunningInUserNS s); reflexivity.
    - intros k check Hin. apply (Hkeys k check).
      apply (Permutation_in _ Hperm). exact Hin. }
  unfold InstanceNeedsPolicy in Hno.
  destruct (existsb _ _) eqn:Htext in Hno; [discriminate|].
  destruct (existsb _ _) eqn:Hflags in Hno; [discriminate|].
  cbn [existsb] in Htext, Hflags.
  repeat match goal with
         | Hx : _ || _ = false |- _ => apply orb_false_elim in Hx as [? Hx]
         end.
  repeat match goal with
         | Hx : bool_decide (is_Some (?m !! ?k)) = false |- _ =>
             apply bool_decide_eq_false in Hx;
             assert (m !! k = None)
               by (destruct (m !! k) eqn:?; [exfalso; apply Hx; eauto|reflexivity]);
             clear Hx
         end.
  unfold seccompGetPolicyContent, cfg_lookup, cfg_get in *.
  repeat match goal with
         | Hx : ExpandedConfig c !! _ = None |- _ => rewrite Hx in *; clear Hx
         end.
  cbn [default str_empty negb] in *. rewrite Hni.
  destruct (ExpandedConfig c !! "security.syscalls.deny_default") as [v|];
    cbn [negb orb] in *.
  - destruct (IsTrue v); [discriminate|].
    destruct (ExpandedConfig c !! "security.syscalls.deny_compat") as [vc|];
      cbn [negb default id] in *;
      repeat match goal with
             | Hx : IsTrue _ = false |- _ => rewrite Hx; clear Hx
             end;
      destruct (lxc_feature s "seccomp_allow_deny_syntax"); reflexivity.
  - destruct (ExpandedConfig c !! "security.syscalls.blacklist_default") as [v|];
      cbn [negb orb] in *; [|discriminate].
    destruct (IsTrue v); [discriminate|].
    destruct (ExpandedConfig c !! "security.syscalls.deny_compat") as [vc|];
      cbn [negb default id] in *;
      repeat match goal with
             | Hx : IsTrue _ = false |- _ => rewrite Hx; clear Hx
             end;
      destruct (lxc_feature s "seccomp_allow_deny_syntax"); reflexivity.
Qed.

End NoPolicy.

(** The default rules switched off and nothing else set. *)
Lemma policy_not_needed_is_bare_witness :
  @InstanceNeedsPolicy example_util (example_instance bare_config) = false /\
  @seccompGetPolicyContent example_util intercept_keys strict_state
    (example_instance bare_config)
  = inl (unlines [ "2"; "denylist"; "[all]" ]).
Proof.
  split; [vm_compute; reflexivity|].
  rewrite (@policy_not_needed_is_bare example_util intercept_keys strict_state
             (example_instance bare_config)).
  - vm_compute. reflexivity.
  - reflexivity.
  - vm_compute. reflexivity.
  - intros k check Hin. cbn [In intercept_keys] in Hin.
    repeat destruct Hin as [Hin|Hin]; try contradiction;
      inversion Hin; subst; vm_compute; reflexivity.
Defined.
